(** * haussmeister.cnmf: cache conversion, CNMF orchestration, ROI contours

    A shallow embedding of [haussmeister/cnmf.py].  The Python module is a
    script around four collaborators: numpy, the file system, the CNMF
    library [ca_source_extraction] (imported as [cse]) and matplotlib's
    contour tracer.  numpy's array shuffling and the file system are modelled
    concretely; the numeric libraries are an interface ([Collaborators])
    that the embedding is parametric in.  Every function runs in a small
    monad threading the file system and the list of library calls made so
    far, and can raise a Python exception.

    [sys.stdout] progress messages and [time.time] stamps are not modelled. *)

From Stdlib Require Import PrimFloat FloatOps SpecFloat ZArith Lia.
From stdpp Require Import gmap strings list.

Local Open Scope Z_scope.

(** ** Python values *)

Inductive exn : Type :=
| TypeError | ValueError | IndexError | KeyError | IOError | ZeroDivisionError
| OverflowError.

Inductive result (A : Type) : Type :=
| Ok (a : A)
| Raise (e : exn).
Arguments Ok {A} a.
Arguments Raise {A} e.

(** An n-dimensional array of floats: its shape and its elements in C order. *)
Record ndarray : Type := NdArray { shape : list nat; data : list float }.

(** [[]] where the source passes an empty Python list for an array. *)
Definition nd_empty : ndarray := NdArray [0%nat] [].

(** A scalar or keyword argument handed to the CNMF library. *)
Inductive value : Type :=
| VInt (z : Z)
| VBool (b : bool)
| VFloat (x : float)
| VInf
| VNone.

(** One parameter group ([options['spatial_params']], ...) and the
    dictionary of groups [CNMFSetParms] returns. *)
Abbreviation pdict := (gmap string value).
Abbreviation options := (gmap string (gmap string value)).

(** [float(z)] and [int(x)] of Python: rounding to nearest, and truncation
    toward zero ([int] of an infinity or a NaN raises). *)
Definition float_of_int (z : Z) : float :=
  SF2Prim (binary_normalize prec emax z 0 false).

Definition int_of_float (x : float) : result Z :=
  match Prim2SF x with
  | S754_zero _ => Ok 0
  | S754_finite s m e =>
      let v := if 0 <=? e then Z.pos m * 2 ^ e else Z.shiftr (Z.pos m) (- e) in
      Ok (if s then - v else v)
  | S754_infinity _ => Raise OverflowError
  | S754_nan => Raise ValueError
  end.

(** [a / b] on two Python 2 ints: floor division, [ZeroDivisionError] on 0. *)
Definition py_div (a b : Z) : result Z :=
  if b =? 0 then Raise ZeroDivisionError else Ok (a / b).

(** ** Files and the world *)

Inductive file : Type :=
| Tiff (frame : ndarray)                 (* one image of a frame sequence *)
| RawBinary (frames : ndarray)           (* contiguous raw recording *)
| Npy (a : ndarray)                      (* written by np.save *)
| Mat (d : gmap string ndarray).         (* written by scipy.io.savemat *)

(** The calls the module makes into its collaborators, in program order. *)
Inductive call : Type :=
| c_np_save (path : string)
| c_savemat (path : string)
| c_loadmat (path : string)
| c_stop_server
| c_start_server (n : Z)
| c_CNMFSetParms (n_processes K p : Z) (gSig : list Z) (ssub tsub : Z)
| c_preprocess_data (params : pdict)
| c_initialize_components (params : pdict)
| c_update_spatial_components (params : pdict)
| c_update_temporal_components (params : pdict)
| c_merge_components (tparams sparams : pdict) (thr mx : value)
                     (fast_merge : option bool)
| c_run_CNMF_patches (fname : string) (dims : nat * nat * nat) (opts : options)
                     (rf stride n_processes : Z)
| c_order_components
| c_zproject.

Record world : Type := World { fs : gmap string file; calls : list call }.

(** ** The monad of the script: state and exceptions *)

Definition M (A : Type) : Type := world -> result A * world.

Definition ret {A} (a : A) : M A := fun w => (Ok a, w).
Definition raise {A} (e : exn) : M A := fun w => (Raise e, w).
Definition bind {A B} (m : M A) (k : A -> M B) : M B :=
  fun w => match m w with
           | (Ok a, w') => k a w'
           | (Raise e, w') => (Raise e, w')
           end.
Definition lift {A} (r : result A) : M A := fun w => (r, w).

Notation "x <- m ;; k" := (bind m (fun x => k))
  (at level 100, m at next level, right associativity).
Notation "m ;;; k" := (bind m (fun _ => k))
  (at level 100, right associativity).

Definition get_fs : M (gmap string file) := fun w => (Ok (fs w), w).
Definition trace (c : call) : M unit :=
  fun w => (Ok tt, World (fs w) (calls w ++ [c])).
Definition write_file (p : string) (f : file) : M unit :=
  fun w => (Ok tt, World (<[p := f]> (fs w)) (calls w)).

(** [os.path.exists] *)
Definition os_path_exists (p : string) : M bool :=
  fun w => (Ok (bool_decide (is_Some (fs w !! p))), w).

(** ** numpy *)

Fixpoint ends_with (suffix s : string) : bool :=
  if String.eqb s suffix then true
  else match s with
       | EmptyString => false
       | String _ s' => ends_with suffix s'
       end.

(** [np.save] appends [.npy] to a name that does not end in it. *)
Definition npy_name (p : string) : string :=
  if ends_with ".npy" p then p else p +:+ ".npy".

Definition np_save (p : string) (a : ndarray) : M unit :=
  trace (c_np_save (npy_name p)) ;;;
  write_file (npy_name p) (Npy a).

Definition np_load (p : string) : M ndarray :=
  f <- get_fs ;;
  match f !! p with
  | Some (Npy a) => ret a
  | _ => raise IOError
  end.

(** [d1, d2, T = a.shape] *)
Definition shape3 (a : ndarray) : result (nat * nat * nat) :=
  match shape a with
  | [d1; d2; T] => Ok (d1, d2, T)
  | _ => Raise ValueError
  end.

(** [np.transpose(a, (p0, p1, p2))] of a 3-dimensional array: axis [i] of
    the result is axis [p_i] of [a]. *)
Definition np_transpose (perm : nat * nat * nat) (a : ndarray) : result ndarray :=
  match shape a with
  | [n0; n1; n2] =>
      let '(p0, p1, p2) := perm in
      let s := fun ax => nth ax [n0; n1; n2] 0%nat in
      Ok (NdArray [s p0; s p1; s p2]
            (i ← seq 0 (s p0); j ← seq 0 (s p1); k ← seq 0 (s p2);
             let o := fun ax => if (ax =? p0)%nat then i
                                else if (ax =? p1)%nat then j else k in
             [nth (o 0 * n1 * n2 + o 1 * n2 + o 2)%nat (data a) 0%float]))
  | _ => Raise ValueError
  end.

(** [np.reshape(a, (d1*d2, T), order='F')] of a [(d1, d2, T)] array: row
    [p] of the result is the pixel [(p mod d1, p / d1)]. *)
Definition np_reshape_F_pixels (a : ndarray) : result ndarray :=
  match shape a with
  | [d1; d2; T] =>
      Ok (NdArray [(d1 * d2)%nat; T]
            (p ← seq 0 (d1 * d2); t ← seq 0 T;
             [nth ((p `mod` d1) * d2 * T + (p `div` d1) * T + t)%nat
                  (data a) 0%float]))
  | _ => Raise ValueError
  end.

(** [a.squeeze()]: drop the axes of length one. *)
Definition np_squeeze (a : ndarray) : ndarray :=
  NdArray (filter (fun n => n ≠ 1%nat) (shape a)) (data a).

(** [np.invert(mask)]: element-wise negation; [np.invert(None)] is a
    [TypeError]. *)
Definition np_invert (mask : option (list bool)) : result (list bool) :=
  match mask with
  | None => Raise TypeError
  | Some m => Ok (map negb m)
  end.


(** [a.astype(np.float32)]: every element rounded to single precision. *)
Definition float32 (x : float) : float :=
  match Prim2SF x with
  | S754_finite s m e =>
      SF2Prim (binary_normalize 24 128 (if s then Z.neg m else Z.pos m) e s)
  | _ => x
  end.

Definition astype_float32 (a : ndarray) : ndarray :=
  NdArray (shape a) (map float32 (data a)).

(** The [k] consecutive blocks of [n] elements of a flat list. *)
Fixpoint chunks (n k : nat) (l : list float) : list (list float) :=
  match k with
  | O => []
  | S k' => take n l :: chunks n k' (drop n l)
  end.

(** The elements of [l] at the positions where [sel] is true. *)
Fixpoint select {A} (sel : list bool) (l : list A) : list A :=
  match sel, l with
  | b :: sel', x :: l' => if b then x :: select sel' l' else select sel' l'
  | _, _ => []
  end.

(** ** The dataset and the collaborators *)

(** What the module reads of a [haussio] dataset object. *)
Record dataset : Type := Dataset {
  dirname_comp : string;
  filenames : list string;
  rawfile : option string
}.

(** The polygon of one component: its vertices, each a list of coordinates. *)
Abbreviation polygon := (list (list float)).

(** The libraries the module calls and does not define.  Each is a function
    of its arguments (the CNMF library is deterministic given its inputs and
    configuration) and may raise. *)
Class Collaborators : Type := {
  (* sima.misc.tifffile: TiffSequence(filenames, pattern=None).asarray(memmap=True) *)
  tifffile_asarray : gmap string file -> list string -> result ndarray;
  (* haussio_data.read_raw() *)
  haussio_read_raw : gmap string file -> dataset -> result ndarray;
  (* a[idx, :, :] for a boolean idx whose length is not a.shape[0]: an
     IndexError in numpy from 1.13 on, a deprecation warning before *)
  np_index_mismatch : ndarray -> list bool -> result ndarray;
  (* utils.zproject *)
  utils_zproject : ndarray -> result ndarray;
  (* np.argsort(v, axis=None): quicksort, the order among ties is numpy's *)
  np_argsort : list float -> list nat;
  (* _cntr.Cntr(y, x, z).trace(level) *)
  cntr_trace : list (list Z) -> list (list Z) -> list (list float) -> float ->
               list polygon;
  cse_CNMFSetParms : ndarray -> Z -> Z -> Z -> list Z -> Z -> Z -> result options;
  cse_preprocess_data :
    ndarray -> pdict -> result (ndarray * ndarray * ndarray * ndarray);
  cse_initialize_components :
    ndarray -> pdict ->
    result (ndarray * ndarray * ndarray * ndarray * ndarray);
  (* update_spatial_components(Yr, C, f, A_in, sn=sn, **spatial_params) *)
  cse_update_spatial_components :
    ndarray -> ndarray -> ndarray -> ndarray -> ndarray -> pdict ->
    result (ndarray * ndarray * ndarray);
  (* update_temporal_components(Yr, A, b, Cin, fin, bl=None, c1=None,
     sn=None, g=None, **temporal_params) *)
  cse_update_temporal_components :
    ndarray -> ndarray -> ndarray -> ndarray -> ndarray -> pdict ->
    result (ndarray * ndarray * ndarray * ndarray * ndarray * ndarray
            * ndarray * ndarray);
  (* merge_components(Yr, A, b, C, f, S, sn_pix, temporal_params,
     spatial_params, bl, c1, sn, g, thr, mx, fast_merge) *)
  cse_merge_components :
    ndarray -> ndarray -> ndarray -> ndarray -> ndarray -> ndarray -> ndarray ->
    pdict -> pdict ->
    option ndarray -> option ndarray -> option ndarray -> option ndarray ->
    value -> value -> option bool ->
    result (ndarray * ndarray * ndarray * ndarray * ndarray * ndarray
            * ndarray * ndarray * ndarray);
  (* map_reduce.run_CNMF_patches(fname, (d1, d2, T), options, rf, stride,
     n_processes, backend='ipyparallel', memory_fact=4.0); reads fname *)
  cse_run_CNMF_patches :
    gmap string file -> string -> nat * nat * nat -> options -> Z -> Z -> Z ->
    result (ndarray * ndarray * ndarray * ndarray * ndarray * options);
  cse_order_components :
    ndarray -> ndarray -> result (ndarray * ndarray * ndarray)
}.

Section Cnmf.
Context `{Collaborators}.

(** [a[idx, :, :]] for a boolean [idx]: the frames of [a] where [idx] holds.
    Three indices need three axes. *)
Definition np_index_frames (a : ndarray) (idx : list bool) : result ndarray :=
  match shape a with
  | [n0; n1; n2] =>
      if (length idx =? n0)%nat then
        let kept := select idx (chunks (n1 * n2) n0 (data a)) in
        Ok (NdArray [length kept; n1; n2] (concat kept))
      else np_index_mismatch a idx
  | _ => Raise IndexError
  end.

(** ** Array cache: [tiffs_to_cnmf] *)

(** Lines 53-64: the frame files that are read.  A mask shorter than the
    file list is completed with [np.ones(...).astype(np.bool)]; [zip] stops
    at the shorter of its arguments. *)
Definition mask_full (fns : list string) (mask : list bool) : list bool :=
  if (length mask <? length fns)%nat
  then mask ++ repeat true (length fns - length mask)
  else mask.

Definition kept_filenames (fns : list string) (mask : option (list bool))
  : list string :=
  match mask with
  | None => fns
  | Some m =>
      map fst (filter (fun fm => negb (snd fm)) (zip fns (mask_full fns m)))
  end.

(** Lines 51-52: [rawfile is None or not os.path.exists(rawfile)]. *)
Definition no_rawfile (hd : dataset) : M bool :=
  match rawfile hd with
  | None => ret true
  | Some rf => e <- os_path_exists rf ;; ret (negb e)
  end.

(** Lines 51-70: the [(T, d1, d2)] stack of the frames that are kept. *)
Definition load_frames (hd : dataset) (mask : option (list bool)) : M ndarray :=
  nr <- no_rawfile hd ;;
  if nr then
    f <- get_fs ;;
    a <- lift (tifffile_asarray f (kept_filenames (filenames hd) mask)) ;;
    ret (astype_float32 a)
  else
    f <- get_fs ;;
    raw <- lift (haussio_read_raw f hd) ;;
    idx <- lift (np_invert mask) ;;
    lift (np_index_frames (astype_float32 (np_squeeze raw)) idx).

(** Lines 47-76: the conversion proper, inside the guard. *)
Definition convert (hd : dataset) (mask : option (list bool)) : M unit :=
  tiff_data <- load_frames hd mask ;;
  tiff_data <- lift (np_transpose (1, 2, 0)%nat tiff_data) ;;
  tiff_data_r <- lift (np_reshape_F_pixels tiff_data) ;;
  np_save (dirname_comp hd +:+ "_Y") tiff_data ;;;
  np_save (dirname_comp hd +:+ "_Yr") tiff_data_r.

Definition tiffs_to_cnmf (hd : dataset) (mask : option (list bool))
  (force : bool) : M unit :=
  e <- os_path_exists (dirname_comp hd +:+ "_Y.npy") ;;
  if negb e || force then convert hd mask else ret tt.

(** ** Contour extractor: [contour] *)

(** [A[:, i]] of a [(d, nr)] array. *)
Definition column (A : ndarray) (d nr i : nat) : list float :=
  map (fun r => nth (r * nr + i)%nat (data A) 0%float) (seq 0 d).

(** [v[indx]] *)
Definition gather (v : list float) (indx : list nat) : list float :=
  map (fun j => nth j v 0%float) indx.

(** [np.cumsum]: running sums, left to right, starting at the first element. *)
Fixpoint cumsum_from (acc : float) (l : list float) : list float :=
  match l with
  | [] => []
  | x :: l' => let s := (acc + x)%float in s :: cumsum_from s l'
  end.

Definition np_cumsum (l : list float) : list float :=
  match l with
  | [] => []
  | x :: l' => x :: cumsum_from x l'
  end.

(** [Bvec = np.zeros(d); Bvec[indx] = cumEn].  The indices come from
    [argsort] and are in range; stdpp's insert leaves the list alone
    elsewhere. *)
Definition scatter (d : nat) (indx : list nat) (v : list float) : list float :=
  fold_left (fun B jv => <[fst jv := snd jv]> B) (zip indx v)
            (repeat 0%float d).

(** [np.reshape(Bvec, (d1, d2), order='F')] as a list of rows. *)
Definition reshape_F (Bvec : list float) (d1 d2 : nat) : list (list float) :=
  map (fun r => map (fun c => nth (r + c * d1)%nat Bvec 0%float) (seq 0 d2))
      (seq 0 d1).

(** [x, y = np.mgrid[:d1, :d2]] *)
Definition mgrid_x (d1 d2 : nat) : list (list Z) :=
  map (fun r => map (fun _ => Z.of_nat r) (seq 0 d2)) (seq 0 d1).
Definition mgrid_y (d1 d2 : nat) : list (list Z) :=
  map (fun _ => map (fun c => Z.of_nat c) (seq 0 d2)) (seq 0 d1).

(** Lines 374-379: the cumulative-energy map of component [i].
    [cumEn[-1]] of an empty array is an [IndexError]; the reshape of [d]
    values into [(d1, d2)] needs [d1 * d2 = d]. *)
Definition energy_map (A : ndarray) (d nr d1 d2 i : nat)
  : result (list (list float)) :=
  let col := column A d nr i in
  let indx := rev (np_argsort col) in
  let cumEn := np_cumsum (map (fun x => (x * x)%float) (gather col indx)) in
  match last cumEn with
  | None => Raise IndexError
  | Some total =>
      let cumEn := map (fun x => (x / total)%float) cumEn in
      let Bvec := scatter d indx cumEn in
      if (d1 * d2 =? d)%nat then Ok (reshape_F Bvec d1 d2)
      else Raise ValueError
  end.

(** Line 385: the polygon appended when the tracer finds nothing. *)
Definition placeholder : polygon :=
  [[0%float; 0%float; 0%float]; [0%float; 0%float; 0%float];
   [0%float; 0%float; 0%float]].

(** Lines 382-385: [cs[0]] if [len(cs) > 0], the placeholder otherwise. *)
Definition first_or_placeholder (cs : list polygon) : polygon :=
  match cs with
  | c :: _ => c
  | [] => placeholder
  end.

(** Lines 374-385: the polygon of component [i]. *)
Definition component_polygon (A : ndarray) (d nr d1 d2 : nat) (thr : float)
  (i : nat) : result polygon :=
  match energy_map A d nr d1 d2 i with
  | Raise e => Raise e
  | Ok Bmat =>
      let cs := cntr_trace (mgrid_y d1 d2) (mgrid_x d1 d2) Bmat thr in
      Ok (first_or_placeholder cs)
  end.

(** The [for] loop: [coordinates] grows by one polygon per component; the
    first exception ends the call. *)
Fixpoint contour_loop (step : nat -> result polygon) (comps : list nat)
  : result (list polygon) :=
  match comps with
  | [] => Ok []
  | i :: comps' =>
      match step i with
      | Raise e => Raise e
      | Ok c =>
          match contour_loop step comps' with
          | Raise e => Raise e
          | Ok cs => Ok (c :: cs)
          end
      end
  end.

(** [contour(A, d1, d2, thr)] for a float [thr] (the orchestrators pass
    0.9).  [A] stands for the dense array [np.array(A.todense())] or
    [np.array(A)]. *)
Definition contour (A : ndarray) (d1 d2 : nat) (thr : float)
  : result (list polygon) :=
  match shape A with
  | [d; nr] => contour_loop (component_polygon A d nr d1 d2 thr) (seq 0 nr)
  | _ => Raise ValueError
  end.

(** ** The orchestrators *)

(** [mp.cpu_count()] of the machine the module is imported on. *)
Variable cpu_count : Z.

(** Line 42: [NCPUS = int(mp.cpu_count()/2)]. *)
Definition NCPUS : Z := cpu_count / 2.

(** [options[group][key] = v]; a missing group is a [KeyError]. *)
Definition set_param (group key : string) (v : value) (o : options)
  : result options :=
  match o !! group with
  | Some g => Ok (<[group := <[key := v]> g]> o)
  | None => Raise KeyError
  end.

Definition get_group (group : string) (o : options) : result pdict :=
  match o !! group with
  | Some g => Ok g
  | None => Raise KeyError
  end.

Definition get_param (group key : string) (o : options) : result value :=
  match o !! group with
  | Some g => match g !! key with
              | Some v => Ok v
              | None => Raise KeyError
              end
  | None => Raise KeyError
  end.

(** A sima ROI and the [ROIList] of the polygons. *)
Record ROI : Type := MkROI { polygons : polygon }.
Definition ROIList (l : list ROI) : list ROI := l.

(** The five arrays of a result bundle: [A2, C2, YrA, S2, bl2]. *)
Record bundle : Type := Bundle {
  b_A : ndarray; b_C : ndarray; b_YrA : ndarray; b_S : ndarray; b_bl : ndarray
}.

(** [savemat(fn, {"A": A2, "C": C2, "YrA": YrA, "S": S2, "bl": bl2})] *)
Definition savemat (fn : string) (r : bundle) : M unit :=
  trace (c_savemat fn) ;;;
  write_file fn (Mat (<["A" := b_A r]> (<["C" := b_C r]> (<["YrA" := b_YrA r]>
                     (<["S" := b_S r]> (<["bl" := b_bl r]> ∅)))))).

(** Lines 198-203: [resdict = loadmat(fn)] and the five look-ups. *)
Definition lookup_key (d : gmap string ndarray) (k : string) : result ndarray :=
  match d !! k with
  | Some a => Ok a
  | None => Raise KeyError
  end.

Definition loadmat (fn : string) : M (gmap string ndarray) :=
  trace (c_loadmat fn) ;;;
  f <- get_fs ;;
  match f !! fn with
  | Some (Mat d) => ret d
  | Some _ => raise ValueError
  | None => raise IOError
  end.

Definition load_bundle (fn : string) : M bundle :=
  resdict <- loadmat fn ;;
  A2 <- lift (lookup_key resdict "A") ;;
  C2 <- lift (lookup_key resdict "C") ;;
  YrA <- lift (lookup_key resdict "YrA") ;;
  S2 <- lift (lookup_key resdict "S") ;;
  bl2 <- lift (lookup_key resdict "bl") ;;
  ret (Bundle A2 C2 YrA S2 bl2).

(** Lines 108-119 and 253-264: the worker settings written into the
    options of [CNMFSetParms]. *)
Definition set_worker_params (n_pixels_per_process : Z) (o : options)
  : result options :=
  match set_param "preprocess_params" "n_processes" (VInt NCPUS) o with
  | Raise e => Raise e | Ok o =>
  match set_param "preprocess_params" "n_pixels_per_process"
                  (VInt n_pixels_per_process) o with
  | Raise e => Raise e | Ok o =>
  match set_param "init_params" "nIter" (VInt 10) o with
  | Raise e => Raise e | Ok o =>
  match set_param "init_params" "maxIter" (VInt 10) o with
  | Raise e => Raise e | Ok o =>
  match set_param "init_params" "use_hals" (VBool true) o with
  | Raise e => Raise e | Ok o =>
  match set_param "spatial_params" "n_processes" (VInt NCPUS) o with
  | Raise e => Raise e | Ok o =>
  match set_param "spatial_params" "n_pixels_per_process"
                  (VInt n_pixels_per_process) o with
  | Raise e => Raise e | Ok o =>
  match set_param "temporal_params" "n_processes" (VInt NCPUS) o with
  | Raise e => Raise e | Ok o =>
  set_param "temporal_params" "n_pixels_per_process"
            (VInt n_pixels_per_process) o
  end end end end end end end end.

(** Lines 205-210: the projection image, computed once and cached. *)
Definition projection (hd : dataset) (Y : ndarray) : M ndarray :=
  let proj_fn := dirname_comp hd +:+ "_proj.npy" in
  e <- os_path_exists proj_fn ;;
  if negb e then
    Yt <- lift (np_transpose (2, 0, 1)%nat Y) ;;
    trace c_zproject ;;;
    zproj <- lift (utils_zproject Yt) ;;
    np_save proj_fn zproj ;;;
    ret zproj
  else np_load proj_fn.

(** The thresholds written as literals in the source: 0.9 and 0.7. *)
Definition thr_contour : float := 0x1.ccccccccccccdp-1%float.
Definition thr_merge : float := 0x1.6666666666666p-1%float.

(** What both orchestrators return:
    [(rois, C2, zproj, S2, Y, YrA)]. *)
Definition output : Type :=
  list ROI * ndarray * ndarray * ndarray * ndarray * ndarray.

(** Lines 214-225: [order_components] is called and its results bound to
    [A_or, C_or, srt]; the polygons are drawn from [A2] and the traces
    returned are [C2]. *)
Definition order_and_outline (r : bundle) (zproj Y : ndarray) (d1 d2 : nat)
  : M output :=
  trace c_order_components ;;;
  ordered <- lift (cse_order_components (b_A r) (b_C r)) ;;
  let '(A_or, C_or, srt) := ordered in
  trace c_stop_server ;;;
  polygons <- lift (contour (b_A r) d1 d2 thr_contour) ;;
  let rois := ROIList (map MkROI polygons) in
  ret (rois, b_C r, zproj, b_S r, Y, b_YrA r).

(** Lines 88-92 and 231-235: make sure of the cache, then map the cube
    and read its shape. *)
Definition open_cache (hd : dataset) (mask : option (list bool))
  : M (ndarray * (nat * nat * nat)) :=
  tiffs_to_cnmf hd mask false ;;;
  Y <- np_load (dirname_comp hd +:+ "_Y.npy") ;;
  dims <- lift (shape3 Y) ;;
  ret (Y, dims).

(** Lines 205-225 and 337-357, the same text in both orchestrators. *)
Definition finish (hd : dataset) (r : bundle) (Y : ndarray) (d1 d2 : nat)
  : M output :=
  zproj <- projection hd Y ;;
  order_and_outline r zproj Y d1 d2.

(** Lines 96-196: the numeric stages of the whole-frame path. *)
Definition whole_frame_stages (hd : dataset) (Y : ndarray) (d1 d2 : nat)
  (p nrois_init : Z) : M bundle :=
  trace c_stop_server ;;;
  Yr <- np_load (dirname_comp hd +:+ "_Yr.npy") ;;
  n_pixels_per_process <- lift (py_div (Z.of_nat d1 * Z.of_nat d2) NCPUS) ;;
  trace (c_CNMFSetParms NCPUS nrois_init p [9; 9] 2 2) ;;;
  options <- lift (cse_CNMFSetParms Y NCPUS nrois_init p [9; 9] 2 2) ;;
  options <- lift (set_worker_params n_pixels_per_process options) ;;
  trace (c_start_server NCPUS) ;;;
  pre_params <- lift (get_group "preprocess_params" options) ;;
  trace (c_preprocess_data pre_params) ;;;
  pre <- lift (cse_preprocess_data Yr pre_params) ;;
  let '(Yr, sn, g, psx) := pre in
  init_params <- lift (get_group "init_params" options) ;;
  trace (c_initialize_components init_params) ;;;
  ini <- lift (cse_initialize_components Y init_params) ;;
  let '(Ain, Cin, b_in, f_in, center) := ini in
  sparams <- lift (get_group "spatial_params" options) ;;
  trace (c_update_spatial_components sparams) ;;;
  sp <- lift (cse_update_spatial_components Yr Cin f_in Ain sn sparams) ;;
  let '(A, b, Cin) := sp in
  tparams <- lift (get_group "temporal_params" options) ;;
  trace (c_update_temporal_components tparams) ;;;
  tp <- lift (cse_update_temporal_components Yr A b Cin f_in tparams) ;;
  let '(C, f, S1, bl, c1, neurons_sn, g, YrA) := tp in
  tparams <- lift (get_group "temporal_params" options) ;;
  sparams <- lift (get_group "spatial_params" options) ;;
  trace (c_merge_components tparams sparams (VFloat thr_merge) (VInt 100)
                            (Some true)) ;;;
  mg <- lift (cse_merge_components Yr A b C f S1 sn tparams sparams
                (Some bl) (Some c1) (Some neurons_sn) (Some g)
                (VFloat thr_merge) (VInt 100) (Some true)) ;;
  let '(A_m, C_m, nr_m, merged_ROIs, S_m, bl_m, c1_m, sn_m, g_m) := mg in
  sparams <- lift (get_group "spatial_params" options) ;;
  trace (c_update_spatial_components sparams) ;;;
  sp2 <- lift (cse_update_spatial_components Yr C_m f A_m sn sparams) ;;
  let '(A2, b2, C2) := sp2 in
  tparams <- lift (get_group "temporal_params" options) ;;
  trace (c_update_temporal_components tparams) ;;;
  tp2 <- lift (cse_update_temporal_components Yr A2 b2 C2 f tparams) ;;
  let '(C2, f2, S2, bl2, c12, neurons_sn2, g21, YrA) := tp2 in
  let r := Bundle A2 C2 YrA S2 bl2 in
  savemat (dirname_comp hd +:+ "_cnmf.mat") r ;;;
  ret r.

Definition process_data (hd : dataset) (mask : option (list bool))
  (p nrois_init : Z) : M output :=
  let fn_cnmf := dirname_comp hd +:+ "_cnmf.mat" in
  cube <- open_cache hd mask ;;
  let '(Y, (d1, d2, T)) := cube in
  e <- os_path_exists fn_cnmf ;;
  r <- (if negb e then whole_frame_stages hd Y d1 d2 p nrois_init
        else load_bundle fn_cnmf) ;;
  finish hd r Y d1 d2.

(** Lines 250-251: [K = int(nrois_init/NCPUS/2.0)], the component target
    of one patch: an integer division, a float division, a truncation. *)
Definition patch_K (nrois_init : Z) : result Z :=
  match py_div nrois_init NCPUS with
  | Raise e => Raise e
  | Ok q => int_of_float (float_of_int q / 2)%float
  end.

(** Lines 279-281: [np.minimum(np.int((d1*d2)/NCPUS/(T/2000.)),
    np.int((d1*d2)/NCPUS))].  Dividing by the float zero raises. *)
Definition pix_proc (d1 d2 T : nat) : result Z :=
  match py_div (Z.of_nat d1 * Z.of_nat d2) NCPUS with
  | Raise e => Raise e
  | Ok q =>
      let t := (float_of_int (Z.of_nat T) / 2000)%float in
      if PrimFloat.eqb t 0%float then Raise ZeroDivisionError
      else match int_of_float (float_of_int q / t)%float with
           | Raise e => Raise e
           | Ok a => Ok (Z.min a q)
           end
  end.

(** [A_tot.shape[-1]] *)
Definition last_dim (a : ndarray) : result Z :=
  match last (shape a) with
  | Some n => Ok (Z.of_nat n)
  | None => Raise IndexError
  end.

(** Lines 282-291: the settings of the second options dictionary. *)
Definition set_global_params (n_pixels_per_process pix : Z) (o : options)
  : result options :=
  match set_param "preprocess_params" "n_processes" (VInt NCPUS) o with
  | Raise e => Raise e | Ok o =>
  match set_param "preprocess_params" "n_pixels_per_process"
                  (VInt n_pixels_per_process) o with
  | Raise e => Raise e | Ok o =>
  match set_param "init_params" "nIter" (VInt 10) o with
  | Raise e => Raise e | Ok o =>
  match set_param "init_params" "maxIter" (VInt 10) o with
  | Raise e => Raise e | Ok o =>
  match set_param "init_params" "use_hals" (VBool true) o with
  | Raise e => Raise e | Ok o =>
  match set_param "spatial_params" "n_processes" (VInt NCPUS) o with
  | Raise e => Raise e | Ok o =>
  match set_param "temporal_params" "n_processes" (VInt NCPUS) o with
  | Raise e => Raise e | Ok o =>
  match set_param "spatial_params" "n_pixels_per_process" (VInt pix) o with
  | Raise e => Raise e | Ok o =>
  set_param "temporal_params" "n_pixels_per_process" (VInt pix) o
  end end end end end end end end.

(** Lines 239-328: the numeric stages of the patched path. *)
Definition patched_stages (hd : dataset) (Y : ndarray) (d1 d2 T : nat)
  (p nrois_init : Z) : M bundle :=
  trace c_stop_server ;;;
  let fname_new := dirname_comp hd +:+ "_Yr.npy" in
  Yr <- np_load fname_new ;;
  n_pixels_per_process <- lift (py_div (Z.of_nat d1 * Z.of_nat d2) NCPUS) ;;
  K <- lift (patch_K nrois_init) ;;
  trace (c_CNMFSetParms NCPUS K p [9; 9] 1 1) ;;;
  options <- lift (cse_CNMFSetParms Y NCPUS K p [9; 9] 1 1) ;;
  options <- lift (set_worker_params n_pixels_per_process options) ;;
  let rf := 16 in
  let stride := 2 in
  trace (c_start_server NCPUS) ;;;
  trace (c_run_CNMF_patches fname_new (d1, d2, T) options rf stride NCPUS) ;;;
  f <- get_fs ;;
  pt <- lift (cse_run_CNMF_patches f fname_new (d1, d2, T) options rf stride
                                   NCPUS) ;;
  let '(A_tot, C_tot, b, f, sn_tot, opt_out) := pt in
  K <- lift (last_dim A_tot) ;;
  trace (c_CNMFSetParms NCPUS K p [9; 9] 1 1) ;;;
  options <- lift (cse_CNMFSetParms Y NCPUS K p [9; 9] 1 1) ;;
  pix <- lift (pix_proc d1 d2 T) ;;
  options <- lift (set_global_params n_pixels_per_process pix options) ;;
  tparams <- lift (get_group "temporal_params" options) ;;
  sparams <- lift (get_group "spatial_params" options) ;;
  thr <- lift (get_param "merging" "thr" options) ;;
  trace (c_merge_components tparams sparams thr VInf None) ;;;
  mg <- lift (cse_merge_components Yr A_tot nd_empty C_tot nd_empty C_tot
                nd_empty tparams sparams None None None None thr VInf None) ;;
  let '(A_m, C_m, nr_m, merged_ROIs, S_m, bl_m, c1_m, sn_m, g_m) := mg in
  sparams <- lift (get_group "spatial_params" options) ;;
  trace (c_update_spatial_components sparams) ;;;
  sp2 <- lift (cse_update_spatial_components Yr C_m f A_m sn_tot sparams) ;;
  let '(A2, b2, C2) := sp2 in
  tparams <- lift (get_group "temporal_params" options) ;;
  trace (c_update_temporal_components tparams) ;;;
  tp2 <- lift (cse_update_temporal_components Yr A2 b2 C2 f tparams) ;;
  let '(C2, f2, S2, bl2, c12, neurons_sn2, g21, YrA) := tp2 in
  let r := Bundle A2 C2 YrA S2 bl2 in
  savemat (dirname_comp hd +:+ "_cnmf.mat") r ;;;
  ret r.

Definition process_data_patches (hd : dataset) (mask : option (list bool))
  (p nrois_init : Z) : M output :=
  let fn_cnmf := dirname_comp hd +:+ "_cnmf.mat" in
  cube <- open_cache hd mask ;;
  let '(Y, (d1, d2, T)) := cube in
  e <- os_path_exists fn_cnmf ;;
  r <- (if negb e then patched_stages hd Y d1 d2 T p nrois_init
        else load_bundle fn_cnmf) ;;
  finish hd r Y d1 d2.

(** What the two orchestrators have in common, with the numeric stages
    left open: [process_data] and [process_data_patches] are its instances
    at [whole_frame_stages] and [patched_stages]. *)
Definition orchestrate
  (numeric : dataset -> ndarray -> nat -> nat -> nat -> M bundle)
  (hd : dataset) (mask : option (list bool)) : M output :=
  let fn_cnmf := dirname_comp hd +:+ "_cnmf.mat" in
  cube <- open_cache hd mask ;;
  let '(Y, (d1, d2, T)) := cube in
  e <- os_path_exists fn_cnmf ;;
  r <- (if negb e then numeric hd Y d1 d2 T else load_bundle fn_cnmf) ;;
  finish hd r Y d1 d2.

End Cnmf.

(** ** What is observed of a run *)

(** The numeric stages of the CNMF library among the calls. *)
Inductive stage : Type :=
| Preprocessing | Initialization | SpatialUpdate | TemporalUpdate | Merging
| PatchSolve.

Definition stage_of (c : call) : option stage :=
  match c with
  | c_preprocess_data _ => Some Preprocessing
  | c_initialize_components _ => Some Initialization
  | c_update_spatial_components _ => Some SpatialUpdate
  | c_update_temporal_components _ => Some TemporalUpdate
  | c_merge_components _ _ _ _ _ => Some Merging
  | c_run_CNMF_patches _ _ _ _ _ _ => Some PatchSolve
  | _ => None
  end.

Definition stages (cs : list call) : list stage := omap stage_of cs.

(** The order of the stages on the whole-frame path and on the patched
    path. *)
Definition whole_frame_order : list stage :=
  [Preprocessing; Initialization; SpatialUpdate; TemporalUpdate; Merging;
   SpatialUpdate; TemporalUpdate].

Definition patched_order : list stage :=
  [PatchSolve; Merging; SpatialUpdate; TemporalUpdate].

(** The [mx] argument of every merge among the calls. *)
Definition merge_caps (cs : list call) : list value :=
  omap (fun c => match c with
                 | c_merge_components _ _ _ mx _ => Some mx
                 | _ => None
                 end) cs.

(** The worker count and the component target [K] of every
    [CNMFSetParms] among the calls. *)
Definition setparms (cs : list call) : list (Z * Z) :=
  omap (fun c => match c with
                 | c_CNMFSetParms n K _ _ _ _ => Some (n, K)
                 | _ => None
                 end) cs.

(** Calls that are no numeric stage, no merge and no [CNMFSetParms]. *)
Definition quiet (l : list call) : Prop :=
  stages l = [] /\ merge_caps l = [] /\ setparms l = [].


(** The traces and the ROIs of an output, and an array of a stored
    bundle. *)
Definition traces_of (r : result output) : option ndarray :=
  match r with
  | Ok (_, C, _, _, _, _) => Some C
  | Raise _ => None
  end.

Definition rois_of (r : result output) : option (list ROI) :=
  match r with
  | Ok (rois, _, _, _, _, _) => Some rois
  | Raise _ => None
  end.

Definition stored (w : world) (p k : string) : option ndarray :=
  match fs w !! p with
  | Some (Mat d) => d !! k
  | _ => None
  end.

(** The files written by [np.save] among the calls. *)
Definition saves (cs : list call) : list string :=
  omap (fun c => match c with
                 | c_np_save p => Some p
                 | _ => None
                 end) cs.

(** The shape of the array cached under a name. *)
Definition npy_shape (w : world) (p : string) : option (list nat) :=
  match fs w !! p with
  | Some (Npy a) => Some (shape a)
  | _ => None
  end.

(** The contract of [np.argsort]: it returns the indices of its argument,
    each once. *)
Definition argsort_permutes `{Collaborators} : Prop :=
  forall v : list float, Permutation (np_argsort v) (seq 0 (length v)).

(** The grid [energy_map] yields where [0 / 0] was computed everywhere. *)
Definition nan_grid (d1 d2 : nat) : list (list float) :=
  repeat (repeat nan d2) d1.

(** A call without the arrays and dictionaries it carries. *)
Inductive kind : Type :=
| KSave (path : string)
| KSavemat (path : string)
| KLoadmat (path : string)
| KStop
| KStart (n : Z)
| KSetParms (n_processes K ssub tsub : Z)
| KStage (s : stage)
| KOrder
| KZProject.

Definition kind_of (c : call) : kind :=
  match c with
  | c_np_save p => KSave p
  | c_savemat p => KSavemat p
  | c_loadmat p => KLoadmat p
  | c_stop_server => KStop
  | c_start_server n => KStart n
  | c_CNMFSetParms n K _ _ ssub tsub => KSetParms n K ssub tsub
  | c_preprocess_data _ => KStage Preprocessing
  | c_initialize_components _ => KStage Initialization
  | c_update_spatial_components _ => KStage SpatialUpdate
  | c_update_temporal_components _ => KStage TemporalUpdate
  | c_merge_components _ _ _ _ _ => KStage Merging
  | c_run_CNMF_patches _ _ _ _ _ _ => KStage PatchSolve
  | c_order_components => KOrder
  | c_zproject => KZProject
  end.

Definition kinds (cs : list call) : list kind := map kind_of cs.

(** Lines 96-196 and 239-328 by kind, for a machine with [cpu] CPUs. *)
Definition whole_frame_kinds (cpu : Z) (fn : string) (nrois_init : Z)
  : list kind :=
  [KStop; KSetParms (NCPUS cpu) nrois_init 2 2; KStart (NCPUS cpu)]
  ++ map KStage whole_frame_order ++ [KSavemat fn].

Definition patched_kinds (cpu : Z) (fn : string) (K K' : Z) : list kind :=
  [KStop; KSetParms (NCPUS cpu) K 1 1; KStart (NCPUS cpu); KStage PatchSolve;
   KSetParms (NCPUS cpu) K' 1 1]
  ++ map KStage [Merging; SpatialUpdate; TemporalUpdate] ++ [KSavemat fn].

(** The calls of the cache and of the projection, present when the file
    was not. *)
Definition cache_kinds (hd : dataset) (w : world) : list kind :=
  if bool_decide (is_Some (fs w !! (dirname_comp hd +:+ "_Y.npy"))) then []
  else [KSave (dirname_comp hd +:+ "_Y.npy");
        KSave (dirname_comp hd +:+ "_Yr.npy")].

Definition projection_kinds (hd : dataset) (w : world) : list kind :=
  if bool_decide (is_Some (fs w !! (dirname_comp hd +:+ "_proj.npy"))) then []
  else [KZProject; KSave (dirname_comp hd +:+ "_proj.npy")].

(** The state of the ipyparallel backend after a sequence of calls:
    the number of workers started, or [None] when stopped. *)
Definition backend_step (s : option Z) (k : kind) : option Z :=
  match k with
  | KStop => None
  | KStart n => Some n
  | _ => s
  end.

Definition backend_after (s : option Z) (ks : list kind) : option Z :=
  fold_left backend_step ks s.

(** The dictionary [savemat] writes. *)
Definition bundle_dict (r : bundle) : gmap string ndarray :=
  <["A" := b_A r]> (<["C" := b_C r]> (<["YrA" := b_YrA r]>
  (<["S" := b_S r]> (<["bl" := b_bl r]> ∅)))).

(** The parameter dictionaries handed to one kind of stage. *)
Definition handed_to (s : stage) (c : call) : list pdict :=
  match s, c with
  | Preprocessing, c_preprocess_data ps => [ps]
  | Initialization, c_initialize_components ps => [ps]
  | SpatialUpdate, c_update_spatial_components ps => [ps]
  | TemporalUpdate, c_update_temporal_components ps => [ps]
  | Merging, c_merge_components tp sp _ _ _ => [tp; sp]
  | _, _ => []
  end.

Definition settings (s : stage) (cs : list call) : list pdict :=
  cs ≫= handed_to s.

(** What both numeric parts have in common, for a machine with [cpu]
    CPUs: the bundle is written by a run that returns, after the stages
    of [order], and by no other; with no worker ([NCPUS = 0]) nothing but
    [stop_server] is called; once a stage has been called the backend is
    up with [NCPUS] workers. *)
Definition numeric_contract `{Collaborators} (cpu : Z) (order : list stage)
  (numeric : dataset -> ndarray -> nat -> nat -> nat -> M bundle) : Prop :=
  forall hd Y d1 d2 T w res w1,
    numeric hd Y d1 d2 T w = (res, w1) ->
    exists l,
      calls w1 = calls w ++ l
      /\ match res with
         | Ok r =>
             fs w1 = <[dirname_comp hd +:+ "_cnmf.mat" := Mat (bundle_dict r)]>
                       (fs w)
             /\ stages l = order /\ NCPUS cpu <> 0
         | Raise e => fs w1 = fs w /\ (NCPUS cpu = 0 -> kinds l = [KStop])
         end
      /\ (NCPUS cpu = 0 -> setparms l = [])
      /\ (stages l <> [] ->
          forall s, backend_after s (kinds l) = Some (NCPUS cpu)).

(** The worker settings of a parameter dictionary, and the settings of
    the initialization. *)
Definition worker_settings (n_processes n_pixels_per_process : Z) (ps : pdict)
  : Prop :=
  ps !! "n_processes" = Some (VInt n_processes)
  /\ ps !! "n_pixels_per_process" = Some (VInt n_pixels_per_process).

Definition init_settings (ps : pdict) : Prop :=
  ps !! "nIter" = Some (VInt 10) /\ ps !! "maxIter" = Some (VInt 10)
  /\ ps !! "use_hals" = Some (VBool true).

(** The [thr], [mx] and [fast_merge] arguments of every merge among the
    calls. *)
Definition merge_args (cs : list call) : list (value * value * option bool) :=
  omap (fun c => match c with
                 | c_merge_components _ _ thr mx fm => Some (thr, mx, fm)
                 | _ => None
                 end) cs.

(** ** A small instance of the collaborators

    Simple stand-ins that compute, for running the embedding on concrete
    recordings. *)

(** A frame reader: every name must be a [Tiff] of the shape of the first;
    no name at all is an error. *)
Fixpoint toy_read_frames (f : gmap string file) (sh : list nat)
  (fns : list string) : result (list float) :=
  match fns with
  | [] => Ok []
  | fn :: fns' =>
      match f !! fn with
      | Some (Tiff a) =>
          if bool_decide (shape a = sh) then
            match toy_read_frames f sh fns' with
            | Ok l => Ok (data a ++ l)
            | Raise e => Raise e
            end
          else Raise ValueError
      | _ => Raise IOError
      end
  end.

Definition toy_asarray (f : gmap string file) (fns : list string)
  : result ndarray :=
  match fns with
  | [] => Raise ValueError
  | fn :: _ =>
      match f !! fn with
      | Some (Tiff a) =>
          match toy_read_frames f (shape a) fns with
          | Ok l => Ok (NdArray (length fns :: shape a) l)
          | Raise e => Raise e
          end
      | _ => Raise IOError
      end
  end.

Definition toy_read_raw (f : gmap string file) (hd : dataset) : result ndarray :=
  match rawfile hd with
  | Some rf => match f !! rf with
               | Some (RawBinary a) => Ok a
               | _ => Raise IOError
               end
  | None => Raise TypeError
  end.

(** The first frame of a [(T, d1, d2)] stack as its projection. *)
Definition toy_zproject (a : ndarray) : result ndarray :=
  match shape a with
  | [T; d1; d2] => Ok (NdArray [d1; d2] (take (d1 * d2) (data a)))
  | _ => Raise ValueError
  end.

(** A stable insertion sort of the indices by value, NaN last. *)
Definition toy_lt (x y : float) : bool :=
  if PrimFloat.is_nan y then negb (PrimFloat.is_nan x) else PrimFloat.ltb x y.

Fixpoint toy_insert (v : list float) (j : nat) (sorted : list nat) : list nat :=
  match sorted with
  | [] => [j]
  | k :: rest =>
      if toy_lt (nth j v 0%float) (nth k v 0%float) then j :: k :: rest
      else k :: toy_insert v j rest
  end.

Definition toy_argsort (v : list float) : list nat :=
  fold_left (fun sorted j => toy_insert v j sorted) (seq 0 (length v)) [].

(** A tracer that reports the level crossings on the edges of the grid, in
    scan order, as one line; nothing when no edge is crossed. *)
Definition toy_crosses (thr z1 z2 : float) : bool :=
  xorb (PrimFloat.ltb z1 thr) (PrimFloat.ltb z2 thr).

Definition toy_row_crossings (thr : float) (r : nat) (row : list float)
  : list (list float) :=
  c ← seq 0 (length row - 1);
  let z1 := nth c row 0%float in
  let z2 := nth (S c) row 0%float in
  if toy_crosses thr z1 z2
  then [[(float_of_int (Z.of_nat c) + (thr - z1) / (z2 - z1))%float;
         float_of_int (Z.of_nat r)]]
  else [].

Definition toy_col_crossings (thr : float) (r : nat) (row next : list float)
  : list (list float) :=
  c ← seq 0 (length row);
  let z1 := nth c row 0%float in
  let z2 := nth c next 0%float in
  if toy_crosses thr z1 z2
  then [[float_of_int (Z.of_nat c);
         (float_of_int (Z.of_nat r) + (thr - z1) / (z2 - z1))%float]]
  else [].

Definition toy_trace (y x : list (list Z)) (z : list (list float)) (thr : float)
  : list polygon :=
  let pts :=
    (r ← seq 0 (length z); toy_row_crossings thr r (nth r z [])) ++
    (r ← seq 0 (length z - 1);
     toy_col_crossings thr r (nth r z []) (nth (S r) z [])) in
  match pts with
  | [] => []
  | _ => [pts]
  end.

(** A CNMF stand-in: every frame is a component.  The stages hand their
    inputs on; [order_components] reverses the order of the components. *)
Definition toy_group (K p : Z) : pdict :=
  <["K" := VInt K]> (<["p" := VInt p]> ∅).

Definition toy_SetParms (Y : ndarray) (n K p : Z) (gSig : list Z) (ssub tsub : Z)
  : result options :=
  Ok (<["preprocess_params" := toy_group K p]>
      (<["init_params" := toy_group K p]>
      (<["spatial_params" := toy_group K p]>
      (<["temporal_params" := toy_group K p]>
      (<["merging" := <["thr" := VFloat 0.5%float]> ∅]> ∅))))).

(** The [(d1*d2, T)] array of a [(d1, d2, T)] cube and its transpose. *)
Definition toy_footprints (Y : ndarray) : ndarray :=
  match shape Y with
  | [d1; d2; T] => NdArray [(d1 * d2)%nat; T] (data Y)
  | _ => nd_empty
  end.

Definition toy_transpose2 (a : ndarray) : ndarray :=
  match shape a with
  | [n; m] => NdArray [m; n]
                (j ← seq 0 m; i ← seq 0 n; [nth (i * m + j)%nat (data a) 0%float])
  | _ => nd_empty
  end.

Definition toy_reverse_cols (a : ndarray) : ndarray :=
  match shape a with
  | [n; m] => NdArray [n; m]
                (i ← seq 0 n; j ← seq 0 m;
                 [nth (i * m + (m - 1 - j))%nat (data a) 0%float])
  | _ => a
  end.

Definition toy_reverse_rows (a : ndarray) : ndarray :=
  match shape a with
  | [n; m] => NdArray [n; m]
                (i ← seq 0 n; j ← seq 0 m;
                 [nth ((n - 1 - i) * m + j)%nat (data a) 0%float])
  | _ => a
  end.

Definition toy : Collaborators := {|
  tifffile_asarray := toy_asarray;
  haussio_read_raw := toy_read_raw;
  np_index_mismatch := fun _ _ => Raise IndexError;
  utils_zproject := toy_zproject;
  np_argsort := toy_argsort;
  cntr_trace := toy_trace;
  cse_CNMFSetParms := toy_SetParms;
  cse_preprocess_data := fun Yr _ => Ok (Yr, nd_empty, nd_empty, nd_empty);
  cse_initialize_components := fun Y _ =>
    Ok (toy_footprints Y, toy_transpose2 (toy_footprints Y), nd_empty,
        nd_empty, nd_empty);
  cse_update_spatial_components := fun Yr C f A sn _ => Ok (A, nd_empty, C);
  cse_update_temporal_components := fun Yr A b C f _ =>
    Ok (C, f, C, nd_empty, nd_empty, nd_empty, nd_empty, Yr);
  cse_merge_components := fun Yr A b C f S1 sn _ _ bl c1 sn' g thr mx fm =>
    Ok (A, C, nd_empty, nd_empty, S1, nd_empty, nd_empty, nd_empty, nd_empty);
  cse_run_CNMF_patches := fun f fname dims o rf stride n =>
    match f !! fname with
    | Some (Npy Yr) => Ok (Yr, toy_transpose2 Yr, nd_empty, nd_empty, nd_empty, o)
    | _ => Raise IOError
    end;
  cse_order_components := fun A C =>
    Ok (toy_reverse_cols A, toy_reverse_rows C, nd_empty)
|}.

(** A recording of three 2 x 2 frames, kept as three frame files. *)
Definition toy_frame (a b c d : Z) : file :=
  Tiff (NdArray [2%nat; 2%nat]
          [float_of_int a; float_of_int b; float_of_int c; float_of_int d]).

Definition toy_dataset : dataset :=
  Dataset "rec" ["f0"; "f1"; "f2"] None.

Definition toy_fs : gmap string file :=
  <["f0" := toy_frame 2 1 1 1]> (<["f1" := toy_frame 0 0 0 0]>
  (<["f2" := toy_frame 1 2 3 4]> ∅)).

Definition toy_world : world := World toy_fs [].

(** The same recording as one raw file of three frames. *)
Definition toy_raw_dataset : dataset :=
  Dataset "rec" ["f0"; "f1"; "f2"] (Some "rec.raw").

Definition toy_raw_world : world :=
  World (<["rec.raw" := RawBinary (NdArray [3%nat; 2%nat; 2%nat]
            (map float_of_int [2; 1; 1; 1; 0; 0; 0; 0; 1; 2; 3; 4]))]> toy_fs)
        [].

(** Spatial weights over a 2 x 2 frame: three components, the second all
    zero; one component; one component over no pixel. *)
Definition toy_components : ndarray :=
  NdArray [4%nat; 3%nat]
    (map float_of_int [2; 0; 1;  1; 0; 2;  1; 0; 3;  1; 0; 4]).

Definition toy_one_component : ndarray :=
  NdArray [4%nat; 1%nat] (map float_of_int [2; 1; 1; 1]).


(** The whole-frame and the patched run on the recording, on a machine
    with four CPUs, and the world the whole-frame run leaves behind, from
    which a second run replays the bundle. *)
Definition toy_run : result output * world :=
  @process_data toy 4 toy_dataset None 2 400 toy_world.

Definition toy_patched_run : result output * world :=
  @process_data_patches toy 4 toy_dataset None 2 400 toy_world.

Definition toy_bundle_world : world := World (fs (snd toy_run)) [].

(** A cache whose cube exists and whose flattened matrix does not. *)
Definition toy_half_cache : world :=
  World (<["rec_Y.npy" := Npy (NdArray [2%nat; 2%nat; 1%nat]
            (map float_of_int [2; 1; 1; 1]))]> toy_fs) [].

(** A raw recording of one frame. *)
Definition toy_one_frame_world : world :=
  World (<["rec.raw" := RawBinary (NdArray [1%nat; 2%nat; 2%nat]
            (map float_of_int [2; 1; 1; 1]))]> toy_fs) [].

(** The stand-ins with a merge that fails. *)
Definition toy_merge_fails : Collaborators := {|
  tifffile_asarray := @tifffile_asarray toy;
  haussio_read_raw := @haussio_read_raw toy;
  np_index_mismatch := @np_index_mismatch toy;
  utils_zproject := @utils_zproject toy;
  np_argsort := @np_argsort toy;
  cntr_trace := @cntr_trace toy;
  cse_CNMFSetParms := @cse_CNMFSetParms toy;
  cse_preprocess_data := @cse_preprocess_data toy;
  cse_initialize_components := @cse_initialize_components toy;
  cse_update_spatial_components := @cse_update_spatial_components toy;
  cse_update_temporal_components := @cse_update_temporal_components toy;
  cse_merge_components := fun Yr A b C f S1 sn _ _ bl c1 sn' g thr mx fm =>
    Raise ValueError;
  cse_run_CNMF_patches := @cse_run_CNMF_patches toy;
  cse_order_components := @cse_order_components toy
|}.

Definition toy_failed_run : result output * world :=
  @process_data toy_merge_fails 4 toy_dataset None 2 400 toy_world.

(** The recording with its two cache files and nothing else computed. *)
Definition toy_cached_world : world :=
  World (fs (snd (@tiffs_to_cnmf toy toy_dataset None false toy_world))) [].

(** * Properties *)

(** ** Running the monad *)

Lemma bind_Ok {A B} (m : M A) (k : A -> M B) w a w1 :
  m w = (Ok a, w1) -> bind m k w = k a w1.
Proof. unfold bind. now intros ->. Qed.

Lemma bind_Raise {A B} (m : M A) (k : A -> M B) w e w1 :
  m w = (Raise e, w1) -> bind m k w = (Raise e, w1).
Proof. unfold bind. now intros ->. Qed.

Lemma bind_lift {A B} (r : result A) (k : A -> M B) w :
  bind (lift r) k w = match r with
                      | Ok a => k a w
                      | Raise e => (Raise e, w)
                      end.
Proof. unfold bind, lift. now destruct r. Qed.

Lemma bind_trace {B} (c : call) (k : unit -> M B) w :
  bind (trace c) k w = k tt (World (fs w) (calls w ++ [c])).
Proof. reflexivity. Qed.

Lemma bind_exists {B} (p : string) (k : bool -> M B) w :
  bind (os_path_exists p) k w = k (bool_decide (is_Some (fs w !! p))) w.
Proof. reflexivity. Qed.

Lemma bind_get_fs {B} (k : gmap string file -> M B) w :
  bind get_fs k w = k (fs w) w.
Proof. reflexivity. Qed.

(** ** File names *)

Lemma append_nil (b : string) : "" +:+ b = b.
Proof. reflexivity. Qed.

Lemma append_cons x (a b : string) : String x a +:+ b = String x (a +:+ b).
Proof. reflexivity. Qed.

Lemma append_assoc (a b c : string) : (a +:+ b) +:+ c = a +:+ (b +:+ c).
Proof.
  induction a as [|x a IH]; [reflexivity|].
  rewrite !append_cons. now rewrite IH.
Qed.

Ltac short_string d :=
  repeat (destruct d as [|? d];
          rewrite ?append_nil, ?append_cons in *; try discriminate;
          try match goal with
              | E : String _ _ = String _ _ |- _ => injection E as ? E
              end).

Lemma not_npy_Y d : ends_with ".npy" (d +:+ "_Y") = false.
Proof.
  induction d as [|x d IH]; [reflexivity|].
  rewrite append_cons. cbn [ends_with]. rewrite IH.
  destruct (String.eqb_spec (String x (d +:+ "_Y")) ".npy") as [E|]; [|reflexivity].
  exfalso. injection E as _ E. short_string d.
Qed.

Lemma not_npy_Yr d : ends_with ".npy" (d +:+ "_Yr") = false.
Proof.
  induction d as [|x d IH]; [reflexivity|].
  rewrite append_cons. cbn [ends_with]. rewrite IH.
  destruct (String.eqb_spec (String x (d +:+ "_Yr")) ".npy") as [E|]; [|reflexivity].
  exfalso. injection E as _ E. short_string d.
Qed.

Lemma is_npy_proj d : ends_with ".npy" (d +:+ "_proj.npy") = true.
Proof.
  induction d as [|x d IH]; [reflexivity|].
  rewrite append_cons. cbn [ends_with]. rewrite IH. now destruct (String.eqb _ _).
Qed.

Lemma npy_name_Y d : npy_name (d +:+ "_Y") = d +:+ "_Y.npy".
Proof. unfold npy_name. rewrite not_npy_Y. apply append_assoc. Qed.

Lemma npy_name_Yr d : npy_name (d +:+ "_Yr") = d +:+ "_Yr.npy".
Proof. unfold npy_name. rewrite not_npy_Yr. apply append_assoc. Qed.

Lemma npy_name_proj d : npy_name (d +:+ "_proj.npy") = d +:+ "_proj.npy".
Proof. unfold npy_name. now rewrite is_npy_proj. Qed.

Lemma suffix_ne (d a b : string) : a <> b -> d +:+ a <> d +:+ b.
Proof. intros Hab E. now apply String.app_inj in E. Qed.

(** ** The frame files that are kept *)

Lemma masked_tail_dropped (l : list string) (n : nat) :
  filter (fun fm : string * bool => negb (snd fm)) (zip l (repeat true n)) = [].
Proof.
  revert n. induction l as [|x l IH]; intros [|n]; simpl; try reflexivity.
  rewrite filter_cons_False by (simpl; auto). apply IH.
Qed.

Lemma mask_full_short (fns : list string) (m : list bool) :
  (length m < length fns)%nat ->
  mask_full fns m = m ++ repeat true (length fns - length m).
Proof.
  intros Hlt. unfold mask_full.
  now destruct (Nat.ltb_spec (length m) (length fns)); [|lia].
Qed.

Lemma mask_full_fits (fns : list string) (m : list bool) :
  (length fns <= length m)%nat -> mask_full fns m = m.
Proof.
  intros Hle. unfold mask_full.
  now destruct (Nat.ltb_spec (length m) (length fns)); [lia|].
Qed.

Section Cache.
Context `{Collaborators}.

Lemma no_rawfile_pure hd w : exists b, no_rawfile hd w = (Ok b, w).
Proof.
  unfold no_rawfile. destruct (rawfile hd); [|now exists true].
  unfold bind, os_path_exists, ret. eauto.
Qed.

Lemma no_rawfile_exists hd w rf :
  rawfile hd = Some rf -> is_Some (fs w !! rf) ->
  no_rawfile hd w = (Ok false, w).
Proof.
  intros Hrf Hex. unfold no_rawfile. rewrite Hrf.
  unfold bind, os_path_exists, ret. now rewrite bool_decide_eq_true_2.
Qed.

(** [load_frames] reads and leaves the world as it is. *)
Lemma load_frames_pure hd mask w : snd (load_frames hd mask w) = w.
Proof.
  unfold load_frames.
  destruct (no_rawfile_pure hd w) as [b Hb].
  rewrite (bind_Ok _ _ _ _ _ Hb).
  destruct b; unfold bind, get_fs, lift, ret.
  - now destruct (tifffile_asarray _ _).
  - destruct (haussio_read_raw _ _); [|reflexivity].
    destruct (np_invert mask); [|reflexivity].
    now destruct (np_index_frames _ _).
Qed.

Lemma convert_cases hd mask w :
  let Yp := dirname_comp hd +:+ "_Y.npy" in
  let Yrp := dirname_comp hd +:+ "_Yr.npy" in
  (exists e, convert hd mask w = (Raise e, w))
  \/ (exists Y Yr,
        convert hd mask w =
          (Ok tt, World (<[Yrp := Npy Yr]> (<[Yp := Npy Y]> (fs w)))
                        (calls w ++ [c_np_save Yp; c_np_save Yrp]))).
Proof.
  intros Yp Yrp. unfold convert.
  pose proof (load_frames_pure hd mask w) as Hw.
  destruct (load_frames hd mask w) as [[a|e] w1] eqn:E;
    simpl in Hw; subst w1;
    [rewrite (bind_Ok _ _ _ _ _ E) | rewrite (bind_Raise _ _ _ _ _ E); eauto].
  rewrite bind_lift.
  destruct (np_transpose (1, 2, 0)%nat a) as [Y|e]; [|left; eauto].
  rewrite bind_lift.
  destruct (np_reshape_F_pixels Y) as [Yr|e]; [|left; eauto].
  right. exists Y, Yr.
  unfold np_save, bind, trace, write_file. cbn.
  rewrite npy_name_Y, npy_name_Yr. fold Yp Yrp.
  now rewrite <- app_assoc.
Qed.

Lemma tiffs_to_cnmf_guard hd mask force w :
  tiffs_to_cnmf hd mask force w =
    if negb (bool_decide (is_Some (fs w !! (dirname_comp hd +:+ "_Y.npy"))))
       || force
    then convert hd mask w else (Ok tt, w).
Proof.
  unfold tiffs_to_cnmf. rewrite bind_exists.
  now destruct (negb _ || force).
Qed.

(** The three ways [tiffs_to_cnmf] ends: it skips, it raises before
    anything is written, or it converts. *)
Lemma tiffs_to_cnmf_cases hd mask force w :
  let Yp := dirname_comp hd +:+ "_Y.npy" in
  let Yrp := dirname_comp hd +:+ "_Yr.npy" in
  (is_Some (fs w !! Yp) /\ force = false /\
   tiffs_to_cnmf hd mask force w = (Ok tt, w))
  \/ ((fs w !! Yp = None \/ force = true) /\
      exists e, tiffs_to_cnmf hd mask force w = (Raise e, w))
  \/ ((fs w !! Yp = None \/ force = true) /\
      exists Y Yr,
        tiffs_to_cnmf hd mask force w =
          (Ok tt, World (<[Yrp := Npy Yr]> (<[Yp := Npy Y]> (fs w)))
                        (calls w ++ [c_np_save Yp; c_np_save Yrp]))).
Proof.
  intros Yp Yrp. rewrite tiffs_to_cnmf_guard. fold Yp.
  destruct (decide (is_Some (fs w !! Yp))) as [Hex|Hno].
  - rewrite bool_decide_eq_true_2 by assumption. destruct force; cbn [negb orb].
    + right. destruct (convert_cases hd mask w) as [He|HY];
        [left|right]; (split; [now right | assumption]).
    + left. auto.
  - rewrite bool_decide_eq_false_2 by assumption. cbn [negb orb]. right.
    assert (Hc : fs w !! Yp = None \/ force = true).
    { left. destruct (fs w !! Yp) eqn:E; [|reflexivity].
      exfalso. apply Hno. eauto. }
    destruct (convert_cases hd mask w) as [He|HY];
      [left|right]; (split; [assumption | assumption]).
Qed.

Lemma load_frames_files hd mask w :
  fst (no_rawfile hd w) = Ok true ->
  load_frames hd mask w =
    (match tifffile_asarray (fs w) (kept_filenames (filenames hd) mask) with
     | Ok a => Ok (astype_float32 a)
     | Raise e => Raise e
     end, w).
Proof.
  intros Hnr. unfold load_frames.
  destruct (no_rawfile_pure hd w) as [b Hb]. rewrite Hb in Hnr.
  simpl in Hnr. injection Hnr as ->.
  rewrite (bind_Ok _ _ _ _ _ Hb), bind_get_fs, bind_lift.
  now destruct (tifffile_asarray _ _).
Qed.

Lemma load_frames_raw hd mask w rf raw :
  rawfile hd = Some rf -> is_Some (fs w !! rf) ->
  haussio_read_raw (fs w) hd = Ok raw ->
  load_frames hd mask w =
    (match np_invert mask with
     | Ok idx => np_index_frames (astype_float32 (np_squeeze raw)) idx
     | Raise e => Raise e
     end, w).
Proof.
  intros Hrf Hex Hraw. unfold load_frames.
  rewrite (bind_Ok _ _ _ _ _ (no_rawfile_exists hd w rf Hrf Hex)).
  rewrite bind_get_fs, bind_lift, Hraw, bind_lift.
  now destruct (np_invert mask).
Qed.

(** C1, as amended: on the frame-file path a mask of length k < N acts
    as the mask of length N completed with [true] (exclude) at the indices
    k..N-1.  The frames at those indices are dropped: what is kept is what
    the mask keeps of the first k files, and the whole conversion is the
    one of the completed mask. *)
Theorem short_mask_excludes_tail (hd : dataset) (m : list bool) :
  (length m < length (filenames hd))%nat ->
  let padded := m ++ repeat true (length (filenames hd) - length m) in
  kept_filenames (filenames hd) (Some m)
    = kept_filenames (filenames hd) (Some padded)
  /\ kept_filenames (filenames hd) (Some m)
    = kept_filenames (take (length m) (filenames hd)) (Some m)
  /\ forall force w,
       fst (no_rawfile hd w) = Ok true ->
       tiffs_to_cnmf hd (Some m) force w
         = tiffs_to_cnmf hd (Some padded) force w.
Proof.
  intros Hlt padded.
  assert (Hpad : kept_filenames (filenames hd) (Some m)
                 = kept_filenames (filenames hd) (Some padded)).
  { unfold kept_filenames. rewrite mask_full_short by assumption.
    rewrite mask_full_fits; [reflexivity|].
    unfold padded. rewrite length_app, repeat_length. lia. }
  split; [exact Hpad|]. split.
  - unfold kept_filenames. rewrite mask_full_short by assumption.
    rewrite mask_full_fits by (rewrite length_take; lia).
    rewrite <- (take_drop (length m) (filenames hd)) at 1.
    rewrite zip_with_app by (rewrite length_take; lia).
    rewrite filter_app, masked_tail_dropped. now rewrite app_nil_r.
  - intros force w Hnr. rewrite !tiffs_to_cnmf_guard.
    destruct (negb _ || force); [|reflexivity].
    unfold convert. unfold bind at 1 5.
    now rewrite !load_frames_files, Hpad by assumption.
Qed.

(** C4, as amended: a call that returns leaves the cube [<name>_Y.npy] on
    disk; it skips the conversion, touching nothing, exactly when that one
    file exists and [force] is unset; otherwise it has written the cube and
    the flattened matrix, in this order. *)
Theorem cache_guard_is_the_cube (hd : dataset) (mask : option (list bool))
  (force : bool) (w w' : world) :
  tiffs_to_cnmf hd mask force w = (Ok tt, w') ->
  let Yp := dirname_comp hd +:+ "_Y.npy" in
  let Yrp := dirname_comp hd +:+ "_Yr.npy" in
  is_Some (fs w' !! Yp)
  /\ (is_Some (fs w !! Yp) /\ force = false -> w' = w)
  /\ (fs w !! Yp = None \/ force = true ->
      saves (calls w') = saves (calls w) ++ [Yp; Yrp]
      /\ is_Some (fs w' !! Yrp)).
Proof.
  intros Hrun Yp Yrp.
  destruct (tiffs_to_cnmf_cases hd mask force w)
    as [(Hex & Hf & E) | [(Hc & e & E) | (Hc & Y & Yr & E)]];
    fold Yp Yrp in Hex || fold Yp Yrp in Hc; fold Yp Yrp in E;
    rewrite E in Hrun; try discriminate; injection Hrun as <-.
  - split; [assumption|]. split; [reflexivity|].
    intros [Hn | Ht]; [rewrite Hn in Hex; now destruct Hex | congruence].
  - cbn [fs calls]. split.
    { apply lookup_insert_is_Some. destruct (decide (Yrp = Yp)); [now left|].
      right. split; [assumption|]. rewrite lookup_insert_eq. eauto. }
    split.
    { intros [Hex Hf]. destruct Hc as [Hn | Ht]; [|congruence].
      rewrite Hn in Hex. now destruct Hex. }
    intros _. split.
    { unfold saves. now rewrite omap_app. }
    rewrite lookup_insert_eq. eauto.
Qed.

(** C9: with a raw binary source on disk and a conversion to make, the
    mask goes through [np.invert] as it is.  No mask raises (a [TypeError]
    once the raw file is read) and nothing is written; a mask is negated
    element by element and used as the index, so an index shorter than the
    frame count is left to numpy's treatment of a mismatched index. *)
Theorem raw_path_mask_unchecked (hd : dataset) (force : bool) (w : world)
  (rf : string) :
  rawfile hd = Some rf -> is_Some (fs w !! rf) ->
  fs w !! (dirname_comp hd +:+ "_Y.npy") = None \/ force = true ->
  (exists e, tiffs_to_cnmf hd None force w = (Raise e, w)
             /\ (forall raw, haussio_read_raw (fs w) hd = Ok raw ->
                             e = TypeError))
  /\ forall m raw,
       haussio_read_raw (fs w) hd = Ok raw ->
       let a := astype_float32 (np_squeeze raw) in
       load_frames hd (Some m) w = (np_index_frames a (map negb m), w)
       /\ length (map negb m) = length m
       /\ forall n0 n1 n2,
            shape a = [n0; n1; n2] -> length m <> n0 ->
            load_frames hd (Some m) w = (np_index_mismatch a (map negb m), w).
Proof.
  intros Hrf Hex Hc. split.
  - assert (Hg : tiffs_to_cnmf hd None force w = convert hd None w).
    { rewrite tiffs_to_cnmf_guard. destruct Hc as [Hn | ->].
      - rewrite bool_decide_eq_false_2; [reflexivity|].
        rewrite Hn. now intros [? ?].
      - now rewrite orb_true_r. }
    rewrite Hg. unfold convert.
    destruct (haussio_read_raw (fs w) hd) as [raw|e] eqn:Hraw.
    + exists TypeError. split; [|reflexivity].
      apply bind_Raise. now rewrite (load_frames_raw hd None w rf raw).
    + exists e. split; [|discriminate].
      apply bind_Raise. unfold load_frames.
      rewrite (bind_Ok _ _ _ _ _ (no_rawfile_exists hd w rf Hrf Hex)).
      now rewrite bind_get_fs, bind_lift, Hraw.
  - intros m raw Hraw a.
    assert (E : load_frames hd (Some m) w = (np_index_frames a (map negb m), w)).
    { now rewrite (load_frames_raw hd (Some m) w rf raw). }
    split; [exact E|]. split; [apply length_map|].
    intros n0 n1 n2 Hsh Hne. rewrite E. unfold np_index_frames. rewrite Hsh.
    rewrite length_map. now destruct (Nat.eqb_spec (length m) n0).
Qed.

End Cache.

(** ** The array cache on the small recording *)

(** C1 as stated fails: with three frame files and the mask [[false]], only
    the first frame is kept and cached, while the mask completed with
    [false] keeps all three. *)
Lemma short_mask_keeps_tail_counterexample :
  kept_filenames ["f0"; "f1"; "f2"] (Some [false]) = ["f0"]
  /\ kept_filenames ["f0"; "f1"; "f2"] (Some ([false] ++ repeat false 2))
     = ["f0"; "f1"; "f2"]
  /\ npy_shape (snd (@tiffs_to_cnmf toy toy_dataset (Some [false]) false
                       toy_world)) "rec_Y.npy"
     = Some [2; 2; 1]%nat
  /\ npy_shape (snd (@tiffs_to_cnmf toy toy_dataset
                       (Some ([false] ++ repeat false 2)) false toy_world))
               "rec_Y.npy"
     = Some [2; 2; 3]%nat.
Proof. repeat split; vm_compute; reflexivity. Qed.

Lemma short_mask_excludes_tail_witness :
  (length [false] < length (filenames toy_dataset))%nat
  /\ kept_filenames (filenames toy_dataset) (Some [false])
     = kept_filenames (filenames toy_dataset) (Some [false; true; true]).
Proof.
  split; [simpl; lia|].
  exact (proj1 (@short_mask_excludes_tail toy toy_dataset [false]
                  ltac:(simpl; lia))).
Defined.

(** C4 as stated fails: with the cube on disk and the flattened matrix
    missing, an unforced call returns at once, writes nothing, and the
    flattened matrix is still missing. *)
Lemma cache_half_present_counterexample :
  npy_shape toy_half_cache "rec_Y.npy" = Some [2; 2; 1]%nat
  /\ fs toy_half_cache !! "rec_Yr.npy" = None
  /\ @tiffs_to_cnmf toy toy_dataset None false toy_half_cache
     = (Ok tt, toy_half_cache).
Proof. repeat split; vm_compute; reflexivity. Qed.

Lemma cache_guard_is_the_cube_witness :
  @tiffs_to_cnmf toy toy_dataset None false toy_world
    = (Ok tt, snd (@tiffs_to_cnmf toy toy_dataset None false toy_world))
  /\ is_Some (fs (snd (@tiffs_to_cnmf toy toy_dataset None false toy_world))
              !! "rec_Y.npy").
Proof.
  assert (E : @tiffs_to_cnmf toy toy_dataset None false toy_world
              = (Ok tt, snd (@tiffs_to_cnmf toy toy_dataset None false
                               toy_world)))
    by (vm_compute; reflexivity).
  split; [exact E|].
  exact (proj1 (@cache_guard_is_the_cube toy toy_dataset None false toy_world
                  _ E)).
Defined.

Lemma raw_path_mask_unchecked_witness :
  @tiffs_to_cnmf toy toy_raw_dataset None false toy_raw_world
    = (Raise TypeError, toy_raw_world).
Proof.
  assert (Hex : is_Some (fs toy_raw_world !! "rec.raw"))
    by (eexists; vm_compute; reflexivity).
  assert (Hc : fs toy_raw_world !! (dirname_comp toy_raw_dataset +:+ "_Y.npy")
               = None \/ false = true)
    by (left; vm_compute; reflexivity).
  destruct (proj1 (@raw_path_mask_unchecked toy toy_raw_dataset false
                     toy_raw_world "rec.raw" eq_refl Hex Hc))
    as (e & E & He).
  rewrite (He _ eq_refl) in E. exact E.
Defined.

(** ** The contour extractor *)

(** The stand-in for [argsort] honours the contract. *)
Lemma toy_insert_permutes (v : list float) (j : nat) (sorted : list nat) :
  Permutation (toy_insert v j sorted) (j :: sorted).
Proof.
  induction sorted as [|k rest IH]; simpl; [reflexivity|].
  destruct (toy_lt _ _); [reflexivity|].
  rewrite IH. apply perm_swap.
Qed.

Lemma toy_argsort_fold (v : list float) (l acc : list nat) :
  Permutation (fold_left (fun sorted j => toy_insert v j sorted) l acc)
              (l ++ acc).
Proof.
  revert acc. induction l as [|x l IH]; intros acc; simpl; [reflexivity|].
  rewrite IH, toy_insert_permutes. symmetry. apply Permutation_middle.
Qed.

Lemma toy_argsort_permutes : @argsort_permutes toy.
Proof.
  intros v. simpl. unfold toy_argsort.
  rewrite toy_argsort_fold. now rewrite app_nil_r.
Qed.

Section Contour.
Context `{Collaborators}.

(** The loop succeeds exactly when every step does, and then lists the
    polygons of the steps in order. *)
Lemma contour_loop_Ok (step : nat -> result polygon) comps cs :
  contour_loop step comps = Ok cs <->
  Forall2 (fun i c => step i = Ok c) comps cs.
Proof.
  revert cs. induction comps as [|i comps IH]; intros cs; simpl.
  - split; [intros [= <-]; constructor | intros Hf; now inversion Hf].
  - destruct (step i) as [c|e] eqn:Ei.
    + destruct (contour_loop step comps) as [cs'|e] eqn:Ec.
      * split.
        -- intros [= <-]. constructor; [assumption | now apply IH].
        -- intros Hf. inversion Hf as [|? c0 ? cs0 Hc Hrest]; subst.
           apply IH in Hrest. congruence.
      * split; [discriminate|].
        intros Hf. inversion Hf as [|? c0 ? cs0 Hc Hrest]; subst.
        apply IH in Hrest. discriminate.
    + split; [discriminate|].
      intros Hf. inversion Hf; subst. congruence.
Qed.

Lemma contour_loop_total (step : nat -> result polygon) comps :
  (forall i, i ∈ comps -> exists c, step i = Ok c) ->
  exists cs, contour_loop step comps = Ok cs.
Proof.
  induction comps as [|i comps IH]; intros Hall; simpl; [eauto|].
  destruct (Hall i) as [c ->]; [left|].
  destruct IH as [cs ->]; [|eauto].
  intros j Hj. apply Hall. now right.
Qed.

Lemma length_cumsum_from acc l : length (cumsum_from acc l) = length l.
Proof. revert acc. induction l; intros acc; simpl; [|rewrite IHl]; reflexivity. Qed.

Lemma length_np_cumsum l : length (np_cumsum l) = length l.
Proof. destruct l; simpl; [|rewrite length_cumsum_from]; reflexivity. Qed.

Lemma length_column A d nr i : length (column A d nr i) = d.
Proof. unfold column. now rewrite length_map, length_seq. Qed.

(** With a pixel to divide by and a grid of the right size, the energy
    map of a component is computed without an exception. *)
Lemma energy_map_total A d nr d1 d2 i :
  argsort_permutes -> (0 < d)%nat -> (d1 * d2 = d)%nat ->
  exists Bmat, energy_map A d nr d1 d2 i = Ok Bmat.
Proof.
  intros Hsort Hd Hgrid. unfold energy_map.
  destruct (last _) as [total|] eqn:Hlast.
  - apply Nat.eqb_eq in Hgrid. rewrite Hgrid. eauto.
  - exfalso. apply last_None in Hlast.
    apply (f_equal length) in Hlast.
    rewrite length_np_cumsum, length_map in Hlast.
    unfold gather in Hlast. rewrite length_map, length_rev in Hlast.
    rewrite (Permutation_length (Hsort _)), length_seq, length_column in Hlast.
    simpl in Hlast. lia.
Qed.

Lemma component_polygon_total A d nr d1 d2 thr i :
  argsort_permutes -> (0 < d)%nat -> (d1 * d2 = d)%nat ->
  exists Bmat,
    energy_map A d nr d1 d2 i = Ok Bmat /\
    component_polygon A d nr d1 d2 thr i =
      Ok (first_or_placeholder
            (cntr_trace (mgrid_y d1 d2) (mgrid_x d1 d2) Bmat thr)).
Proof.
  intros Hsort Hd Hgrid.
  destruct (energy_map_total A d nr d1 d2 i Hsort Hd Hgrid) as [Bmat E].
  exists Bmat. split; [assumption|].
  unfold component_polygon. now rewrite E.
Qed.

Lemma contour_polygons (A : ndarray) (d m d1 d2 : nat) (thr : float) :
  shape A = [d; m] -> argsort_permutes -> (0 < d)%nat -> (d1 * d2 = d)%nat ->
  exists polys,
    contour A d1 d2 thr = Ok polys
    /\ length polys = m
    /\ (forall i, (i < m)%nat ->
          exists Bmat,
            energy_map A d m d1 d2 i = Ok Bmat /\
            polys !! i =
              Some (first_or_placeholder
                      (cntr_trace (mgrid_y d1 d2) (mgrid_x d1 d2) Bmat thr)))
    /\ ((forall y x z t c cs,
           cntr_trace y x z t = c :: cs -> (3 <= length c)%nat) ->
        Forall (fun p : polygon => (3 <= length p)%nat) polys).
Proof.
  intros Hsh Hsort Hd Hgrid. unfold contour. rewrite Hsh.
  destruct (contour_loop_total (component_polygon A d m d1 d2 thr) (seq 0 m))
    as [polys Hloop].
  { intros i _.
    destruct (component_polygon_total A d m d1 d2 thr i Hsort Hd Hgrid)
      as (Bmat & _ & E). eauto. }
  exists polys. split; [assumption|].
  apply contour_loop_Ok in Hloop.
  pose proof (Forall2_length _ _ _ Hloop) as Hlen. rewrite length_seq in Hlen.
  split; [now symmetry|]. split.
  - intros i Hi.
    destruct (component_polygon_total A d m d1 d2 thr i Hsort Hd Hgrid)
      as (Bmat & EB & E).
    exists Bmat. split; [assumption|].
    destruct (Forall2_lookup_l _ _ _ i i Hloop) as (c & Hc & Hstep).
    { now apply lookup_seq_lt. }
    rewrite Hc. congruence.
  - intros Htr. apply Forall_lookup. intros k p Hk.
    destruct (Forall2_lookup_r _ _ _ k p Hloop Hk) as (i & _ & Hstep).
    unfold component_polygon in Hstep.
    destruct (energy_map A d m d1 d2 i) as [Bmat|]; [|discriminate].
    injection Hstep as <-.
    destruct (cntr_trace _ _ Bmat thr) as [|c cs] eqn:Etr;
      [simpl; lia|]. simpl. eapply Htr, Etr.
Qed.


(** *** The all-zero column *)

Lemma map_seq_const {A} (f : nat -> A) (x : A) (s n : nat) :
  (forall i, (s <= i < s + n)%nat -> f i = x) -> map f (seq s n) = repeat x n.
Proof.
  revert s. induction n as [|n IH]; intros s Hf; simpl; [reflexivity|].
  rewrite Hf by lia. f_equal. apply IH. intros i Hi. apply Hf. lia.
Qed.

Lemma lookup_repeat_lt {A} (x : A) (n j : nat) :
  (j < n)%nat -> repeat x n !! j = Some x.
Proof.
  revert j. induction n as [|n IH]; intros [|j] Hj; simpl; try lia;
    [reflexivity | apply IH; lia].
Qed.

Lemma lookup_repeat_ge {A} (x : A) (n j : nat) :
  (n <= j)%nat -> repeat x n !! j = None.
Proof. intros Hj. apply lookup_ge_None_2. now rewrite repeat_length. Qed.

Lemma cumsum_from_zeros (n : nat) :
  cumsum_from 0%float (repeat 0%float n) = repeat 0%float n.
Proof. induction n as [|n IH]; simpl; [reflexivity | now rewrite IH]. Qed.

Lemma np_cumsum_zeros (n : nat) :
  np_cumsum (repeat 0%float n) = repeat 0%float n.
Proof. destruct n; simpl; [reflexivity | now rewrite cumsum_from_zeros]. Qed.

Lemma squares_of_zeros (d : nat) (indx : list nat) :
  map (fun x => (x * x)%float) (gather (repeat 0%float d) indx)
  = repeat 0%float (length indx).
Proof.
  unfold gather. induction indx as [|j indx IH]; simpl; [reflexivity|].
  now rewrite nth_repeat, IH.
Qed.

(** Scattering one value [x] over the indices [indx] sets every listed
    position of the target to [x]. *)
Lemma scatter_fold_const (x : float) (indx : list nat) :
  forall (n : nat) (B : list float) (j : nat),
    (length indx <= n)%nat ->
    fold_left (fun B jv => <[fst jv := snd jv]> B) (zip indx (repeat x n)) B
      !! j
    = if decide (j ∈ indx /\ (j < length B)%nat) then Some x else B !! j.
Proof.
  induction indx as [|i indx IH]; intros n B j Hn.
  - reflexivity.
  - destruct n as [|n]; [simpl in Hn; lia|].
    cbn [repeat zip_with fold_left fst snd].
    rewrite IH by (simpl in Hn; lia). rewrite length_insert.
    destruct (decide (j ∈ indx /\ (j < length B)%nat)) as [[Hin Hlt]|Hnot].
    + rewrite decide_True; [reflexivity | split; [now right | assumption]].
    + destruct (decide (i = j)) as [->|Hne].
      * destruct (decide ((j < length B)%nat)) as [Hlt|Hge].
        -- rewrite list_lookup_insert_eq by assumption.
           rewrite decide_True; [reflexivity | split; [left | assumption]].
        -- rewrite list_insert_ge by lia.
           rewrite decide_False; [reflexivity | intros [_ ?]; lia].
      * rewrite list_lookup_insert_ne by assumption.
        rewrite decide_False; [reflexivity|].
        intros [Hin Hlt]. apply Hnot. split; [|assumption].
        inversion Hin; subst; [congruence | assumption].
Qed.

Lemma scatter_const (x : float) (d : nat) (indx : list nat) :
  Permutation indx (seq 0 d) -> scatter d indx (repeat x d) = repeat x d.
Proof.
  intros Hperm. apply list_eq. intros j. unfold scatter.
  rewrite scatter_fold_const
    by (rewrite (Permutation_length Hperm), length_seq; lia).
  rewrite repeat_length.
  destruct (decide ((j < d)%nat)) as [Hlt|Hge].
  - rewrite decide_True, lookup_repeat_lt; [reflexivity | assumption |].
    split; [|assumption]. rewrite Hperm. apply elem_of_seq. lia.
  - rewrite decide_False by (intros [_ ?]; lia).
    now rewrite !lookup_repeat_ge by lia.
Qed.

Lemma reshape_F_const (x : float) (d1 d2 : nat) :
  reshape_F (repeat x (d1 * d2)) d1 d2 = repeat (repeat x d2) d1.
Proof.
  unfold reshape_F. apply map_seq_const. intros r Hr.
  apply map_seq_const. intros c Hc. apply nth_repeat_lt. nia.
Qed.

(** Lines 374-379 on a column of zeros: the squares and their running
    sums are zero, the division by the total is [0 / 0] at every pixel. *)
Lemma energy_map_zero_column A d nr d1 d2 i :
  argsort_permutes -> (0 < d)%nat -> (d1 * d2 = d)%nat ->
  column A d nr i = repeat 0%float d ->
  energy_map A d nr d1 d2 i = Ok (nan_grid d1 d2).
Proof.
  intros Hsort Hd Hgrid Hcol. unfold energy_map. rewrite Hcol.
  pose proof (Hsort (repeat 0%float d)) as Hperm.
  rewrite repeat_length in Hperm.
  assert (Hrev : Permutation (rev (np_argsort (repeat 0%float d))) (seq 0 d))
    by now rewrite <- Permutation_rev.
  rewrite squares_of_zeros, np_cumsum_zeros.
  rewrite (Permutation_length Hrev), length_seq.
  destruct d as [|d']; [lia|].
  replace (last (repeat 0%float (S d'))) with (Some 0%float).
  2:{ symmetry. apply last_Some. exists (repeat 0%float d').
      now rewrite <- repeat_cons. }
  assert (Hdiv : map (fun x => (x / 0)%float) (repeat 0%float (S d'))
                 = repeat nan (S d')).
  { generalize (S d'). intros n. induction n as [|n IH]; simpl;
      [reflexivity | now rewrite IH]. }
  rewrite Hdiv, scatter_const by assumption.
  apply Nat.eqb_eq in Hgrid as Hg. rewrite Hg. rewrite <- Hgrid.
  now rewrite reshape_F_const.
Qed.

(** C6: a component whose energy map the tracer reports no line on gets
    the placeholder of three points at the origin, and the call succeeds.
    The energy map of an all-zero column is the grid of NaN ([0 / 0], no
    exception), so such a column gets the placeholder when the tracer
    reports nothing on that grid. *)
Theorem degenerate_component_gets_placeholder (A : ndarray)
  (d m d1 d2 : nat) (thr : float) (i : nat) :
  shape A = [d; m] -> argsort_permutes -> (0 < d)%nat -> (d1 * d2 = d)%nat ->
  (i < m)%nat ->
  (forall Bmat,
     energy_map A d m d1 d2 i = Ok Bmat ->
     cntr_trace (mgrid_y d1 d2) (mgrid_x d1 d2) Bmat thr = [] ->
     exists polys,
       contour A d1 d2 thr = Ok polys /\ polys !! i = Some placeholder)
  /\ (column A d m i = repeat 0%float d ->
      energy_map A d m d1 d2 i = Ok (nan_grid d1 d2)
      /\ (cntr_trace (mgrid_y d1 d2) (mgrid_x d1 d2) (nan_grid d1 d2) thr = []
          -> exists polys,
               contour A d1 d2 thr = Ok polys
               /\ polys !! i = Some placeholder))
  /\ placeholder = [[0; 0; 0]; [0; 0; 0]; [0; 0; 0]]%float.
Proof.
  intros Hsh Hsort Hd Hgrid Hi.
  destruct (contour_polygons A d m d1 d2 thr Hsh Hsort Hd Hgrid)
    as (polys & Hrun & _ & Hith & _).
  destruct (Hith i Hi) as (Bmat & EB & Hp).
  assert (Hnone : forall B, energy_map A d m d1 d2 i = Ok B ->
            cntr_trace (mgrid_y d1 d2) (mgrid_x d1 d2) B thr = [] ->
            exists polys,
              contour A d1 d2 thr = Ok polys /\ polys !! i = Some placeholder).
  { intros B HB Htr. exists polys. split; [assumption|].
    rewrite Hp. rewrite EB in HB. injection HB as ->.
    now rewrite Htr. }
  split; [exact Hnone|]. split; [|reflexivity].
  intros Hcol.
  pose proof (energy_map_zero_column A d m d1 d2 i Hsort Hd Hgrid Hcol) as Hz.
  split; [assumption|]. intros Htr. exact (Hnone _ Hz Htr).
Qed.

End Contour.

(** ** The contour extractor on the small arrays *)



Lemma degenerate_component_gets_placeholder_witness :
  exists polys,
    @contour toy toy_components 2 2 thr_contour = Ok polys
    /\ polys !! 1%nat = Some placeholder.
Proof.
  destruct (@degenerate_component_gets_placeholder toy toy_components 4 3 2 2
              thr_contour 1 eq_refl toy_argsort_permutes ltac:(lia) eq_refl
              ltac:(lia))
    as (_ & Hzero & _).
  destruct Hzero as [_ Hp]; [vm_compute; reflexivity|].
  apply Hp. vm_compute. reflexivity.
Defined.

(** ** The orchestrators *)

Lemma bind_np_load {B} (p : string) (k : ndarray -> M B) w :
  bind (np_load p) k w = match fs w !! p with
                         | Some (Npy a) => k a w
                         | _ => (Raise IOError, w)
                         end.
Proof.
  unfold np_load, bind, get_fs, ret, raise.
  now destruct (fs w !! p) as [[]|].
Qed.

Lemma bind_np_save {B} (p : string) (a : ndarray) (k : unit -> M B) w :
  bind (np_save p a) k w
  = k tt (World (<[npy_name p := Npy a]> (fs w))
                (calls w ++ [c_np_save (npy_name p)])).
Proof. reflexivity. Qed.

Lemma bind_ret {A B} (a : A) (k : A -> M B) w : bind (ret a) k w = k a w.
Proof. reflexivity. Qed.

Lemma bind_bind {A B C} (m : M A) (f : A -> M B) (g : B -> M C) w :
  bind (bind m f) g w = bind m (fun a => bind (f a) g) w.
Proof. unfold bind. destruct (m w) as [[a|e] w1]; reflexivity. Qed.

Lemma bind_raise {A B} (e : exn) (k : A -> M B) w :
  bind (raise e) k w = (Raise e, w).
Proof. reflexivity. Qed.

Lemma bind_lift_Ok {A B} (a : A) (k : A -> M B) w :
  bind (lift (Ok a)) k w = k a w.
Proof. reflexivity. Qed.

Lemma bind_savemat {B} (fn : string) (r : bundle) (k : unit -> M B) w :
  exists d, bind (savemat fn r) k w
            = k tt (World (<[fn := Mat d]> (fs w)) (calls w ++ [c_savemat fn])).
Proof. eexists. reflexivity. Qed.

(** One step of a run held in hypothesis [H]: a call is logged, a pure
    result is examined, a file is looked up. *)
Ltac run_step H :=
  first
    [ rewrite bind_bind in H
    | match type of H with
      | bind (if ?b then _ else _) _ _ = _ =>
          let Eb := fresh "Eb" in destruct b eqn:Eb
      end
    | rewrite bind_trace in H
    | rewrite bind_raise in H
    | rewrite bind_ret in H
    | rewrite bind_get_fs in H
    | rewrite bind_exists in H
    | rewrite bind_np_save in H
    | rewrite bind_lift_Ok in H
    | let d := fresh "d" in let Es := fresh "Es" in
      match type of H with
      | bind (savemat ?fn ?r) ?k ?w = _ =>
          destruct (bind_savemat fn r k w) as [d Es]; rewrite Es in H; clear Es
      end
    | rewrite bind_lift in H;
      match type of H with
      | match ?r with _ => _ end = _ =>
          let E := fresh "E" in destruct r eqn:E
      end
    | rewrite bind_np_load in H;
      match type of H with
      | match ?o with _ => _ end = _ =>
          let E := fresh "E" in destruct o as [[]|] eqn:E
      end
    | match type of H with
      | context [let (_, _) := ?x in _] => destruct x
      end ];
  cbn [fs calls] in H.

(** A finished run: what was returned and the calls it added. *)
Ltac run_done H :=
  injection H as <- <-; cbn [fs calls];
  rewrite <- ?app_assoc; cbn [app];
  eexists; split; [first [reflexivity | symmetry; apply app_nil_r]|].

Section Orchestration.
Context `{Collaborators}.
Variable cpu : Z.


Lemma patched_stages_calls hd Y d1 d2 T p n w res w1 :
  patched_stages cpu hd Y d1 d2 T p n w = (res, w1) ->
  exists l,
    calls w1 = calls w ++ l
    /\ stages l `prefix_of` patched_order
    /\ (merge_caps l = [] \/ merge_caps l = [VInf])
    /\ (forall b, res = Ok b ->
          stages l = patched_order /\ merge_caps l = [VInf]
          /\ exists K K',
               patch_K cpu n = Ok K
               /\ setparms l = [(NCPUS cpu, K); (NCPUS cpu, K')]).
Proof.
  intros Hrun. unfold patched_stages in Hrun. cbv zeta in Hrun.
  repeat run_step Hrun.
  all: unfold ret in Hrun.
  all: run_done Hrun.
  all: split; [now eexists|].
  all: split; [first [left; reflexivity | right; reflexivity]|].
  all: intros b0 Hb; try discriminate Hb.
  split; [reflexivity|]. split; [reflexivity|].
  do 2 eexists. split; reflexivity.
Qed.

Lemma lookup_key_Ok (d : gmap string ndarray) k a :
  lookup_key d k = Ok a -> d !! k = Some a.
Proof. unfold lookup_key. destruct (d !! k); congruence. Qed.

Lemma load_bundle_calls fn w res w1 :
  load_bundle fn w = (res, w1) ->
  fs w1 = fs w
  /\ calls w1 = calls w ++ [c_loadmat fn]
  /\ (forall b, res = Ok b ->
        exists d, fs w !! fn = Some (Mat d)
                  /\ d !! "A" = Some (b_A b) /\ d !! "C" = Some (b_C b)
                  /\ d !! "YrA" = Some (b_YrA b) /\ d !! "S" = Some (b_S b)
                  /\ d !! "bl" = Some (b_bl b)).
Proof.
  intros Hrun. unfold load_bundle, loadmat in Hrun.
  repeat run_step Hrun.
  destruct (fs w !! fn) as [[ | | |d]|] eqn:Efn.
  all: repeat run_step Hrun.
  all: unfold ret in Hrun; injection Hrun as <- <-; cbn [fs calls].
  all: split; [reflexivity|]; split; [reflexivity|]; intros b0 Hb.
  all: first [discriminate Hb | injection Hb as <-].
  exists d. cbn [b_A b_C b_YrA b_S b_bl].
  repeat split; try reflexivity; now apply lookup_key_Ok.
Qed.

Lemma open_cache_calls hd mask w res w1 :
  open_cache hd mask w = (res, w1) ->
  exists l,
    calls w1 = calls w ++ l /\ quiet l
    /\ fs w1 !! (dirname_comp hd +:+ "_cnmf.mat")
       = fs w !! (dirname_comp hd +:+ "_cnmf.mat")
    /\ (forall Y dims, res = Ok (Y, dims) -> shape3 Y = Ok dims).
Proof.
  intros Hrun. unfold open_cache in Hrun.
  destruct (tiffs_to_cnmf_cases hd mask false w)
    as [(_ & _ & E) | [(_ & e & E) | (_ & Y0 & Yr0 & E)]].
  - rewrite (bind_Ok _ _ _ _ _ E) in Hrun. repeat run_step Hrun.
    all: unfold ret, raise in Hrun; injection Hrun as <- <-.
    all: exists []; rewrite app_nil_r.
    all: repeat split; try reflexivity.
    all: intros Y' dims' [=]; congruence.
  - rewrite (bind_Raise _ _ _ _ _ E) in Hrun. injection Hrun as <- <-.
    exists []. rewrite app_nil_r. repeat split; try reflexivity.
    intros Y' dims' [=].
  - rewrite (bind_Ok _ _ _ _ _ E) in Hrun. repeat run_step Hrun.
    all: unfold ret, raise in Hrun; injection Hrun as <- <-; cbn [fs calls].
    all: eexists; split; [reflexivity|].
    all: split; [repeat split; reflexivity|].
    all: split;
      [rewrite !lookup_insert_ne by (apply suffix_ne; discriminate);
       reflexivity|].
    all: intros Y' dims' [=]; congruence.
Qed.

Lemma finish_calls hd r Y d1 d2 w res w1 :
  finish hd r Y d1 d2 w = (res, w1) ->
  exists l,
    calls w1 = calls w ++ l /\ quiet l
    /\ (forall out, res = Ok out ->
          exists polys zproj,
            contour (b_A r) d1 d2 thr_contour = Ok polys
            /\ out = (ROIList (map MkROI polys), b_C r, zproj, b_S r, Y,
                      b_YrA r)).
Proof.
  intros Hrun. unfold finish, projection, order_and_outline in Hrun.
  cbv zeta in Hrun.
  repeat run_step Hrun.
  all: unfold ret, raise in Hrun.
  all: run_done Hrun.
  all: split; [repeat split; reflexivity|].
  all: intros out Hout; first [discriminate Hout | injection Hout as <-].
  all: do 2 eexists; split; reflexivity.
Qed.

Lemma process_data_orchestrate hd mask p n :
  process_data cpu hd mask p n
  = orchestrate (fun hd Y d1 d2 _ => whole_frame_stages cpu hd Y d1 d2 p n)
                hd mask.
Proof. reflexivity. Qed.

Lemma process_data_patches_orchestrate hd mask p n :
  process_data_patches cpu hd mask p n
  = orchestrate (fun hd Y d1 d2 T => patched_stages cpu hd Y d1 d2 T p n)
                hd mask.
Proof. reflexivity. Qed.

(** A run of an orchestrator, cut at its three parts: the cache, the
    bundle (computed or loaded), the tail. *)
Lemma orchestrate_cases numeric hd mask w res w' :
  orchestrate numeric hd mask w = (res, w') ->
  let fn := dirname_comp hd +:+ "_cnmf.mat" in
  exists l0 w1,
    calls w1 = calls w ++ l0 /\ quiet l0 /\ fs w1 !! fn = fs w !! fn
    /\ ((exists e, res = Raise e /\ w' = w1)
        \/ exists Y d1 d2 T rb w2,
             shape3 Y = Ok (d1, d2, T)
             /\ (if bool_decide (is_Some (fs w !! fn))
                 then load_bundle fn w1 else numeric hd Y d1 d2 T w1)
                = (rb, w2)
             /\ ((exists e, rb = Raise e /\ res = Raise e /\ w' = w2)
                 \/ exists r l2,
                      rb = Ok r /\ calls w' = calls w2 ++ l2 /\ quiet l2
                      /\ forall out, res = Ok out ->
                           exists polys zproj,
                             contour (b_A r) d1 d2 thr_contour = Ok polys
                             /\ out = (ROIList (map MkROI polys), b_C r,
                                       zproj, b_S r, Y, b_YrA r))).
Proof.
  intros Hrun fn. unfold orchestrate in Hrun. cbv zeta in Hrun. fold fn in Hrun.
  destruct (open_cache hd mask w) as [[[Y [[d1 d2] T]]|e] w1] eqn:Ecache.
  - destruct (open_cache_calls hd mask w _ _ Ecache) as (l0 & Hl0 & Hq & Hfs & Hsh).
    fold fn in Hfs.
    exists l0, w1. repeat (split; [assumption|]). right.
    rewrite (bind_Ok _ _ _ _ _ Ecache), bind_exists, Hfs in Hrun.
    exists Y, d1, d2, T.
    destruct (bool_decide (is_Some (fs w !! fn))); cbn [negb] in Hrun.
    + destruct (load_bundle fn w1) as [[r|e] w2] eqn:Eb.
      * exists (Ok r), w2. split; [now apply Hsh|]. split; [reflexivity|].
        right. rewrite (bind_Ok _ _ _ _ _ Eb) in Hrun.
        destruct (finish_calls hd r Y d1 d2 w2 _ _ Hrun) as (l2 & ? & ? & ?).
        exists r, l2. auto.
      * exists (Raise e), w2. split; [now apply Hsh|]. split; [reflexivity|].
        left. rewrite (bind_Raise _ _ _ _ _ Eb) in Hrun.
        injection Hrun as <- <-. eauto.
    + destruct (numeric hd Y d1 d2 T w1) as [[r|e] w2] eqn:Eb.
      * exists (Ok r), w2. split; [now apply Hsh|]. split; [reflexivity|].
        right. rewrite (bind_Ok _ _ _ _ _ Eb) in Hrun.
        destruct (finish_calls hd r Y d1 d2 w2 _ _ Hrun) as (l2 & ? & ? & ?).
        exists r, l2. auto.
      * exists (Raise e), w2. split; [now apply Hsh|]. split; [reflexivity|].
        left. rewrite (bind_Raise _ _ _ _ _ Eb) in Hrun.
        injection Hrun as <- <-. eauto.
  - destruct (open_cache_calls hd mask w _ _ Ecache) as (l0 & Hl0 & Hq & Hfs & _).
    exists l0, w1. repeat (split; [assumption|]). left.
    rewrite (bind_Raise _ _ _ _ _ Ecache) in Hrun. injection Hrun as <- <-.
    eauto.
Qed.

Lemma stages_app l1 l2 : stages (l1 ++ l2) = stages l1 ++ stages l2.
Proof. apply omap_app. Qed.

Lemma merge_caps_app l1 l2 :
  merge_caps (l1 ++ l2) = merge_caps l1 ++ merge_caps l2.
Proof. apply omap_app. Qed.

Lemma setparms_app l1 l2 : setparms (l1 ++ l2) = setparms l1 ++ setparms l2.
Proof. apply omap_app. Qed.

(** The calls of a whole run, observed through [stages], [merge_caps] or
    [setparms]: the quiet parts vanish. *)
Ltac observe :=
  repeat match goal with
         | E : calls _ = _ ++ _ |- _ => rewrite E; clear E
         end;
  rewrite ?stages_app, ?merge_caps_app, ?setparms_app;
  repeat match goal with
         | Hq : quiet _ |- _ =>
             let Hs := fresh in let Hm := fresh in let Hp := fresh in
             destruct Hq as (Hs & Hm & Hp); rewrite ?Hs, ?Hm, ?Hp;
             clear Hs Hm Hp
         end;
  rewrite ?app_nil_r; cbn [app].




(** C10: the patched orchestrator asks [CNMFSetParms] first for
    [NCPUS = cpu_count / 2] workers and [K = int(nrois_init/NCPUS/2.0)]
    components per patch; with the same dataset, mask and [nrois_init =
    400] that is 100 with 4 CPUs and 50 with 8. *)
Theorem patch_target_depends_on_cpus (hd : dataset)
  (mask : option (list bool)) (p n : Z) (w : world) (out : output)
  (w' : world) :
  fs w !! (dirname_comp hd +:+ "_cnmf.mat") = None ->
  process_data_patches cpu hd mask p n w = (Ok out, w') ->
  (exists K K',
     patch_K cpu n = Ok K
     /\ setparms (calls w')
        = setparms (calls w) ++ [(NCPUS cpu, K); (NCPUS cpu, K')])
  /\ NCPUS cpu = cpu / 2
  /\ patch_K 4 400 = Ok 100 /\ patch_K 8 400 = Ok 50.
Proof.
  intros Hno Hrun. rewrite process_data_patches_orchestrate in Hrun.
  split; [|repeat split; vm_compute; reflexivity].
  destruct (orchestrate_cases _ _ _ _ _ _ Hrun)
    as (l0 & w1 & Hl0 & Hq0 & _ & Hcase).
  rewrite Hno, bool_decide_eq_false_2 in Hcase by now intros [? ?].
  destruct Hcase as [(e & [=] & _) | (Y & d1 & d2 & T & rb & w2 & _ & Hnum & Hcase)].
  destruct (patched_stages_calls _ _ _ _ _ _ _ _ _ _ Hnum)
    as (ln & Hln & _ & _ & Hok).
  destruct Hcase as [(e & _ & [=] & _) | (r & l2 & -> & Hl2 & Hq2 & _)].
  destruct (Hok r eq_refl) as (_ & _ & K & K' & HK & Hset).
  exists K, K'. split; [assumption|].
  observe. now rewrite Hset.
Qed.

End Orchestration.

(** ** The orchestrators on the small recording *)




Lemma patch_target_depends_on_cpus_witness :
  exists K', setparms (calls (snd toy_patched_run)) = [(2, 100); (2, K')].
Proof.
  assert (Hno : fs toy_world !! (dirname_comp toy_dataset +:+ "_cnmf.mat")
                = None) by (vm_compute; reflexivity).
  destruct toy_patched_run as [[out|e] w0] eqn:E;
    [|vm_compute in E; discriminate].
  destruct (@patch_target_depends_on_cpus toy 4 toy_dataset None 2 400
              toy_world out w0 Hno E)
    as ((K & K' & HK & Hset) & _).
  vm_compute in HK. injection HK as <-.
  exists K'. exact Hset.
Defined.

(** C2 on the recording: [order_components] is called on the stored [A]
    and [C] and hands back the components in reverse order, yet the traces
    [process_data] returns are the rows that went in, one per frame in
    recording order, and the ROIs are the polygons of the columns that
    went in. *)
Theorem process_data_returns_unordered :
  let C2 := NdArray [3; 4]%nat
              (map float_of_int [2; 1; 1; 1;  0; 0; 0; 0;  1; 2; 3; 4]) in
  let C_or := NdArray [3; 4]%nat
                (map float_of_int [1; 2; 3; 4;  0; 0; 0; 0;  2; 1; 1; 1]) in
  stored (snd toy_run) "rec_cnmf.mat" "A" = Some toy_components
  /\ stored (snd toy_run) "rec_cnmf.mat" "C" = Some C2
  /\ @cse_order_components toy toy_components C2
     = Ok (toy_reverse_cols toy_components, C_or, nd_empty)
  /\ last (calls (snd toy_run)) = Some c_stop_server
  /\ c_order_components ∈ calls (snd toy_run)
  /\ traces_of (fst toy_run) = Some C2
  /\ traces_of (fst toy_run) <> Some C_or
  /\ match @contour toy toy_components 2 2 thr_contour with
     | Ok polys => rois_of (fst toy_run) = Some (ROIList (map MkROI polys))
     | Raise _ => False
     end.
Proof.
  intros C2 C_or.
  assert (Htr : traces_of (fst toy_run) = Some C2) by (vm_compute; reflexivity).
  repeat split; try exact Htr; try (vm_compute; reflexivity).
  - apply list_elem_of_In. vm_compute. tauto.
  - rewrite Htr. intros [=].
Qed.

(** * Further properties *)

(** ** The array cache *)

Lemma kept_of_zip_sublist (l : list string) (k : list bool) :
  sublist (map fst (filter (fun fm : string * bool => negb (snd fm)) (zip l k)))
          l.
Proof.
  revert k. induction l as [|x l IH]; intros [|b k]; simpl;
    try apply sublist_nil_l.
  destruct b.
  - rewrite filter_cons_False by (simpl; auto). apply sublist_cons, IH.
  - rewrite filter_cons_True by (simpl; auto). simpl. apply sublist_skip, IH.
Qed.

Lemma kept_of_zip_count (l : list string) (k : list bool) :
  length (map fst (filter (fun fm : string * bool => negb (snd fm)) (zip l k)))
  = length (filter (fun b : bool => negb b) (take (length l) k)).
Proof.
  revert k. induction l as [|x l IH]; intros [|b k]; simpl; try reflexivity.
  destruct b.
  - rewrite !filter_cons_False by (simpl; auto). apply IH.
  - rewrite !filter_cons_True by (simpl; auto). simpl. f_equal. apply IH.
Qed.

Lemma no_false_in_trues (n : nat) :
  filter (fun b : bool => negb b) (repeat true n) = [].
Proof.
  induction n as [|n IH]; simpl; [reflexivity|].
  now rewrite filter_cons_False by (simpl; auto).
Qed.

(** X1: the files read under a mask are a sub-sequence of the file list
    in its order; their number is the number of [false] entries among the
    first N entries of the mask; whatever the mask holds beyond the N-th
    entry is ignored. *)
Theorem kept_filenames_of_mask (fns : list string) (m : list bool) :
  sublist (kept_filenames fns (Some m)) fns
  /\ length (kept_filenames fns (Some m))
     = length (filter (fun b : bool => negb b) (take (length fns) m))
  /\ kept_filenames fns (Some m)
     = kept_filenames fns (Some (take (length fns) m)).
Proof.
  unfold kept_filenames. split; [apply kept_of_zip_sublist|]. split.
  - rewrite kept_of_zip_count. unfold mask_full.
    destruct (Nat.ltb_spec (length m) (length fns)) as [Hlt|Hge];
      [|reflexivity].
    rewrite take_ge by (rewrite length_app, repeat_length; lia).
    rewrite filter_app, no_false_in_trues, app_nil_r.
    now rewrite take_ge by lia.
  - destruct (Nat.ltb_spec (length m) (length fns)) as [Hlt|Hge].
    + now rewrite take_ge by lia.
    + rewrite (mask_full_fits fns m) by lia.
      rewrite mask_full_fits by (rewrite length_take; lia).
      now rewrite zip_with_take_r.
Qed.

Section CacheMore.
Context `{Collaborators}.

(** X2: a call of [tiffs_to_cnmf] that raises has written nothing: the
    frames are read, indexed, transposed and reshaped before the first
    [np.save], so the files and the call log are as they were found. *)
Theorem failed_conversion_writes_nothing (hd : dataset)
  (mask : option (list bool)) (force : bool) (w w' : world) (e : exn) :
  tiffs_to_cnmf hd mask force w = (Raise e, w') -> w' = w.
Proof.
  intros Hrun.
  destruct (tiffs_to_cnmf_cases hd mask force w)
    as [(_ & _ & E) | [(_ & e' & E) | (_ & Y & Yr & E)]];
    rewrite E in Hrun; congruence.
Qed.

(** X3: the cache is idempotent: after a call that returned, a second
    unforced call, with any mask, returns at once and changes neither the
    files nor the call log. *)
Theorem second_conversion_is_skipped (hd : dataset)
  (mask mask' : option (list bool)) (force : bool) (w w' : world) :
  tiffs_to_cnmf hd mask force w = (Ok tt, w') ->
  tiffs_to_cnmf hd mask' false w' = (Ok tt, w').
Proof.
  intros Hrun. rewrite tiffs_to_cnmf_guard.
  rewrite bool_decide_eq_true_2; [reflexivity|].
  destruct (tiffs_to_cnmf_cases hd mask force w)
    as [(Hex & _ & E) | [(_ & e' & E) | (_ & Y & Yr & E)]];
    rewrite E in Hrun; try discriminate; injection Hrun as <-.
  - assumption.
  - cbn [fs]. apply lookup_insert_is_Some.
    destruct (decide (dirname_comp hd +:+ "_Yr.npy"
                      = dirname_comp hd +:+ "_Y.npy")); [now left|].
    right. split; [assumption|]. rewrite lookup_insert_eq. eauto.
Qed.

End CacheMore.

(** *** The raw binary path *)

Lemma length_chunks (n k : nat) (l : list float) : length (chunks n k l) = k.
Proof.
  revert l. induction k as [|k IH]; intros l; simpl; [|rewrite IH]; reflexivity.
Qed.

Lemma chunks_seq (n k s : nat) (l : list float) :
  chunks n k (drop (s * n) l)
  = map (fun t => take n (drop (t * n) l)) (seq s k).
Proof.
  revert s. induction k as [|k IH]; intros s; simpl; [reflexivity|].
  f_equal. rewrite drop_drop.
  replace (s * n + n)%nat with (S s * n)%nat by lia. apply IH.
Qed.

Lemma select_negb_length {A} (m : list bool) (l : list A) :
  length l = length m ->
  length (select (map negb m) l) = length (filter (fun b : bool => negb b) m).
Proof.
  revert l. induction m as [|b m IH]; intros [|x l] Hlen;
    cbn [length] in Hlen; try reflexivity; try discriminate.
  destruct b; cbn [map negb select].
  - rewrite filter_cons_False by (simpl; auto). apply IH. lia.
  - rewrite filter_cons_True by (simpl; auto). cbn [length]. f_equal.
    apply IH. lia.
Qed.

Lemma filter_ext_in {A} (P Q : A -> Prop) `{forall x, Decision (P x)}
  `{forall x, Decision (Q x)} (l : list A) :
  (forall x, x ∈ l -> P x <-> Q x) -> filter P l = filter Q l.
Proof.
  induction l as [|x l IH]; intros Hext; [reflexivity|].
  assert (Hl : filter P l = filter Q l).
  { apply IH. intros y Hy. apply Hext. now right. }
  destruct (decide (P x)) as [HP|HP].
  - assert (HQ : Q x) by (apply Hext; [left | assumption]).
    rewrite (filter_cons_True P), (filter_cons_True Q) by assumption.
    now rewrite Hl.
  - assert (HQ : ~ Q x) by (intros HQ; apply HP, Hext; [left | assumption]).
    rewrite (filter_cons_False P), (filter_cons_False Q) by assumption.
    exact Hl.
Qed.

Lemma select_negb_seq {A} (f : nat -> A) (m : list bool) (s : nat) :
  select (map negb m) (map f (seq s (length m)))
  = map f (filter (fun t => m !! (t - s)%nat = Some false) (seq s (length m))).
Proof.
  revert s. induction m as [|b m IH]; intros s; [reflexivity|].
  cbn [length seq map select].
  assert (Hrest : filter (fun t => (b :: m) !! (t - s)%nat = Some false)
                         (seq (S s) (length m))
                  = filter (fun t => m !! (t - S s)%nat = Some false)
                           (seq (S s) (length m))).
  { apply filter_ext_in. intros t Ht. apply elem_of_seq in Ht.
    replace (t - s)%nat with (S (t - S s)) by lia. reflexivity. }
  destruct b; cbn [negb].
  - rewrite filter_cons_False by (rewrite Nat.sub_diag; simpl; congruence).
    rewrite Hrest. apply IH.
  - rewrite filter_cons_True by (rewrite Nat.sub_diag; reflexivity).
    rewrite Hrest. cbn [map]. f_equal. apply IH.
Qed.

Lemma concat_map_bind {A B} (f : A -> list B) (l : list A) :
  concat (map f l) = l ≫= f.
Proof.
  induction l as [|x l IH]; [reflexivity|].
  cbn [map concat]. now rewrite bind_cons, IH.
Qed.

Section RawPath.
Context `{Collaborators}.

(** X4: on the raw binary path, with a mask of one entry per frame, the
    stack that is cached is made of the frames whose mask entry is false,
    in recording order, each rounded to single precision; their number is
    the number of false entries. *)
Theorem raw_path_keeps_unmasked_frames (hd : dataset) (m : list bool)
  (w : world) (rf : string) (raw : ndarray) (T d1 d2 : nat) :
  rawfile hd = Some rf -> is_Some (fs w !! rf) ->
  haussio_read_raw (fs w) hd = Ok raw ->
  shape (np_squeeze raw) = [T; d1; d2] ->
  length m = T ->
  exists stack,
    load_frames hd (Some m) w = (Ok stack, w)
    /\ shape stack = [length (filter (fun b : bool => negb b) m); d1; d2]
    /\ data stack
       = (t ← filter (fun t => m !! t = Some false) (seq 0 T);
          take (d1 * d2) (drop (t * (d1 * d2)) (map float32 (data raw)))).
Proof.
  intros Hrf Hex Hraw Hsh Hlen.
  rewrite (load_frames_raw hd (Some m) w rf raw Hrf Hex Hraw).
  cbn [np_invert]. unfold np_index_frames.
  cbn [astype_float32 shape data]. rewrite Hsh, length_map, Hlen, Nat.eqb_refl.
  eexists. split; [reflexivity|]. cbn [shape data]. split.
  - rewrite select_negb_length; [reflexivity|].
    now rewrite length_chunks.
  - cbn [np_squeeze data].
    pose proof (chunks_seq (d1 * d2) T 0 (map float32 (data raw))) as Hch.
    rewrite Nat.mul_0_l, drop_0 in Hch. rewrite Hch. subst T.
    rewrite select_negb_seq, concat_map_bind. f_equal.
    apply filter_ext_in. intros t _. now rewrite Nat.sub_0_r.
Qed.

(** X5: a raw recording of a single frame cannot be converted.
    [squeeze()] drops every axis of length one, the frame axis of a
    [(1, d1, d2)] recording included, and the three-index selection
    [[np.invert(mask), :, :]] on what is left raises [IndexError],
    whatever the mask; nothing is written. *)
Theorem raw_single_frame_fails (hd : dataset) (m : list bool) (force : bool)
  (w : world) (rf : string) (raw : ndarray) (d1 d2 : nat) :
  rawfile hd = Some rf -> is_Some (fs w !! rf) ->
  haussio_read_raw (fs w) hd = Ok raw ->
  shape raw = [1%nat; d1; d2] ->
  (length (shape (np_squeeze raw)) <= 2)%nat
  /\ load_frames hd (Some m) w = (Raise IndexError, w)
  /\ (fs w !! (dirname_comp hd +:+ "_Y.npy") = None \/ force = true ->
      tiffs_to_cnmf hd (Some m) force w = (Raise IndexError, w)).
Proof.
  intros Hrf Hex Hraw Hsh.
  assert (Hlen : (length (shape (np_squeeze raw)) <= 2)%nat).
  { unfold np_squeeze. cbn [shape]. rewrite Hsh.
    rewrite filter_cons_False by (intros Hne; now apply Hne).
    etransitivity; [apply length_filter | reflexivity]. }
  assert (Hload : load_frames hd (Some m) w = (Raise IndexError, w)).
  { rewrite (load_frames_raw hd (Some m) w rf raw Hrf Hex Hraw).
    cbn [np_invert]. unfold np_index_frames. cbn [astype_float32 shape].
    destruct (shape (np_squeeze raw)) as [|n0 [|n1 [|n2 [|n3 l]]]];
      try reflexivity; cbn [length] in Hlen; lia. }
  split; [assumption|]. split; [assumption|].
  intros Hc. rewrite tiffs_to_cnmf_guard.
  assert (Hg : negb (bool_decide (is_Some
                 (fs w !! (dirname_comp hd +:+ "_Y.npy")))) || force = true).
  { destruct Hc as [Hn | ->]; [|apply orb_true_r].
    rewrite bool_decide_eq_false_2; [reflexivity|].
    rewrite Hn. now intros [? ?]. }
  rewrite Hg. unfold convert. now rewrite (bind_Raise _ _ _ _ _ Hload).
Qed.

End RawPath.

Section MaskIgnored.
Context `{Collaborators}.

(** X6: once the cube [<name>_Y.npy] is on disk the mask has no effect:
    the orchestrators call [tiffs_to_cnmf] without [force], so both behave
    the same for any two masks. *)
Theorem cached_mask_is_ignored (cpu : Z) (hd : dataset)
  (mask mask' : option (list bool)) (p n : Z) (w : world) :
  is_Some (fs w !! (dirname_comp hd +:+ "_Y.npy")) ->
  tiffs_to_cnmf hd mask false w = (Ok tt, w)
  /\ process_data cpu hd mask p n w = process_data cpu hd mask' p n w
  /\ process_data_patches cpu hd mask p n w
     = process_data_patches cpu hd mask' p n w.
Proof.
  intros Hex.
  assert (Hskip : forall mk, tiffs_to_cnmf hd mk false w = (Ok tt, w)).
  { intros mk. rewrite tiffs_to_cnmf_guard.
    now rewrite bool_decide_eq_true_2 by assumption. }
  assert (Hopen : open_cache hd mask w = open_cache hd mask' w).
  { unfold open_cache. now rewrite !(bind_Ok _ _ _ _ _ (Hskip _)). }
  split; [apply Hskip|].
  unfold process_data, process_data_patches, bind.
  now rewrite Hopen.
Qed.

End MaskIgnored.

(** *** The array cache on the small recording, again *)

Lemma failed_conversion_writes_nothing_witness :
  snd (@tiffs_to_cnmf toy toy_dataset (Some [true; true; true]) false toy_world)
  = toy_world.
Proof.
  apply (@failed_conversion_writes_nothing toy toy_dataset
           (Some [true; true; true]) false toy_world _ ValueError).
  vm_compute. reflexivity.
Defined.

Lemma second_conversion_is_skipped_witness :
  let w' := snd (@tiffs_to_cnmf toy toy_dataset None false toy_world) in
  @tiffs_to_cnmf toy toy_dataset (Some [true]) false w' = (Ok tt, w').
Proof.
  apply (@second_conversion_is_skipped toy toy_dataset None (Some [true]) false
           toy_world).
  vm_compute. reflexivity.
Defined.

Lemma raw_path_keeps_unmasked_frames_witness :
  exists stack,
    @load_frames toy toy_raw_dataset (Some [false; true; false]) toy_raw_world
    = (Ok stack, toy_raw_world)
    /\ shape stack = [2; 2; 2]%nat.
Proof.
  destruct (@raw_path_keeps_unmasked_frames toy toy_raw_dataset
              [false; true; false] toy_raw_world "rec.raw"
              (NdArray [3; 2; 2]%nat
                 (map float_of_int [2; 1; 1; 1; 0; 0; 0; 0; 1; 2; 3; 4]))
              3 2 2 eq_refl)
    as (stack & E & Hs & _);
    [eexists; vm_compute; reflexivity | vm_compute; reflexivity
     | vm_compute; reflexivity | reflexivity |].
  exists stack. split; [exact E | exact Hs].
Defined.

Lemma raw_single_frame_fails_witness :
  @tiffs_to_cnmf toy toy_raw_dataset (Some [false]) false toy_one_frame_world
  = (Raise IndexError, toy_one_frame_world).
Proof.
  refine (proj2 (proj2 (@raw_single_frame_fails toy toy_raw_dataset [false]
            false toy_one_frame_world "rec.raw"
            (NdArray [1%nat; 2%nat; 2%nat] (map float_of_int [2; 1; 1; 1]))
            2 2 eq_refl _ _ eq_refl)) _).
  - eexists. vm_compute. reflexivity.
  - vm_compute. reflexivity.
  - left. vm_compute. reflexivity.
Defined.

Lemma cached_mask_is_ignored_witness :
  @process_data toy 4 toy_dataset None 2 400 toy_half_cache
  = @process_data toy 4 toy_dataset (Some [true; true; true]) 2 400
      toy_half_cache.
Proof.
  apply (@cached_mask_is_ignored toy 4 toy_dataset None
           (Some [true; true; true]) 2 400 toy_half_cache).
  eexists. vm_compute. reflexivity.
Defined.

(** ** The layout of the cached arrays *)

(** A bind over [seq] whose blocks all have [n] elements. *)
Lemma length_bind_blocks {A} (g : nat -> list A) (n : nat) :
  (forall x, length (g x) = n) ->
  forall a s, length (seq s a ≫= g) = (a * n)%nat.
Proof.
  intros Hlen. induction a as [|a IH]; intros s; [reflexivity|].
  rewrite <- cons_seq, bind_cons, length_app, Hlen, IH. lia.
Qed.

Lemma nth_bind_blocks {A} (g : nat -> list A) (n : nat) (d : A) :
  (forall x, length (g x) = n) ->
  forall a s i j, (i < a)%nat -> (j < n)%nat ->
    nth (i * n + j) (seq s a ≫= g) d = nth j (g (s + i)%nat) d.
Proof.
  intros Hlen. induction a as [|a IH]; intros s i j Hi Hj; [lia|].
  rewrite <- cons_seq, bind_cons.
  destruct i as [|i].
  - rewrite Nat.add_0_r. simpl. apply app_nth1. rewrite Hlen. lia.
  - rewrite app_nth2 by (rewrite Hlen; lia). rewrite Hlen.
    replace (S i * n + j - n)%nat with (i * n + j)%nat by lia.
    rewrite IH by lia. do 2 f_equal. lia.
Qed.

Lemma nth_bind_singletons {A} (f : nat -> A) (d : A) (a s t : nat) :
  (t < a)%nat -> nth t (seq s a ≫= fun k => [f k]) d = f (s + t)%nat.
Proof.
  intros Ht.
  pose proof (nth_bind_blocks (fun k => [f k]) 1 d (fun _ => eq_refl)
                a s t 0 Ht ltac:(lia)) as E.
  now rewrite Nat.mul_1_r, Nat.add_0_r in E.
Qed.

(** Three nested binds: the element at [(i, j, k)]. *)
Lemma nth_bind3 {A} (f : nat -> nat -> nat -> A) (d : A) (a b c i j k : nat) :
  (i < a)%nat -> (j < b)%nat -> (k < c)%nat ->
  nth (i * (b * c) + j * c + k)
      (seq 0 a ≫= fun i => seq 0 b ≫= fun j => seq 0 c ≫= fun k => [f i j k]) d
  = f i j k.
Proof.
  intros Hi Hj Hk.
  assert (Hin : forall i j, length (seq 0 c ≫= fun k => [f i j k]) = c).
  { intros i' j'. rewrite (length_bind_blocks _ 1) by reflexivity. lia. }
  assert (Hmid : forall i,
            length (seq 0 b ≫= fun j => seq 0 c ≫= fun k => [f i j k])
            = (b * c)%nat).
  { intros i'. now rewrite (length_bind_blocks _ c) by apply Hin. }
  rewrite <- Nat.add_assoc.
  rewrite (nth_bind_blocks _ (b * c) d Hmid) by nia.
  rewrite (nth_bind_blocks _ c d (Hin _)) by lia.
  now rewrite nth_bind_singletons by lia.
Qed.

Lemma length_bind3 {A} (f : nat -> nat -> nat -> A) (a b c : nat) :
  length (seq 0 a ≫= fun i => seq 0 b ≫= fun j => seq 0 c ≫= fun k => [f i j k])
  = (a * (b * c))%nat.
Proof.
  apply length_bind_blocks. intros i.
  apply length_bind_blocks. intros j.
  rewrite (length_bind_blocks _ 1) by reflexivity. lia.
Qed.

Lemma nth_bind2 {A} (f : nat -> nat -> A) (d : A) (a b i j : nat) :
  (i < a)%nat -> (j < b)%nat ->
  nth (i * b + j) (seq 0 a ≫= fun i => seq 0 b ≫= fun j => [f i j]) d = f i j.
Proof.
  intros Hi Hj.
  assert (Hin : forall i, length (seq 0 b ≫= fun j => [f i j]) = b).
  { intros i'. rewrite (length_bind_blocks _ 1) by reflexivity. lia. }
  rewrite (nth_bind_blocks _ b d Hin) by lia.
  now rewrite nth_bind_singletons by lia.
Qed.

(** [np.transpose(a, (1, 2, 0))] of a [(T, d1, d2)] stack: the cube whose
    element [(r, c, t)] is pixel [(r, c)] of frame [t]. *)
Lemma cube_of_stack (a : ndarray) (T d1 d2 : nat) :
  shape a = [T; d1; d2] ->
  exists Y,
    np_transpose (1, 2, 0)%nat a = Ok Y
    /\ shape Y = [d1; d2; T]
    /\ length (data Y) = (d1 * (d2 * T))%nat
    /\ forall r c t, (r < d1)%nat -> (c < d2)%nat -> (t < T)%nat ->
         nth (r * (d2 * T) + c * T + t) (data Y) 0%float
         = nth (t * (d1 * d2) + r * d2 + c) (data a) 0%float.
Proof.
  intros Hsh. unfold np_transpose. rewrite Hsh. cbn [nth Nat.eqb].
  eexists. split; [reflexivity|]. cbn [shape data].
  split; [reflexivity|]. split; [apply length_bind3|].
  intros r c t Hr Hc Ht.
  rewrite (nth_bind3 (fun i j k => nth (k * d1 * d2 + i * d2 + j)%nat
                                       (data a) 0%float)) by assumption.
  f_equal. lia.
Qed.

(** [np.reshape(Y, (d1*d2, T), order='F')]: row [r + c * d1] of the
    flattened matrix is the time course of pixel [(r, c)]. *)
Lemma matrix_of_cube (Y : ndarray) (T d1 d2 : nat) :
  shape Y = [d1; d2; T] ->
  exists Yr,
    np_reshape_F_pixels Y = Ok Yr
    /\ shape Yr = [(d1 * d2)%nat; T]
    /\ length (data Yr) = (d1 * d2 * T)%nat
    /\ forall r c t, (r < d1)%nat -> (c < d2)%nat -> (t < T)%nat ->
         nth ((r + c * d1) * T + t) (data Yr) 0%float
         = nth (r * (d2 * T) + c * T + t) (data Y) 0%float.
Proof.
  intros Hsh. unfold np_reshape_F_pixels. rewrite Hsh.
  eexists. split; [reflexivity|]. cbn [shape data].
  split; [reflexivity|]. split.
  { rewrite (length_bind_blocks _ T); [reflexivity|]. intros p.
    rewrite (length_bind_blocks _ 1) by reflexivity. lia. }
  intros r c t Hr Hc Ht.
  rewrite (nth_bind2 (fun p t => nth ((p `mod` d1) * d2 * T + (p `div` d1) * T
                                     + t)%nat (data Y) 0%float))
    by (try assumption; nia).
  assert (Hmod : ((r + c * d1) `mod` d1 = r)%nat).
  { rewrite Nat.Div0.mod_add. apply Nat.mod_small. lia. }
  assert (Hdiv : ((r + c * d1) `div` d1 = c)%nat).
  { rewrite Nat.div_add by lia. rewrite Nat.div_small by lia. lia. }
  rewrite Hmod, Hdiv. f_equal. lia.
Qed.

Section Layout.
Context `{Collaborators}.

(** X7: what a conversion leaves on disk.  When the frames read form a
    [(T, d1, d2)] stack, [<name>_Y.npy] holds a [(d1, d2, T)] cube and
    [<name>_Yr.npy] a [(d1*d2, T)] matrix over the same T; pixel [(r, c)]
    of frame [t] is element [(r, c, t)] of the cube and element
    [(r + c*d1, t)] of the matrix (column-major over the two spatial
    axes). *)
Theorem cache_layout (hd : dataset) (mask : option (list bool))
  (force : bool) (w : world) (stack : ndarray) (T d1 d2 : nat) :
  fs w !! (dirname_comp hd +:+ "_Y.npy") = None \/ force = true ->
  load_frames hd mask w = (Ok stack, w) ->
  shape stack = [T; d1; d2] ->
  exists Y Yr w',
    tiffs_to_cnmf hd mask force w = (Ok tt, w')
    /\ fs w' !! (dirname_comp hd +:+ "_Y.npy") = Some (Npy Y)
    /\ fs w' !! (dirname_comp hd +:+ "_Yr.npy") = Some (Npy Yr)
    /\ shape Y = [d1; d2; T]
    /\ shape Yr = [(d1 * d2)%nat; T]
    /\ forall r c t, (r < d1)%nat -> (c < d2)%nat -> (t < T)%nat ->
         nth (r * (d2 * T) + c * T + t) (data Y) 0%float
         = nth (t * (d1 * d2) + r * d2 + c) (data stack) 0%float
         /\ nth ((r + c * d1) * T + t) (data Yr) 0%float
            = nth (t * (d1 * d2) + r * d2 + c) (data stack) 0%float.
Proof.
  intros Hc Hload Hsh.
  destruct (cube_of_stack stack T d1 d2 Hsh) as (Y & EY & HshY & _ & HY).
  destruct (matrix_of_cube Y T d1 d2 HshY) as (Yr & EYr & HshYr & _ & HYr).
  exists Y, Yr. eexists. split.
  { rewrite tiffs_to_cnmf_guard.
    assert (Hg : negb (bool_decide (is_Some
                   (fs w !! (dirname_comp hd +:+ "_Y.npy")))) || force = true).
    { destruct Hc as [Hn | ->]; [|apply orb_true_r].
      rewrite bool_decide_eq_false_2; [reflexivity|].
      rewrite Hn. now intros [? ?]. }
    rewrite Hg. unfold convert.
    rewrite (bind_Ok _ _ _ _ _ Hload), bind_lift, EY, bind_lift, EYr.
    rewrite bind_np_save. unfold np_save, bind, trace, write_file.
    cbn [fs calls]. rewrite npy_name_Y, npy_name_Yr. reflexivity. }
  cbn [fs]. split.
  { rewrite lookup_insert_ne by (apply suffix_ne; discriminate).
    apply lookup_insert_eq. }
  split; [apply lookup_insert_eq|].
  split; [assumption|]. split; [assumption|].
  intros r c t Hr Hcc Ht. split; [now apply HY|].
  rewrite HYr by assumption. now apply HY.
Qed.

End Layout.

(** The inverse of [cube_of_stack], for the projection. *)
Lemma nat_index3 (idx b c : nat) :
  (0 < b * c)%nat ->
  (idx = (idx `div` (b * c)) * (b * c)
         + ((idx `mod` (b * c)) `div` c) * c
         + (idx `mod` (b * c)) `mod` c)%nat.
Proof.
  intros Hbc.
  pose proof (Nat.div_mod_eq idx (b * c)) as E1.
  pose proof (Nat.div_mod_eq (idx `mod` (b * c)) c) as E2.
  lia.
Qed.

(** [np.transpose(., (2, 0, 1))] undoes [np.transpose(., (1, 2, 0))]. *)
Lemma transpose_back (a Y : ndarray) (T d1 d2 : nat) :
  shape a = [T; d1; d2] ->
  length (data a) = (T * (d1 * d2))%nat ->
  np_transpose (1, 2, 0)%nat a = Ok Y ->
  np_transpose (2, 0, 1)%nat Y = Ok a.
Proof.
  intros Hsh Hlen EY.
  destruct (cube_of_stack a T d1 d2 Hsh) as (Y' & EY' & HshY & _ & HY).
  rewrite EY in EY'. injection EY' as <-.
  unfold np_transpose. rewrite HshY. cbn [nth Nat.eqb].
  f_equal. destruct a as [sh dt]. cbn [shape data] in *. subst sh.
  f_equal. apply nth_ext with (d := 0%float) (d' := 0%float).
  { now rewrite length_bind3. }
  rewrite length_bind3. intros idx Hidx.
  assert (Hpos : (0 < d1 * d2)%nat) by nia.
  assert (Hc : (0 < d2)%nat) by nia.
  set (t := (idx `div` (d1 * d2))%nat).
  set (r := ((idx `mod` (d1 * d2)) `div` d2)%nat).
  set (c := ((idx `mod` (d1 * d2)) `mod` d2)%nat).
  assert (Ht : (t < T)%nat).
  { apply Nat.Div0.div_lt_upper_bound. lia. }
  assert (Hr : (r < d1)%nat).
  { apply Nat.Div0.div_lt_upper_bound.
    pose proof (Nat.mod_upper_bound idx (d1 * d2)). lia. }
  assert (Hcc : (c < d2)%nat) by (apply Nat.mod_upper_bound; lia).
  rewrite (nat_index3 idx d1 d2 Hpos). fold t r c.
  rewrite (nth_bind3 (fun i j k => nth (j * d2 * T + k * T + i)%nat
                                       (data Y) 0%float)) by assumption.
  replace (r * d2 * T + c * T + t)%nat with (r * (d2 * T) + c * T + t)%nat
    by lia.
  now rewrite HY by assumption.
Qed.

Section ProjectionStack.
Context `{Collaborators}.

(** X8: the two transpositions of the module undo each other, so the
    projection image is taken over the frames as they were read: with the
    cube [Y] made from the [(T, d1, d2)] stack [a] and no projection on
    disk, [utils.zproject] is called on [a] itself, and its result is
    saved as [<name>_proj.npy] and returned; if it raises, nothing is
    saved. *)
Theorem projection_sees_the_frames (hd : dataset) (a Y : ndarray)
  (T d1 d2 : nat) (w : world) :
  shape a = [T; d1; d2] ->
  length (data a) = (T * (d1 * d2))%nat ->
  np_transpose (1, 2, 0)%nat a = Ok Y ->
  fs w !! (dirname_comp hd +:+ "_proj.npy") = None ->
  np_transpose (2, 0, 1)%nat Y = Ok a
  /\ projection hd Y w
     = match utils_zproject a with
       | Ok z =>
           (Ok z,
            World (<[dirname_comp hd +:+ "_proj.npy" := Npy z]> (fs w))
                  (calls w ++ [c_zproject;
                               c_np_save (dirname_comp hd +:+ "_proj.npy")]))
       | Raise e => (Raise e, World (fs w) (calls w ++ [c_zproject]))
       end.
Proof.
  intros Hsh Hlen EY Hno.
  pose proof (transpose_back a Y T d1 d2 Hsh Hlen EY) as Hback.
  split; [exact Hback|].
  unfold projection. rewrite bind_exists, Hno.
  rewrite bool_decide_eq_false_2 by now intros [? ?].
  cbn [negb]. rewrite bind_lift, Hback, bind_trace, bind_lift.
  destruct (utils_zproject a) as [z|e]; [|reflexivity].
  rewrite bind_np_save, npy_name_proj. cbn [fs calls].
  unfold ret. now rewrite <- app_assoc.
Qed.

End ProjectionStack.

(** *** The layout on the small recording *)

Lemma cache_layout_witness :
  exists Y Yr w',
    @tiffs_to_cnmf toy toy_dataset None false toy_world = (Ok tt, w')
    /\ fs w' !! "rec_Y.npy" = Some (Npy Y)
    /\ fs w' !! "rec_Yr.npy" = Some (Npy Yr)
    /\ shape Y = [2; 2; 3]%nat /\ shape Yr = [4; 3]%nat.
Proof.
  destruct (@cache_layout toy toy_dataset None false toy_world
              (NdArray [3; 2; 2]%nat
                 (map float_of_int [2; 1; 1; 1; 0; 0; 0; 0; 1; 2; 3; 4]))
              3 2 2)
    as (Y & Yr & w' & E & HY & HYr & HsY & HsYr & _);
    [left; vm_compute; reflexivity | vm_compute; reflexivity | reflexivity |].
  exists Y, Yr, w'. auto.
Defined.

Lemma projection_sees_the_frames_witness :
  let a := NdArray [3; 2; 2]%nat
             (map float_of_int [2; 1; 1; 1; 0; 0; 0; 0; 1; 2; 3; 4]) in
  let Y := NdArray [2; 2; 3]%nat
             (map float_of_int [2; 0; 1; 1; 0; 2; 1; 0; 3; 1; 0; 4]) in
  @np_transpose (2, 0, 1)%nat Y = Ok a.
Proof.
  intros a Y.
  apply (@projection_sees_the_frames toy toy_dataset a Y 3 2 2 toy_world);
    vm_compute; reflexivity.
Defined.

(** ** More on the contour extractor *)


Lemma length_scatter_fold (indx : list nat) :
  forall (v B : list float),
    length (fold_left (fun B jv => <[fst jv := snd jv]> B) (zip indx v) B)
    = length B.
Proof.
  induction indx as [|i indx IH]; intros v B; [reflexivity|].
  destruct v as [|x v]; [reflexivity|].
  cbn [zip_with fold_left fst snd]. now rewrite IH, length_insert.
Qed.



Section ContourMore.
Context `{Collaborators}.

Lemma argsort_empty : argsort_permutes -> np_argsort [] = [].
Proof. intros Hsort. apply Permutation_nil_r. exact (Hsort []). Qed.

(** [cumEn[-1]] exists exactly when there is a pixel row. *)
Lemma energy_total (A : ndarray) (d nr i : nat) :
  argsort_permutes -> (0 < d)%nat ->
  let col := column A d nr i in
  exists total,
    last (np_cumsum (map (fun x => (x * x)%float)
                         (gather col (rev (np_argsort col)))))
    = Some total.
Proof.
  intros Hsort Hd col.
  destruct (last _) as [total|] eqn:Hlast; [eauto|].
  exfalso. apply last_None in Hlast. apply (f_equal length) in Hlast.
  rewrite length_np_cumsum, length_map in Hlast.
  unfold gather in Hlast. rewrite length_map, length_rev in Hlast.
  rewrite (Permutation_length (Hsort _)), length_seq in Hlast.
  unfold col in Hlast. rewrite length_column in Hlast. simpl in Hlast. lia.
Qed.

Lemma energy_map_no_pixel (A : ndarray) (nr d1 d2 i : nat) :
  argsort_permutes -> energy_map A 0 nr d1 d2 i = Raise IndexError.
Proof.
  intros Hsort. unfold energy_map, column. cbn [seq map].
  now rewrite (argsort_empty Hsort).
Qed.

Lemma energy_map_wrong_grid (A : ndarray) (d nr d1 d2 i : nat) :
  argsort_permutes -> (0 < d)%nat -> (d1 * d2)%nat <> d ->
  energy_map A d nr d1 d2 i = Raise ValueError.
Proof.
  intros Hsort Hd Hgrid. unfold energy_map.
  destruct (energy_total A d nr i Hsort Hd) as [total ->].
  now destruct (Nat.eqb_spec (d1 * d2) d).
Qed.

Lemma contour_loop_first (step : nat -> result polygon) (m : nat) (e : exn) :
  (0 < m)%nat -> step 0%nat = Raise e ->
  contour_loop step (seq 0 m) = Raise e.
Proof.
  intros Hm Hstep. destruct m as [|m]; [lia|].
  cbn [seq contour_loop]. now rewrite Hstep.
Qed.

(** X9: when [contour] returns and what it raises.  An array that is not
    two-dimensional is a [ValueError]; with no column the result is the
    empty list whatever the other arguments; with a column and no pixel
    row it is the [IndexError] of [cumEn[-1]]; with a column, a pixel row
    and [d1 * d2] different from the row count it is the [ValueError] of
    the reshape.  So, [argsort] being a permutation and the tracer a
    function that returns, [contour] returns exactly when there is no
    column or [d1 * d2] is the positive row count. *)
Theorem contour_error_behaviour (A : ndarray) (d1 d2 : nat) (thr : float) :
  argsort_permutes ->
  ((forall d m, shape A <> [d; m]) -> contour A d1 d2 thr = Raise ValueError)
  /\ forall d m, shape A = [d; m] ->
       (m = 0%nat -> contour A d1 d2 thr = Ok [])
       /\ ((0 < m)%nat -> d = 0%nat -> contour A d1 d2 thr = Raise IndexError)
       /\ ((0 < m)%nat -> (0 < d)%nat -> (d1 * d2)%nat <> d ->
           contour A d1 d2 thr = Raise ValueError)
       /\ ((exists polys, contour A d1 d2 thr = Ok polys)
           <-> m = 0%nat \/ ((0 < d)%nat /\ (d1 * d2)%nat = d)).
Proof.
  intros Hsort. split.
  { intros Hsh. unfold contour.
    destruct (shape A) as [|d [|m [|? ?]]]; try reflexivity.
    now destruct (Hsh d m). }
  intros d m Hsh.
  assert (H0 : m = 0%nat -> contour A d1 d2 thr = Ok []).
  { intros ->. unfold contour. now rewrite Hsh. }
  assert (H1 : (0 < m)%nat -> d = 0%nat ->
               contour A d1 d2 thr = Raise IndexError).
  { intros Hm ->. unfold contour. rewrite Hsh.
    apply contour_loop_first; [assumption|].
    unfold component_polygon. now rewrite energy_map_no_pixel. }
  assert (H2 : (0 < m)%nat -> (0 < d)%nat -> (d1 * d2)%nat <> d ->
               contour A d1 d2 thr = Raise ValueError).
  { intros Hm Hd Hgrid. unfold contour. rewrite Hsh.
    apply contour_loop_first; [assumption|].
    unfold component_polygon. now rewrite energy_map_wrong_grid. }
  repeat (split; [assumption|]). split.
  - intros [polys Hrun].
    destruct (decide (m = 0%nat)) as [|Hm]; [now left | right].
    destruct (decide (d = 0%nat)) as [Hd|Hd].
    { rewrite H1 in Hrun by lia. discriminate. }
    destruct (decide ((d1 * d2)%nat = d)) as [|Hgrid]; [split; [lia|assumption]|].
    rewrite H2 in Hrun by lia. discriminate.
  - intros [-> | [Hd Hgrid]]; [rewrite H0 by reflexivity; eauto|].
    destruct (contour_polygons A d m d1 d2 thr Hsh Hsort Hd Hgrid)
      as (polys & Hrun & _). eauto.
Qed.

(** The polygon of a component is a function of its column. *)
Lemma component_polygon_column (A A' : ndarray) (d m m' d1 d2 : nat)
  (thr : float) (i j : nat) :
  column A' d m' i = column A d m j ->
  component_polygon A' d m' d1 d2 thr i = component_polygon A d m d1 d2 thr j.
Proof.
  intros Hcol. unfold component_polygon, energy_map. now rewrite Hcol.
Qed.

(** X10: the polygons follow the columns.  If every column of [A'] is
    some column [sigma i] of [A] (a selection, a repetition or a
    reordering of the components) and [contour] returns on [A], then it
    returns on [A'] and its i-th polygon is the polygon of column
    [sigma i] of [A]. *)
Theorem contour_follows_the_columns (A A' : ndarray) (d m m' d1 d2 : nat)
  (thr : float) (sigma : nat -> nat) (polys : list polygon) :
  shape A = [d; m] -> shape A' = [d; m'] ->
  (forall i, (i < m')%nat ->
     (sigma i < m)%nat /\ column A' d m' i = column A d m (sigma i)) ->
  contour A d1 d2 thr = Ok polys ->
  exists polys',
    contour A' d1 d2 thr = Ok polys'
    /\ length polys' = m'
    /\ forall i, (i < m')%nat -> polys' !! i = polys !! sigma i.
Proof.
  intros Hsh Hsh' Hcols Hrun. unfold contour in *.
  rewrite Hsh in Hrun. rewrite Hsh'.
  apply contour_loop_Ok in Hrun.
  assert (Hstep : forall i, (i < m')%nat ->
            exists c, polys !! sigma i = Some c
                      /\ component_polygon A' d m' d1 d2 thr i = Ok c).
  { intros i Hi. destruct (Hcols i Hi) as [Hlt Hcol].
    destruct (Forall2_lookup_l _ _ _ (sigma i) (sigma i) Hrun)
      as (c & Hc & Hok); [now apply lookup_seq_lt|].
    exists c. split; [assumption|].
    now rewrite (component_polygon_column A A' d m m' d1 d2 thr i (sigma i)). }
  destruct (contour_loop_total (component_polygon A' d m' d1 d2 thr) (seq 0 m'))
    as [polys' Hrun'].
  { intros i Hi. apply elem_of_seq in Hi.
    destruct (Hstep i) as (c & _ & Hc); [lia | eauto]. }
  exists polys'. split; [assumption|].
  apply contour_loop_Ok in Hrun'.
  pose proof (Forall2_length _ _ _ Hrun') as Hlen. rewrite length_seq in Hlen.
  split; [now symmetry|].
  intros i Hi. destruct (Hstep i Hi) as (c & Hc & Hok).
  destruct (Forall2_lookup_l _ _ _ i i Hrun') as (c' & Hc' & Hok');
    [now apply lookup_seq_lt|].
  rewrite Hc, Hc'. congruence.
Qed.


End ContourMore.

(** *** The contour extractor on the small arrays, again *)

Lemma contour_error_behaviour_witness :
  @contour toy toy_components 3 2 thr_contour = Raise ValueError.
Proof.
  refine (proj1 (proj2 (proj2 (proj2 (@contour_error_behaviour toy
            toy_components 3 2 thr_contour toy_argsort_permutes) 4%nat 3%nat
            eq_refl))) _ _ _); lia.
Defined.

Lemma contour_follows_the_columns_witness :
  exists polys polys',
    @contour toy toy_components 2 2 thr_contour = Ok polys
    /\ @contour toy toy_one_component 2 2 thr_contour = Ok polys'
    /\ polys' !! 0%nat = polys !! 0%nat.
Proof.
  destruct (@contour toy toy_components 2 2 thr_contour) as [polys|e] eqn:E;
    [|vm_compute in E; discriminate].
  destruct (@contour_follows_the_columns toy toy_components toy_one_component
              4 3 1 2 2 thr_contour (fun _ => 0%nat) polys eq_refl eq_refl)
    as (polys' & E' & _ & Hi).
  - intros i Hi. assert (i = 0%nat) as -> by lia.
    split; [lia | vm_compute; reflexivity].
  - exact E.
  - exists polys, polys'. split; [reflexivity|]. split; [exact E'|].
    apply Hi. lia.
Defined.


(** ** More on the orchestrators *)

Lemma kinds_app l1 l2 : kinds (l1 ++ l2) = kinds l1 ++ kinds l2.
Proof. apply map_app. Qed.

Lemma stages_of_kinds l :
  stages l = omap (fun k => match k with KStage s => Some s | _ => None end)
                  (kinds l).
Proof.
  unfold stages, kinds. induction l as [|c l IH]; [reflexivity|].
  destruct c; simpl; first [exact IH | f_equal; exact IH].
Qed.

Lemma setparms_of_kinds l :
  setparms l = omap (fun k => match k with
                              | KSetParms n K _ _ => Some (n, K)
                              | _ => None
                              end) (kinds l).
Proof.
  unfold setparms, kinds. induction l as [|c l IH]; [reflexivity|].
  destruct c; simpl; first [exact IH | f_equal; exact IH].
Qed.

Lemma backend_after_app s l1 l2 :
  backend_after s (l1 ++ l2) = backend_after (backend_after s l1) l2.
Proof. apply fold_left_app. Qed.

Lemma settings_app s l1 l2 : settings s (l1 ++ l2) = settings s l1 ++ settings s l2.
Proof. apply bind_app. Qed.

Lemma bind_savemat_eq {B} (fn : string) (r : bundle) (k : unit -> M B) w :
  bind (savemat fn r) k w
  = k tt (World (<[fn := Mat (bundle_dict r)]> (fs w))
                (calls w ++ [c_savemat fn])).
Proof. reflexivity. Qed.

(** As [run_step], keeping the dictionary that [savemat] writes. *)
Ltac run_step_fs H :=
  first
    [ rewrite bind_bind in H
    | match type of H with
      | bind (if ?b then _ else _) _ _ = _ =>
          let Eb := fresh "Eb" in destruct b eqn:Eb
      end
    | rewrite bind_trace in H
    | rewrite bind_raise in H
    | rewrite bind_ret in H
    | rewrite bind_get_fs in H
    | rewrite bind_exists in H
    | rewrite bind_np_save in H
    | rewrite bind_lift_Ok in H
    | rewrite bind_savemat_eq in H
    | rewrite bind_lift in H;
      match type of H with
      | match ?r with _ => _ end = _ =>
          let E := fresh "E" in destruct r eqn:E
      end
    | rewrite bind_np_load in H;
      match type of H with
      | match ?o with _ => _ end = _ =>
          let E := fresh "E" in destruct o as [[]|] eqn:E
      end
    | match type of H with
      | context [let (_, _) := ?x in _] => destruct x
      end ];
  cbn [fs calls] in H.

(** The number of calls made, read off the list of kinds. *)
Ltac pick_take fuel k :=
  lazymatch fuel with
  | O => fail
  | S ?f =>
      first [ match goal with |- _ = take ?x _ => unify x k end; reflexivity
            | pick_take f (S k) ]
  end.

Ltac no_workers H0 :=
  exfalso;
  match goal with
  | E : py_div _ _ = Ok _ |- _ =>
      unfold py_div in E; rewrite H0 in E; discriminate E
  end.

Section Runs.
Context `{Collaborators}.
Variable cpu : Z.

(** A run of the whole-frame stages makes a leading part of the calls of
    [whole_frame_kinds]; it returns after all of them, having written the
    bundle; it raises before the last, having written nothing. *)
Lemma whole_frame_stages_run hd Y d1 d2 p n w res w1 :
  whole_frame_stages cpu hd Y d1 d2 p n w = (res, w1) ->
  let fn := dirname_comp hd +:+ "_cnmf.mat" in
  exists l k,
    calls w1 = calls w ++ l
    /\ kinds l = take k (whole_frame_kinds cpu fn n)
    /\ (1 <= k)%nat
    /\ match res with
       | Ok r => k = 11%nat /\ fs w1 = <[fn := Mat (bundle_dict r)]> (fs w)
       | Raise e => (k < 11)%nat /\ fs w1 = fs w
       end
    /\ (NCPUS cpu = 0 -> k = 1%nat).
Proof.
  intros Hrun fn. unfold whole_frame_stages in Hrun.
  repeat run_step_fs Hrun.
  all: unfold ret in Hrun.
  all: injection Hrun as <- <-; cbn [fs calls]; rewrite <- ?app_assoc;
    cbn [app].
  all: do 2 eexists; split; [reflexivity|].
  all: split; [pick_take 12%nat 1%nat|].
  all: split; [lia|].
  all: split; [split; first [reflexivity | lia]|].
  all: intros H0; first [reflexivity | no_workers H0].
Qed.

Lemma patched_stages_run hd Y d1 d2 T p n w res w1 :
  patched_stages cpu hd Y d1 d2 T p n w = (res, w1) ->
  let fn := dirname_comp hd +:+ "_cnmf.mat" in
  exists l k K K',
    calls w1 = calls w ++ l
    /\ kinds l = take k (patched_kinds cpu fn K K')
    /\ (1 <= k)%nat
    /\ match res with
       | Ok r => k = 9%nat /\ fs w1 = <[fn := Mat (bundle_dict r)]> (fs w)
       | Raise e => (k < 9)%nat /\ fs w1 = fs w
       end
    /\ (NCPUS cpu = 0 -> k = 1%nat)
    /\ ((2 <= k)%nat -> patch_K cpu n = Ok K).
Proof.
  intros Hrun fn. unfold patched_stages in Hrun. cbv zeta in Hrun.
  repeat run_step_fs Hrun.
  all: unfold ret in Hrun.
  all: injection Hrun as <- <-; cbn [fs calls]; rewrite <- ?app_assoc;
    cbn [app].
  all: do 4 eexists; split; [reflexivity|].
  all: split; [pick_take 10%nat 1%nat|].
  all: split; [lia|].
  all: split; [split; first [reflexivity | lia]|].
  all: split; [intros H0; first [reflexivity | no_workers H0]|].
  all: intros Hk; first [reflexivity | assumption | lia].
  Unshelve. all: exact 0.
Qed.

End Runs.

Section Parts.
Context `{Collaborators}.

Lemma cache_kinds_present hd w :
  is_Some (fs w !! (dirname_comp hd +:+ "_Y.npy")) -> cache_kinds hd w = [].
Proof. intros Hex. unfold cache_kinds. now rewrite bool_decide_eq_true_2. Qed.

Lemma cache_kinds_absent hd w :
  fs w !! (dirname_comp hd +:+ "_Y.npy") = None ->
  cache_kinds hd w = [KSave (dirname_comp hd +:+ "_Y.npy");
                      KSave (dirname_comp hd +:+ "_Yr.npy")].
Proof.
  intros Hno. unfold cache_kinds.
  rewrite bool_decide_eq_false_2; [reflexivity|].
  rewrite Hno. now intros [? ?].
Qed.

Lemma projection_kinds_ext hd wa wb :
  fs wa !! (dirname_comp hd +:+ "_proj.npy")
  = fs wb !! (dirname_comp hd +:+ "_proj.npy") ->
  projection_kinds hd wa = projection_kinds hd wb.
Proof. intros E. unfold projection_kinds. now rewrite E. Qed.

(** The cache part of a run: [tiffs_to_cnmf], the load of the cube, its
    shape. *)
Lemma open_cache_run hd mask w res w1 :
  open_cache hd mask w = (res, w1) ->
  let Yp := dirname_comp hd +:+ "_Y.npy" in
  let Yrp := dirname_comp hd +:+ "_Yr.npy" in
  exists l,
    calls w1 = calls w ++ l
    /\ (forall q, q <> Yp -> q <> Yrp -> fs w1 !! q = fs w !! q)
    /\ (kinds l = [] \/ kinds l = cache_kinds hd w)
    /\ (is_Some (fs w !! Yp) -> fs w1 = fs w)
    /\ forall Y dims, res = Ok (Y, dims) ->
         kinds l = cache_kinds hd w
         /\ fs w1 !! Yp = Some (Npy Y) /\ shape3 Y = Ok dims.
Proof.
  intros Hrun Yp Yrp. unfold open_cache in Hrun.
  destruct (tiffs_to_cnmf_cases hd mask false w)
    as [(Hex & _ & E) | [(Hc & e & E) | (Hc & Y0 & Yr0 & E)]];
    fold Yp Yrp in E.
  - fold Yp in Hex.
    rewrite (bind_Ok _ _ _ _ _ E) in Hrun. repeat run_step_fs Hrun.
    all: unfold ret, raise in Hrun; injection Hrun as <- <-.
    all: exists []; rewrite app_nil_r, (cache_kinds_present hd w Hex).
    all: split; [reflexivity|]; split; [intros; reflexivity|].
    all: split; [now left|]; split; [intros; reflexivity|].
    all: intros Y' dims' [=]; subst; repeat split; assumption.
  - rewrite (bind_Raise _ _ _ _ _ E) in Hrun. injection Hrun as <- <-.
    exists []. rewrite app_nil_r.
    split; [reflexivity|]; split; [intros; reflexivity|].
    split; [now left|]; split; [intros; reflexivity|].
    intros Y' dims' [=].
  - destruct Hc as [Hno | [=]]. fold Yp in Hno.
    rewrite (bind_Ok _ _ _ _ _ E) in Hrun. repeat run_step_fs Hrun.
    all: unfold ret, raise in Hrun; injection Hrun as <- <-; cbn [fs calls].
    all: eexists; split; [reflexivity|].
    all: rewrite (cache_kinds_absent hd w Hno).
    all: split;
      [intros q Hq Hqr; now rewrite !lookup_insert_ne by congruence|].
    all: split; [right; reflexivity|].
    all: split; [intros Hex; rewrite Hno in Hex; now destruct Hex|].
    all: intros Y' dims' [=]; subst; repeat split; try assumption.
    all: rewrite lookup_insert_ne in E0 by (apply suffix_ne; discriminate).
    all: rewrite lookup_insert_eq in E0; congruence.
Qed.

(** [loadmat] and the five look-ups depend on the stored file alone. *)
Lemma load_bundle_run fn w :
  load_bundle fn w
  = (fst (load_bundle fn (World (fs w) [])),
     World (fs w) (calls w ++ [c_loadmat fn])).
Proof.
  unfold load_bundle, loadmat.
  repeat first [rewrite bind_bind | rewrite bind_trace | rewrite bind_get_fs].
  cbn [fs calls].
  destruct (fs w !! fn) as [[ | | |d]|];
    rewrite ?bind_raise, ?bind_ret; try reflexivity.
  rewrite !bind_lift.
  repeat (match goal with
          | |- context [lookup_key ?d ?k] => destruct (lookup_key d k)
          end; rewrite ?bind_lift; try reflexivity).
Qed.

Lemma load_bundle_same fn wa wb :
  fs wa !! fn = fs wb !! fn ->
  fst (load_bundle fn wa) = fst (load_bundle fn wb).
Proof.
  intros E. unfold load_bundle, loadmat.
  repeat first [rewrite bind_bind | rewrite bind_trace | rewrite bind_get_fs].
  cbn [fs calls].
  rewrite E.
  destruct (fs wb !! fn) as [[ | | |d]|];
    rewrite ?bind_raise, ?bind_ret; try reflexivity.
  rewrite !bind_lift.
  repeat (match goal with
          | |- context [lookup_key ?d ?k] => destruct (lookup_key d k)
          end; rewrite ?bind_lift; try reflexivity).
Qed.

Lemma load_bundle_dict fn r w :
  fs w !! fn = Some (Mat (bundle_dict r)) ->
  fst (load_bundle fn w) = Ok r.
Proof.
  intros E. unfold load_bundle, loadmat.
  repeat first [rewrite bind_bind | rewrite bind_trace | rewrite bind_get_fs].
  cbn [fs calls].
  rewrite E, bind_ret. destruct r as [A C YrA S1 bl].
  unfold bundle_dict, lookup_key. cbn [b_A b_C b_YrA b_S b_bl].
  rewrite !bind_lift.
  repeat (rewrite ?lookup_insert_eq;
          rewrite ?(lookup_insert_ne (M := gmap string)) by discriminate).
  reflexivity.
Qed.

(** The tail of a run: the projection, the ordering, the polygons. *)
Lemma finish_run hd r Y d1 d2 w res w1 :
  finish hd r Y d1 d2 w = (res, w1) ->
  let proj := dirname_comp hd +:+ "_proj.npy" in
  exists l,
    calls w1 = calls w ++ l
    /\ (forall q, q <> proj -> fs w1 !! q = fs w !! q)
    /\ (is_Some (fs w !! proj) -> fs w1 = fs w)
    /\ forall out, res = Ok out ->
         kinds l = projection_kinds hd w ++ [KOrder; KStop]
         /\ exists polys zproj ord,
              fs w1 !! proj = Some (Npy zproj)
              /\ cse_order_components (b_A r) (b_C r) = Ok ord
              /\ contour (b_A r) d1 d2 thr_contour = Ok polys
              /\ out = (ROIList (map MkROI polys), b_C r, zproj, b_S r, Y,
                        b_YrA r).
Proof.
  intros Hrun proj. unfold finish, projection, order_and_outline in Hrun.
  cbv zeta in Hrun. fold proj in Hrun.
  rewrite bind_bind, bind_exists in Hrun.
  unfold projection_kinds. fold proj.
  destruct (bool_decide (is_Some (fs w !! proj))) eqn:Ebd; cbn [negb] in Hrun.
  - repeat run_step_fs Hrun.
    all: unfold ret, raise in Hrun; injection Hrun as <- <-; cbn [fs calls];
      rewrite <- ?app_assoc; cbn [app].
    all: eexists; split; [first [reflexivity | symmetry; apply app_nil_r]|].
    all: split; [intros q Hq; reflexivity|].
    all: split; [intros _; reflexivity|].
    all: intros out Hout; first [discriminate Hout | injection Hout as <-].
    split; [reflexivity|].
    do 3 eexists. repeat split; first [reflexivity | eassumption].
  - apply bool_decide_eq_false_1 in Ebd.
    repeat run_step_fs Hrun.
    all: unfold ret, raise in Hrun; injection Hrun as <- <-; cbn [fs calls];
      rewrite <- ?app_assoc; cbn [app].
    all: unfold proj; rewrite ?npy_name_proj; fold proj.
    all: eexists; split; [first [reflexivity | symmetry; apply app_nil_r]|].
    all: split;
      [intros q Hq; first [reflexivity | now rewrite lookup_insert_ne]|].
    all: split; [intros Hex; contradiction|].
    all: intros out Hout; first [discriminate Hout | injection Hout as <-].
    split; [reflexivity|].
    do 3 eexists. split; [apply lookup_insert_eq|].
    repeat split; first [reflexivity | eassumption].
Qed.

(** A run of an orchestrator, cut at its three parts. *)
Lemma orchestrate_split numeric hd mask w res w' :
  orchestrate numeric hd mask w = (res, w') ->
  let fn := dirname_comp hd +:+ "_cnmf.mat" in
  (exists e, open_cache hd mask w = (Raise e, w') /\ res = Raise e)
  \/ exists Y d1 d2 T w1 rb w2,
       open_cache hd mask w = (Ok (Y, (d1, d2, T)), w1)
       /\ (if bool_decide (is_Some (fs w1 !! fn))
           then load_bundle fn w1 else numeric hd Y d1 d2 T w1) = (rb, w2)
       /\ ((exists e, rb = Raise e /\ res = Raise e /\ w' = w2)
           \/ exists r, rb = Ok r /\ finish hd r Y d1 d2 w2 = (res, w')).
Proof.
  intros Hrun fn. unfold orchestrate in Hrun. cbv zeta in Hrun. fold fn in Hrun.
  destruct (open_cache hd mask w) as [[[Y [[d1 d2] T]]|e] w1] eqn:Ecache.
  - right. rewrite (bind_Ok _ _ _ _ _ Ecache), bind_exists in Hrun.
    exists Y, d1, d2, T, w1.
    destruct (bool_decide (is_Some (fs w1 !! fn))); cbn [negb] in Hrun.
    + destruct (load_bundle fn w1) as [[r|e] w2] eqn:Eb.
      * rewrite (bind_Ok _ _ _ _ _ Eb) in Hrun. exists (Ok r), w2. eauto 10.
      * rewrite (bind_Raise _ _ _ _ _ Eb) in Hrun. injection Hrun as <- <-.
        exists (Raise e), w2. eauto 10.
    + destruct (numeric hd Y d1 d2 T w1) as [[r|e] w2] eqn:Eb.
      * rewrite (bind_Ok _ _ _ _ _ Eb) in Hrun. exists (Ok r), w2. eauto 10.
      * rewrite (bind_Raise _ _ _ _ _ Eb) in Hrun. injection Hrun as <- <-.
        exists (Raise e), w2. eauto 10.
  - left. rewrite (bind_Raise _ _ _ _ _ Ecache) in Hrun.
    injection Hrun as <- <-. eauto.
Qed.

End Parts.

Ltac upto_12 k tac :=
  do 12 (destruct k as [|k]; [tac|]); tac.

Section Contract.
Context `{Collaborators}.
Variable cpu : Z.

Lemma whole_frame_contract (p n : Z) :
  numeric_contract cpu whole_frame_order
    (fun hd Y d1 d2 _ => whole_frame_stages cpu hd Y d1 d2 p n).
Proof.
  intros hd Y d1 d2 T w res w1 Hrun.
  destruct (whole_frame_stages_run cpu _ _ _ _ _ _ _ _ _ Hrun)
    as (l & k & Hl & Hk & Hk1 & Hres & H0).
  exists l. split; [assumption|].
  rewrite stages_of_kinds, setparms_of_kinds, Hk. split.
  { destruct res as [r|e].
    - destruct Hres as [-> Hfs]. split; [assumption|].
      split; [reflexivity|]. intros Hz. specialize (H0 Hz). discriminate.
    - destruct Hres as [_ Hfs]. split; [assumption|].
      intros Hz. now rewrite (H0 Hz). }
  split.
  { intros Hz. now rewrite (H0 Hz). }
  clear Hres H0 Hk Hl.
  upto_12 k ltac:(try lia; cbn; intros Hne s;
                  first [contradiction | reflexivity]).
Qed.

Lemma patched_contract (p n : Z) :
  numeric_contract cpu patched_order
    (fun hd Y d1 d2 T => patched_stages cpu hd Y d1 d2 T p n).
Proof.
  intros hd Y d1 d2 T w res w1 Hrun.
  destruct (patched_stages_run cpu _ _ _ _ _ _ _ _ _ _ Hrun)
    as (l & k & K & K' & Hl & Hk & Hk1 & Hres & H0 & _).
  exists l. split; [assumption|].
  rewrite stages_of_kinds, setparms_of_kinds, Hk. split.
  { destruct res as [r|e].
    - destruct Hres as [-> Hfs]. split; [assumption|].
      split; [reflexivity|]. intros Hz. specialize (H0 Hz). discriminate.
    - destruct Hres as [_ Hfs]. split; [assumption|].
      intros Hz. now rewrite (H0 Hz). }
  split.
  { intros Hz. now rewrite (H0 Hz). }
  clear Hres H0 Hk Hl.
  upto_12 k ltac:(try lia; cbn; intros Hne s;
                  first [contradiction | reflexivity]).
Qed.

End Contract.

Section Whole.
Context `{Collaborators}.

(** A run of an orchestrator that returns, part by part. *)
Lemma orchestrate_Ok numeric hd mask w out w' :
  orchestrate numeric hd mask w = (Ok out, w') ->
  let Yp := dirname_comp hd +:+ "_Y.npy" in
  let Yrp := dirname_comp hd +:+ "_Yr.npy" in
  let fn := dirname_comp hd +:+ "_cnmf.mat" in
  let proj := dirname_comp hd +:+ "_proj.npy" in
  exists Y d1 d2 T w1 r w2 l0 l2 polys zproj ord,
    calls w1 = calls w ++ l0 /\ kinds l0 = cache_kinds hd w
    /\ (forall q, q <> Yp -> q <> Yrp -> fs w1 !! q = fs w !! q)
    /\ fs w1 !! Yp = Some (Npy Y) /\ shape3 Y = Ok (d1, d2, T)
    /\ (if bool_decide (is_Some (fs w !! fn))
        then load_bundle fn w1 else numeric hd Y d1 d2 T w1) = (Ok r, w2)
    /\ calls w' = calls w2 ++ l2
    /\ kinds l2 = projection_kinds hd w2 ++ [KOrder; KStop]
    /\ (forall q, q <> proj -> fs w' !! q = fs w2 !! q)
    /\ fs w' !! proj = Some (Npy zproj)
    /\ cse_order_components (b_A r) (b_C r) = Ok ord
    /\ contour (b_A r) d1 d2 thr_contour = Ok polys
    /\ out = (ROIList (map MkROI polys), b_C r, zproj, b_S r, Y, b_YrA r).
Proof.
  intros Hrun Yp Yrp fn proj.
  destruct (orchestrate_split _ _ _ _ _ _ Hrun)
    as [(e & _ & [=])
       | (Y & d1 & d2 & T & w1 & rb & w2 & Eopen & Enum & Hcase)].
  destruct Hcase as [(e & _ & [=] & _) | (r & -> & Efin)].
  destruct (open_cache_run _ _ _ _ _ Eopen) as (l0 & Hl0 & Hfs0 & _ & _ & Hok0).
  destruct (Hok0 _ _ eq_refl) as (Hk0 & HY & Hsh).
  destruct (finish_run _ _ _ _ _ _ _ _ Efin) as (l2 & Hl2 & Hfs2 & _ & Hok2).
  destruct (Hok2 _ eq_refl) as (Hk2 & polys & zproj & ord & Hz & Ho & Hp & ->).
  rewrite (Hfs0 (dirname_comp hd +:+ "_cnmf.mat")) in Enum
    by (apply suffix_ne; discriminate).
  exists Y, d1, d2, T, w1, r, w2, l0, l2, polys, zproj, ord.
  repeat (split; [assumption|]). reflexivity.
Qed.

(** The files the numeric part and the tail leave alone. *)
Lemma load_bundle_Ok fn w r w2 :
  load_bundle fn w = (Ok r, w2) ->
  fs w2 = fs w /\ calls w2 = calls w ++ [c_loadmat fn]
  /\ fst (load_bundle fn w) = Ok r.
Proof.
  intros E. rewrite load_bundle_run in E. injection E as E <-.
  cbn [fs calls]. repeat split.
  rewrite load_bundle_run. exact E.
Qed.

(** With the cube, the bundle and the projection on disk, an orchestrator
    computes nothing. *)
Lemma orchestrate_replays numeric hd mask w Y d1 d2 T r zproj ord polys :
  fs w !! (dirname_comp hd +:+ "_Y.npy") = Some (Npy Y) ->
  shape3 Y = Ok (d1, d2, T) ->
  is_Some (fs w !! (dirname_comp hd +:+ "_cnmf.mat")) ->
  fst (load_bundle (dirname_comp hd +:+ "_cnmf.mat") w) = Ok r ->
  fs w !! (dirname_comp hd +:+ "_proj.npy") = Some (Npy zproj) ->
  cse_order_components (b_A r) (b_C r) = Ok ord ->
  contour (b_A r) d1 d2 thr_contour = Ok polys ->
  orchestrate numeric hd mask w
  = (Ok (ROIList (map MkROI polys), b_C r, zproj, b_S r, Y, b_YrA r),
     World (fs w)
           (calls w ++ [c_loadmat (dirname_comp hd +:+ "_cnmf.mat");
                        c_order_components; c_stop_server])).
Proof.
  intros HY Hsh Hfn Hr Hz Ho Hp.
  assert (Hopen : open_cache hd mask w = (Ok (Y, (d1, d2, T)), w)).
  { unfold open_cache.
    assert (Hskip : tiffs_to_cnmf hd mask false w = (Ok tt, w)).
    { rewrite tiffs_to_cnmf_guard.
      now rewrite bool_decide_eq_true_2 by (rewrite HY; eauto). }
    rewrite (bind_Ok _ _ _ _ _ Hskip), bind_np_load, HY, bind_lift, Hsh.
    reflexivity. }
  assert (Hload : load_bundle (dirname_comp hd +:+ "_cnmf.mat") w
                  = (Ok r, World (fs w)
                      (calls w ++ [c_loadmat (dirname_comp hd +:+ "_cnmf.mat")]))).
  { rewrite load_bundle_run. rewrite load_bundle_run in Hr.
    cbn [fst] in Hr. now rewrite Hr. }
  unfold orchestrate. cbv zeta.
  rewrite (bind_Ok _ _ _ _ _ Hopen), bind_exists.
  rewrite bool_decide_eq_true_2 by assumption. cbn [negb].
  rewrite (bind_Ok _ _ _ _ _ Hload).
  unfold finish, projection. cbv zeta.
  rewrite bind_bind, bind_exists. cbn [fs].
  rewrite bool_decide_eq_true_2 by (rewrite Hz; eauto). cbn [negb].
  rewrite bind_np_load. cbn [fs]. rewrite Hz.
  unfold order_and_outline.
  rewrite bind_trace, bind_lift, Ho. destruct ord as [[A_or C_or] srt].
  rewrite bind_trace, bind_lift, Hp. unfold ret. cbn [fs calls].
  now rewrite <- !app_assoc.
Qed.

End Whole.

Lemma stages_cache_kinds `{Collaborators} hd w l :
  kinds l = [] \/ kinds l = cache_kinds hd w ->
  stages l = [] /\ setparms l = []
  /\ (forall s, backend_after s (kinds l) = s)
  /\ forall m, KStart m ∉ kinds l.
Proof.
  intros Hk. rewrite stages_of_kinds, setparms_of_kinds.
  assert (Hc : kinds l = []
               \/ kinds l = [KSave (dirname_comp hd +:+ "_Y.npy");
                             KSave (dirname_comp hd +:+ "_Yr.npy")]).
  { destruct Hk as [Hk|Hk]; [now left|]. rewrite Hk. unfold cache_kinds.
    destruct (bool_decide _); auto. }
  destruct Hc as [-> | ->]; repeat split; intros m Hin;
    repeat (apply elem_of_cons in Hin as [Hin|Hin]; [discriminate|]);
    now apply elem_of_nil in Hin.
Qed.

Section Sequences.
Context `{Collaborators}.
Variable cpu : Z.

(** X12: the calls of a whole-frame run that returns, with no bundle on
    disk before: the cache part if the cube was missing, then
    [stop_server], [CNMFSetParms] for [NCPUS] workers and [nrois_init]
    components at [ssub = tsub = 2], [start_server(NCPUS)], the seven
    stages, [savemat]; the projection part if the projection was missing;
    [order_components] and [stop_server]. *)
Theorem whole_frame_call_sequence (hd : dataset) (mask : option (list bool))
  (p n : Z) (w : world) (out : output) (w' : world) :
  fs w !! (dirname_comp hd +:+ "_cnmf.mat") = None ->
  process_data cpu hd mask p n w = (Ok out, w') ->
  kinds (calls w')
  = kinds (calls w) ++ cache_kinds hd w
    ++ whole_frame_kinds cpu (dirname_comp hd +:+ "_cnmf.mat") n
    ++ projection_kinds hd w ++ [KOrder; KStop].
Proof.
  intros Hno Hrun. rewrite process_data_orchestrate in Hrun.
  destruct (orchestrate_Ok _ _ _ _ _ _ Hrun)
    as (Y & d1 & d2 & T & w1 & r & w2 & l0 & l2 & polys & zproj & ord
        & Hl0 & Hk0 & Hfs0 & HY & Hsh & Enum & Hl2 & Hk2 & Hfs2 & _).
  rewrite Hno, bool_decide_eq_false_2 in Enum by now intros [? ?].
  destruct (whole_frame_stages_run cpu _ _ _ _ _ _ _ _ _ Enum)
    as (l1 & k & Hl1 & Hk1 & _ & [-> Hfs1] & _).
  rewrite Hl2, Hl1, Hl0, !kinds_app, Hk0, Hk1, Hk2.
  rewrite (projection_kinds_ext hd w2 w).
  2:{ rewrite Hfs1, lookup_insert_ne by (apply suffix_ne; discriminate).
      apply Hfs0; apply suffix_ne; discriminate. }
  rewrite <- !app_assoc. reflexivity.
Qed.

(** X13: the calls of a patched run that returns, with no bundle on disk
    before: after the cache part, [stop_server], [CNMFSetParms] for
    [NCPUS] workers and [K = int(nrois_init/NCPUS/2.0)] components at
    [ssub = tsub = 1], [start_server(NCPUS)], the patch solver, a second
    [CNMFSetParms], then merging, one spatial and one temporal update (no
    preprocessing and no initialization of its own), [savemat]; then the
    tail as on the whole-frame path. *)
Theorem patched_call_sequence (hd : dataset) (mask : option (list bool))
  (p n : Z) (w : world) (out : output) (w' : world) :
  fs w !! (dirname_comp hd +:+ "_cnmf.mat") = None ->
  process_data_patches cpu hd mask p n w = (Ok out, w') ->
  exists K K',
    patch_K cpu n = Ok K
    /\ kinds (calls w')
       = kinds (calls w) ++ cache_kinds hd w
         ++ patched_kinds cpu (dirname_comp hd +:+ "_cnmf.mat") K K'
         ++ projection_kinds hd w ++ [KOrder; KStop].
Proof.
  intros Hno Hrun. rewrite process_data_patches_orchestrate in Hrun.
  destruct (orchestrate_Ok _ _ _ _ _ _ Hrun)
    as (Y & d1 & d2 & T & w1 & r & w2 & l0 & l2 & polys & zproj & ord
        & Hl0 & Hk0 & Hfs0 & HY & Hsh & Enum & Hl2 & Hk2 & Hfs2 & _).
  rewrite Hno, bool_decide_eq_false_2 in Enum by now intros [? ?].
  destruct (patched_stages_run cpu _ _ _ _ _ _ _ _ _ _ Enum)
    as (l1 & k & K & K' & Hl1 & Hk1 & _ & [-> Hfs1] & _ & HK).
  exists K, K'. split; [apply HK; lia|].
  rewrite Hl2, Hl1, Hl0, !kinds_app, Hk0, Hk1, Hk2.
  rewrite (projection_kinds_ext hd w2 w).
  2:{ rewrite Hfs1, lookup_insert_ne by (apply suffix_ne; discriminate).
      apply Hfs0; apply suffix_ne; discriminate. }
  rewrite <- !app_assoc. reflexivity.
Qed.

Lemma replay_kinds numeric hd mask w out w' :
  is_Some (fs w !! (dirname_comp hd +:+ "_cnmf.mat")) ->
  orchestrate numeric hd mask w = (Ok out, w') ->
  kinds (calls w')
  = kinds (calls w) ++ cache_kinds hd w
    ++ [KLoadmat (dirname_comp hd +:+ "_cnmf.mat")]
    ++ projection_kinds hd w ++ [KOrder; KStop].
Proof.
  intros Hex Hrun.
  destruct (orchestrate_Ok _ _ _ _ _ _ Hrun)
    as (Y & d1 & d2 & T & w1 & r & w2 & l0 & l2 & polys & zproj & ord
        & Hl0 & Hk0 & Hfs0 & HY & Hsh & Enum & Hl2 & Hk2 & Hfs2 & _).
  rewrite bool_decide_eq_true_2 in Enum by assumption.
  destruct (load_bundle_Ok _ _ _ _ Enum) as (Hfs1 & Hl1 & _).
  rewrite Hl2, Hl1, Hl0, !kinds_app, Hk0, Hk2.
  rewrite (projection_kinds_ext hd w2 w).
  2:{ rewrite Hfs1. apply Hfs0; apply suffix_ne; discriminate. }
  rewrite <- !app_assoc. reflexivity.
Qed.

(** X14: the calls of a run that returns from a stored bundle, for either
    orchestrator: after the cache part, [loadmat], the projection part,
    [order_components] and [stop_server].  No [CNMFSetParms] and no
    [start_server] is called, so the backend is stopped without having
    been started, and [p], [nrois_init] and the CPU count play no part. *)
Theorem replay_call_sequence (hd : dataset) (mask : option (list bool))
  (p n : Z) (w : world) (out : output) (w' : world) :
  is_Some (fs w !! (dirname_comp hd +:+ "_cnmf.mat")) ->
  process_data cpu hd mask p n w = (Ok out, w')
  \/ process_data_patches cpu hd mask p n w = (Ok out, w') ->
  kinds (calls w')
  = kinds (calls w) ++ cache_kinds hd w
    ++ [KLoadmat (dirname_comp hd +:+ "_cnmf.mat")]
    ++ projection_kinds hd w ++ [KOrder; KStop].
Proof.
  intros Hex [Hrun|Hrun].
  - rewrite process_data_orchestrate in Hrun.
    exact (replay_kinds _ _ _ _ _ _ Hex Hrun).
  - rewrite process_data_patches_orchestrate in Hrun.
    exact (replay_kinds _ _ _ _ _ _ Hex Hrun).
Qed.

Lemma backend_generic order numeric hd mask w res w' s :
  numeric_contract cpu order numeric ->
  orchestrate numeric hd mask w = (res, w') ->
  (forall out, res = Ok out -> backend_after s (kinds (calls w')) = None)
  /\ (forall e, res = Raise e ->
        fs w !! (dirname_comp hd +:+ "_cnmf.mat") = None ->
        fs w' !! (dirname_comp hd +:+ "_cnmf.mat") = None ->
        stages (calls w') <> stages (calls w) ->
        backend_after s (kinds (calls w')) = Some (NCPUS cpu)).
Proof.
  intros Hnum Hrun. split.
  - intros out ->.
    destruct (orchestrate_Ok _ _ _ _ _ _ Hrun)
      as (Y & d1 & d2 & T & w1 & r & w2 & l0 & l2 & polys & zproj & ord
          & _ & _ & _ & _ & _ & _ & Hl2 & Hk2 & _).
    rewrite Hl2, kinds_app, Hk2, !backend_after_app. reflexivity.
  - intros e -> Hno Hno' Hne.
    destruct (orchestrate_split _ _ _ _ _ _ Hrun)
      as [(e' & Eopen & _)
         | (Y & d1 & d2 & T & w1 & rb & w2 & Eopen & Enum & Hcase)].
    + destruct (open_cache_run _ _ _ _ _ Eopen) as (l0 & Hl0 & _ & Hk0 & _).
      destruct (stages_cache_kinds hd w l0 Hk0) as (Hs0 & _).
      exfalso. apply Hne. now rewrite Hl0, stages_app, Hs0, app_nil_r.
    + destruct (open_cache_run _ _ _ _ _ Eopen) as (l0 & Hl0 & Hfs0 & Hk0 & _).
      destruct (stages_cache_kinds hd w l0 Hk0) as (Hs0 & _).
      assert (Hfn1 : fs w1 !! (dirname_comp hd +:+ "_cnmf.mat") = None).
      { rewrite Hfs0 by (apply suffix_ne; discriminate). assumption. }
      rewrite Hfn1, bool_decide_eq_false_2 in Enum by now intros [? ?].
      destruct (Hnum _ _ _ _ _ _ _ _ Enum) as (l1 & Hl1 & Hres & _ & Hup).
      destruct Hcase as [(e' & -> & _ & ->) | (r & -> & Efin)].
      * rewrite Hl1, kinds_app, backend_after_app. apply Hup.
        intros Hs1. apply Hne.
        now rewrite Hl1, Hl0, !stages_app, Hs0, Hs1, !app_nil_r.
      * destruct Hres as (Hfs1 & _).
        destruct (finish_run _ _ _ _ _ _ _ _ Efin) as (l2 & _ & Hfs2 & _).
        rewrite Hfs2, Hfs1, lookup_insert_eq in Hno'
          by (apply suffix_ne; discriminate).
        discriminate.
Qed.

(** X15: the life of the backend.  A run of either orchestrator that
    returns ends with the backend stopped.  A run that starts without a
    bundle, raises after a numeric stage has been called and leaves no
    bundle behind (the failure was in one of the stages) ends with the
    backend up with [NCPUS] workers: nothing stops it on the way out. *)
Theorem backend_lifecycle (hd : dataset) (mask : option (list bool))
  (p n : Z) (w : world) (res : result output) (w' : world) (s : option Z) :
  process_data cpu hd mask p n w = (res, w')
  \/ process_data_patches cpu hd mask p n w = (res, w') ->
  (forall out, res = Ok out -> backend_after s (kinds (calls w')) = None)
  /\ (forall e, res = Raise e ->
        fs w !! (dirname_comp hd +:+ "_cnmf.mat") = None ->
        fs w' !! (dirname_comp hd +:+ "_cnmf.mat") = None ->
        stages (calls w') <> stages (calls w) ->
        backend_after s (kinds (calls w')) = Some (NCPUS cpu)).
Proof.
  intros [Hrun|Hrun].
  - rewrite process_data_orchestrate in Hrun.
    exact (backend_generic _ _ _ _ _ _ _ _ (whole_frame_contract cpu p n) Hrun).
  - rewrite process_data_patches_orchestrate in Hrun.
    exact (backend_generic _ _ _ _ _ _ _ _ (patched_contract cpu p n) Hrun).
Qed.

End Sequences.

Section Outcomes.
Context `{Collaborators}.
Variable cpu : Z.

Lemma whole_frame_no_workers hd Y d1 d2 p n w Yr :
  NCPUS cpu = 0 ->
  fs w !! (dirname_comp hd +:+ "_Yr.npy") = Some (Npy Yr) ->
  whole_frame_stages cpu hd Y d1 d2 p n w
  = (Raise ZeroDivisionError, World (fs w) (calls w ++ [c_stop_server])).
Proof.
  intros H0 HYr. unfold whole_frame_stages.
  rewrite bind_trace, bind_np_load. cbn [fs]. rewrite HYr, bind_lift.
  unfold py_div. now rewrite H0.
Qed.

Lemma patched_no_workers hd Y d1 d2 T p n w Yr :
  NCPUS cpu = 0 ->
  fs w !! (dirname_comp hd +:+ "_Yr.npy") = Some (Npy Yr) ->
  patched_stages cpu hd Y d1 d2 T p n w
  = (Raise ZeroDivisionError, World (fs w) (calls w ++ [c_stop_server])).
Proof.
  intros H0 HYr. unfold patched_stages. cbv zeta.
  rewrite bind_trace, bind_np_load. cbn [fs]. rewrite HYr, bind_lift.
  unfold py_div. now rewrite H0.
Qed.

Lemma no_workers_generic order numeric hd mask w res w' :
  numeric_contract cpu order numeric ->
  (forall hd Y d1 d2 T w Yr,
     fs w !! (dirname_comp hd +:+ "_Yr.npy") = Some (Npy Yr) ->
     numeric hd Y d1 d2 T w
     = (Raise ZeroDivisionError, World (fs w) (calls w ++ [c_stop_server]))) ->
  NCPUS cpu = 0 ->
  fs w !! (dirname_comp hd +:+ "_cnmf.mat") = None ->
  orchestrate numeric hd mask w = (res, w') ->
  (exists e, res = Raise e)
  /\ fs w' !! (dirname_comp hd +:+ "_cnmf.mat") = None
  /\ (exists l, calls w' = calls w ++ l /\ stages l = [] /\ setparms l = []
                /\ forall m, KStart m ∉ kinds l)
  /\ forall Y Yr d1 d2 T,
       fs w !! (dirname_comp hd +:+ "_Y.npy") = Some (Npy Y) ->
       shape3 Y = Ok (d1, d2, T) ->
       fs w !! (dirname_comp hd +:+ "_Yr.npy") = Some (Npy Yr) ->
       res = Raise ZeroDivisionError
       /\ w' = World (fs w) (calls w ++ [c_stop_server]).
Proof.
  intros Hnum Hzero H0 Hno Hrun.
  assert (Hlast : forall Y Yr d1 d2 T,
            fs w !! (dirname_comp hd +:+ "_Y.npy") = Some (Npy Y) ->
            shape3 Y = Ok (d1, d2, T) ->
            fs w !! (dirname_comp hd +:+ "_Yr.npy") = Some (Npy Yr) ->
            res = Raise ZeroDivisionError
            /\ w' = World (fs w) (calls w ++ [c_stop_server])).
  { intros Y Yr d1 d2 T HY Hsh HYr.
    assert (Hopen : open_cache hd mask w = (Ok (Y, (d1, d2, T)), w)).
    { unfold open_cache.
      assert (Hskip : tiffs_to_cnmf hd mask false w = (Ok tt, w)).
      { rewrite tiffs_to_cnmf_guard.
        now rewrite bool_decide_eq_true_2 by (rewrite HY; eauto). }
      rewrite (bind_Ok _ _ _ _ _ Hskip), bind_np_load, HY, bind_lift, Hsh.
      reflexivity. }
    unfold orchestrate in Hrun. cbv zeta in Hrun.
    rewrite (bind_Ok _ _ _ _ _ Hopen), bind_exists, Hno in Hrun.
    rewrite bool_decide_eq_false_2 in Hrun by now intros [? ?].
    cbn [negb] in Hrun.
    rewrite (bind_Raise _ _ _ _ _ (Hzero hd Y d1 d2 T w Yr HYr)) in Hrun.
    injection Hrun as <- <-. auto. }
  destruct (orchestrate_split _ _ _ _ _ _ Hrun)
    as [(e & Eopen & ->)
       | (Y & d1 & d2 & T & w1 & rb & w2 & Eopen & Enum & Hcase)].
  - destruct (open_cache_run _ _ _ _ _ Eopen) as (l0 & Hl0 & Hfs0 & Hk0 & _).
    destruct (stages_cache_kinds hd w l0 Hk0) as (Hs0 & Hp0 & _ & Hst0).
    split; [eauto|]. split.
    { rewrite Hfs0 by (apply suffix_ne; discriminate). assumption. }
    split; [exists l0; auto | assumption].
  - destruct (open_cache_run _ _ _ _ _ Eopen) as (l0 & Hl0 & Hfs0 & Hk0 & _).
    destruct (stages_cache_kinds hd w l0 Hk0) as (Hs0 & Hp0 & _ & Hst0).
    assert (Hfn1 : fs w1 !! (dirname_comp hd +:+ "_cnmf.mat") = None).
    { rewrite Hfs0 by (apply suffix_ne; discriminate). assumption. }
    rewrite Hfn1, bool_decide_eq_false_2 in Enum by now intros [? ?].
    destruct (Hnum _ _ _ _ _ _ _ _ Enum) as (l1 & Hl1 & Hres & Hp1 & _).
    destruct Hcase as [(e' & -> & -> & ->) | (r & -> & _)].
    2:{ destruct Hres as (_ & _ & Hnz). contradiction. }
    destruct Hres as (Hfs1 & Hk1). specialize (Hk1 H0). specialize (Hp1 H0).
    split; [eauto|]. split; [now rewrite Hfs1|].
    split; [|assumption].
    exists (l0 ++ l1). split; [now rewrite Hl1, Hl0, app_assoc|].
    rewrite stages_app, setparms_app, Hs0, Hp0, Hp1, kinds_app, Hk1.
    rewrite stages_of_kinds, Hk1. repeat split.
    intros m Hin. apply elem_of_app in Hin as [Hin|Hin].
    + exact (Hst0 m Hin).
    + apply elem_of_cons in Hin as [Hin|Hin]; [discriminate|].
      now apply elem_of_nil in Hin.
Qed.

(** X16: on a machine whose [cpu_count()] halves to zero (a single CPU)
    neither orchestrator can compute: with no bundle on disk every run
    raises, writes no bundle and calls neither [CNMFSetParms] nor
    [start_server] nor any stage; with the two cache files in place the
    exception is the [ZeroDivisionError] of [d1*d2/NCPUS], raised right
    after [stop_server]. *)
Theorem single_cpu_cannot_compute (hd : dataset) (mask : option (list bool))
  (p n : Z) (w : world) (res : result output) (w' : world) :
  NCPUS cpu = 0 ->
  fs w !! (dirname_comp hd +:+ "_cnmf.mat") = None ->
  process_data cpu hd mask p n w = (res, w')
  \/ process_data_patches cpu hd mask p n w = (res, w') ->
  (exists e, res = Raise e)
  /\ fs w' !! (dirname_comp hd +:+ "_cnmf.mat") = None
  /\ (exists l, calls w' = calls w ++ l /\ stages l = [] /\ setparms l = []
                /\ forall m, KStart m ∉ kinds l)
  /\ forall Y Yr d1 d2 T,
       fs w !! (dirname_comp hd +:+ "_Y.npy") = Some (Npy Y) ->
       shape3 Y = Ok (d1, d2, T) ->
       fs w !! (dirname_comp hd +:+ "_Yr.npy") = Some (Npy Yr) ->
       res = Raise ZeroDivisionError
       /\ w' = World (fs w) (calls w ++ [c_stop_server]).
Proof.
  intros H0 Hno [Hrun|Hrun].
  - rewrite process_data_orchestrate in Hrun.
    refine (no_workers_generic _ _ _ _ _ _ _ (whole_frame_contract cpu p n)
              _ H0 Hno Hrun).
    intros; eapply whole_frame_no_workers; eassumption.
  - rewrite process_data_patches_orchestrate in Hrun.
    refine (no_workers_generic _ _ _ _ _ _ _ (patched_contract cpu p n)
              _ H0 Hno Hrun).
    intros; eapply patched_no_workers; eassumption.
Qed.

Lemma sticky_generic order numeric numeric' hd mask mask' w out w' :
  numeric_contract cpu order numeric ->
  orchestrate numeric hd mask w = (Ok out, w') ->
  orchestrate numeric' hd mask' w'
  = (Ok out,
     World (fs w')
           (calls w' ++ [c_loadmat (dirname_comp hd +:+ "_cnmf.mat");
                         c_order_components; c_stop_server])).
Proof.
  intros Hnum Hrun.
  destruct (orchestrate_Ok _ _ _ _ _ _ Hrun)
    as (Y & d1 & d2 & T & w1 & r & w2 & l0 & l2 & polys & zproj & ord
        & Hl0 & Hk0 & Hfs0 & HY & Hsh & Enum & Hl2 & Hk2 & Hfs2 & Hz & Ho
        & Hp & ->).
  assert (Hfn : is_Some (fs w' !! (dirname_comp hd +:+ "_cnmf.mat"))
                /\ fst (load_bundle (dirname_comp hd +:+ "_cnmf.mat") w') = Ok r
                /\ fs w' !! (dirname_comp hd +:+ "_Y.npy") = Some (Npy Y)).
  { rewrite !Hfs2 by (apply suffix_ne; discriminate).
    destruct (bool_decide (is_Some (fs w !! (dirname_comp hd +:+ "_cnmf.mat"))))
      eqn:Hb.
    - apply bool_decide_eq_true_1 in Hb.
      destruct (load_bundle_Ok _ _ _ _ Enum) as (Hfs1 & _ & Hr).
      rewrite Hfs1. split.
      { rewrite Hfs0 by (apply suffix_ne; discriminate). assumption. }
      split; [|assumption].
      rewrite <- Hr. apply load_bundle_same.
      rewrite Hfs2 by (apply suffix_ne; discriminate). now rewrite Hfs1.
    - destruct (Hnum _ _ _ _ _ _ _ _ Enum) as (l1 & _ & (Hfs1 & _) & _).
      rewrite Hfs1. split; [rewrite lookup_insert_eq; eauto|]. split.
      + apply load_bundle_dict.
        rewrite Hfs2 by (apply suffix_ne; discriminate).
        rewrite Hfs1. apply lookup_insert_eq.
      + now rewrite lookup_insert_ne by (apply suffix_ne; discriminate). }
  destruct Hfn as (Hex & Hr & HY').
  exact (orchestrate_replays numeric' hd mask' w' Y d1 d2 T r zproj ord polys
           HY' Hsh Hex Hr Hz Ho Hp).
Qed.

(** X17: results are sticky.  After a run of either orchestrator has
    returned, every later run on the same dataset, by either orchestrator,
    with any mask, [p], [nrois_init] and CPU count, returns the very same
    output from the stored files: it calls [loadmat],
    [order_components] and [stop_server], and changes no file. *)
Theorem results_are_sticky (hd : dataset) (mask : option (list bool))
  (p n : Z) (w : world) (out : output) (w' : world) :
  process_data cpu hd mask p n w = (Ok out, w')
  \/ process_data_patches cpu hd mask p n w = (Ok out, w') ->
  forall (cpu' : Z) (mask' : option (list bool)) (p' n' : Z),
    let w'' := World (fs w')
                 (calls w' ++ [c_loadmat (dirname_comp hd +:+ "_cnmf.mat");
                               c_order_components; c_stop_server]) in
    process_data cpu' hd mask' p' n' w' = (Ok out, w'')
    /\ process_data_patches cpu' hd mask' p' n' w' = (Ok out, w'').
Proof.
  intros Hrun cpu' mask' p' n' w''.
  rewrite process_data_orchestrate, process_data_patches_orchestrate.
  destruct Hrun as [Hrun|Hrun].
  - rewrite process_data_orchestrate in Hrun.
    split; exact (sticky_generic _ _ _ _ _ _ _ _ _
                    (whole_frame_contract cpu p n) Hrun).
  - rewrite process_data_patches_orchestrate in Hrun.
    split; exact (sticky_generic _ _ _ _ _ _ _ _ _
                    (patched_contract cpu p n) Hrun).
Qed.

(** X18: the projection image is computed once.  After a call of the
    projection step that returned, [<name>_proj.npy] holds the image that
    was returned; it was left as found if it was there; and a later call,
    for any cube, returns that image and neither calls [utils.zproject]
    nor writes. *)
Theorem projection_is_cached (hd : dataset) (Y Y' : ndarray) (w : world)
  (z : ndarray) (w' : world) :
  projection hd Y w = (Ok z, w') ->
  fs w' !! (dirname_comp hd +:+ "_proj.npy") = Some (Npy z)
  /\ (is_Some (fs w !! (dirname_comp hd +:+ "_proj.npy")) -> w' = w)
  /\ projection hd Y' w' = (Ok z, w').
Proof.
  intros Hrun. unfold projection in Hrun. cbv zeta in Hrun.
  rewrite bind_exists in Hrun.
  assert (Hagain : forall w0,
            fs w0 !! (dirname_comp hd +:+ "_proj.npy") = Some (Npy z) ->
            projection hd Y' w0 = (Ok z, w0)).
  { intros w0 Hz. unfold projection. cbv zeta.
    rewrite bind_exists, bool_decide_eq_true_2 by (rewrite Hz; eauto).
    cbn [negb]. unfold np_load. now rewrite bind_get_fs, Hz. }
  destruct (bool_decide (is_Some (fs w !! (dirname_comp hd +:+ "_proj.npy"))))
    eqn:Hb; cbn [negb] in Hrun.
  - unfold np_load in Hrun. rewrite bind_get_fs in Hrun.
    destruct (fs w !! (dirname_comp hd +:+ "_proj.npy")) as [[ | |a| ]|] eqn:E;
      try discriminate.
    injection Hrun as <- <-. auto.
  - apply bool_decide_eq_false_1 in Hb.
    repeat run_step_fs Hrun.
    all: unfold ret in Hrun; try discriminate.
    injection Hrun as <- <-. cbn [fs]. rewrite npy_name_proj.
    assert (Hz : <[dirname_comp hd +:+ "_proj.npy" := Npy a0]> (fs w)
                 !! (dirname_comp hd +:+ "_proj.npy") = Some (Npy a0))
      by apply lookup_insert_eq.
    split; [assumption|]. split; [intros Hex; contradiction|].
    apply Hagain. assumption.
Qed.

Lemma bundle_last_generic order numeric hd mask w res w' :
  numeric_contract cpu order numeric ->
  fs w !! (dirname_comp hd +:+ "_cnmf.mat") = None ->
  orchestrate numeric hd mask w = (res, w') ->
  (is_Some (fs w' !! (dirname_comp hd +:+ "_cnmf.mat")) ->
   stages (calls w') = stages (calls w) ++ order)
  /\ forall rois C zproj S1 Y YrA,
       res = Ok (rois, C, zproj, S1, Y, YrA) ->
       exists A bl polys d1 d2 T,
         fs w' !! (dirname_comp hd +:+ "_cnmf.mat")
         = Some (Mat (bundle_dict (Bundle A C YrA S1 bl)))
         /\ shape3 Y = Ok (d1, d2, T)
         /\ contour A d1 d2 thr_contour = Ok polys
         /\ rois = ROIList (map MkROI polys).
Proof.
  intros Hnum Hno Hrun. split.
  - intros Hex.
    destruct (orchestrate_split _ _ _ _ _ _ Hrun)
      as [(e & Eopen & _)
         | (Y & d1 & d2 & T & w1 & rb & w2 & Eopen & Enum & Hcase)];
      destruct (open_cache_run _ _ _ _ _ Eopen) as (l0 & Hl0 & Hfs0 & Hk0 & _);
      destruct (stages_cache_kinds hd w l0 Hk0) as (Hs0 & _).
    { rewrite Hfs0, Hno in Hex by (apply suffix_ne; discriminate).
      now destruct Hex. }
    assert (Hfn1 : fs w1 !! (dirname_comp hd +:+ "_cnmf.mat") = None).
    { rewrite Hfs0 by (apply suffix_ne; discriminate). assumption. }
    rewrite Hfn1, bool_decide_eq_false_2 in Enum by now intros [? ?].
    destruct (Hnum _ _ _ _ _ _ _ _ Enum) as (l1 & Hl1 & Hres & _).
    destruct Hcase as [(e' & -> & _ & ->) | (r & -> & Efin)].
    + destruct Hres as (Hfs1 & _). rewrite Hfs1, Hfn1 in Hex.
      now destruct Hex.
    + destruct Hres as (_ & Hs1 & _).
      destruct (finish_calls _ _ _ _ _ _ _ _ Efin) as (l2 & Hl2 & (Hs2 & _) & _).
      now rewrite Hl2, Hl1, Hl0, !stages_app, Hs0, Hs1, Hs2, !app_nil_r.
  - intros rois C zproj S1 Y YrA ->.
    destruct (orchestrate_Ok _ _ _ _ _ _ Hrun)
      as (Y' & d1 & d2 & T & w1 & r & w2 & l0 & l2 & polys & zproj' & ord
          & Hl0 & Hk0 & Hfs0 & HY & Hsh & Enum & Hl2 & Hk2 & Hfs2 & Hz & Ho
          & Hp & [= -> -> -> -> -> ->]).
    rewrite Hno, bool_decide_eq_false_2 in Enum by now intros [? ?].
    destruct (Hnum _ _ _ _ _ _ _ _ Enum) as (l1 & _ & (Hfs1 & _) & _).
    exists (b_A r), (b_bl r), polys, d1, d2, T.
    split; [|auto].
    rewrite Hfs2, Hfs1, lookup_insert_eq by (apply suffix_ne; discriminate).
    now destruct r.
Qed.

(** X19: the bundle is written last and holds what is returned.  Starting
    without a bundle, [<name>_cnmf.mat] exists after a run only if all the
    numeric stages of the path were called, in order (a run that fails in
    a stage leaves no bundle, so the next run computes again); and the
    traces, spikes and residual a run returns are the [C], [S] and [YrA]
    of the bundle it wrote, the ROIs the polygons of its [A]. *)
Theorem bundle_is_written_last (hd : dataset) (mask : option (list bool))
  (p n : Z) (w : world) (res : result output) (w' : world) :
  fs w !! (dirname_comp hd +:+ "_cnmf.mat") = None ->
  let stored_is_returned :=
    forall rois C zproj S1 Y YrA,
      res = Ok (rois, C, zproj, S1, Y, YrA) ->
      exists A bl polys d1 d2 T,
        fs w' !! (dirname_comp hd +:+ "_cnmf.mat")
        = Some (Mat (bundle_dict (Bundle A C YrA S1 bl)))
        /\ shape3 Y = Ok (d1, d2, T)
        /\ contour A d1 d2 thr_contour = Ok polys
        /\ rois = ROIList (map MkROI polys) in
  (process_data cpu hd mask p n w = (res, w') ->
   (is_Some (fs w' !! (dirname_comp hd +:+ "_cnmf.mat")) ->
    stages (calls w') = stages (calls w) ++ whole_frame_order)
   /\ stored_is_returned)
  /\ (process_data_patches cpu hd mask p n w = (res, w') ->
      (is_Some (fs w' !! (dirname_comp hd +:+ "_cnmf.mat")) ->
       stages (calls w') = stages (calls w) ++ patched_order)
      /\ stored_is_returned).
Proof.
  intros Hno stored_is_returned. split; intros Hrun.
  - rewrite process_data_orchestrate in Hrun.
    exact (bundle_last_generic _ _ _ _ _ _ _ (whole_frame_contract cpu p n)
             Hno Hrun).
  - rewrite process_data_patches_orchestrate in Hrun.
    exact (bundle_last_generic _ _ _ _ _ _ _ (patched_contract cpu p n)
             Hno Hrun).
Qed.

End Outcomes.

Lemma set_param_Ok g k v o o' :
  set_param g k v o = Ok o' ->
  exists grp, o !! g = Some grp /\ o' = <[g := <[k := v]> grp]> o.
Proof.
  unfold set_param. destruct (o !! g) as [grp|]; [|discriminate].
  intros [= <-]. eauto.
Qed.

Lemma get_group_Ok g o ps : get_group g o = Ok ps -> o !! g = Some ps.
Proof. unfold get_group. destruct (o !! g); congruence. Qed.

Lemma py_div_Ok a b q : py_div a b = Ok q -> b <> 0 /\ q = a / b.
Proof.
  unfold py_div. destruct (Z.eqb_spec b 0); [discriminate|].
  intros [= <-]. auto.
Qed.

(** The settings one after the other, each on the result of the last. *)
Ltac set_params E :=
  repeat match type of E with
         | match set_param ?g ?k ?v ?o with _ => _ end = Ok _ =>
             let E1 := fresh "E" in
             let o1 := fresh "o" in
             destruct (set_param g k v o) as [o1|] eqn:E1; [|discriminate E];
             apply set_param_Ok in E1 as (? & ? & ->)
         end;
  apply set_param_Ok in E as (? & ? & ->).

Lemma set_worker_params_Ok cpu npp o o' :
  set_worker_params cpu npp o = Ok o' ->
  exists pre ini spa tem,
    o !! "preprocess_params" = Some pre /\ o !! "init_params" = Some ini
    /\ o !! "spatial_params" = Some spa /\ o !! "temporal_params" = Some tem
    /\ o' !! "preprocess_params"
       = Some (<["n_pixels_per_process" := VInt npp]>
                 (<["n_processes" := VInt (NCPUS cpu)]> pre))
    /\ o' !! "init_params"
       = Some (<["use_hals" := VBool true]> (<["maxIter" := VInt 10]>
                 (<["nIter" := VInt 10]> ini)))
    /\ o' !! "spatial_params"
       = Some (<["n_pixels_per_process" := VInt npp]>
                 (<["n_processes" := VInt (NCPUS cpu)]> spa))
    /\ o' !! "temporal_params"
       = Some (<["n_pixels_per_process" := VInt npp]>
                 (<["n_processes" := VInt (NCPUS cpu)]> tem))
    /\ forall g, g <> "preprocess_params" -> g <> "init_params" ->
                 g <> "spatial_params" -> g <> "temporal_params" ->
                 o' !! g = o !! g.
Proof.
  intros E. unfold set_worker_params in E. set_params E.
  simplify_map_eq.
  do 4 eexists. repeat split; try reflexivity.
  intros g ? ? ? ?. now simplify_map_eq.
Qed.

Lemma set_global_params_Ok cpu npp pix o o' :
  set_global_params cpu npp pix o = Ok o' ->
  exists pre ini spa tem,
    o !! "preprocess_params" = Some pre /\ o !! "init_params" = Some ini
    /\ o !! "spatial_params" = Some spa /\ o !! "temporal_params" = Some tem
    /\ o' !! "preprocess_params"
       = Some (<["n_pixels_per_process" := VInt npp]>
                 (<["n_processes" := VInt (NCPUS cpu)]> pre))
    /\ o' !! "init_params"
       = Some (<["use_hals" := VBool true]> (<["maxIter" := VInt 10]>
                 (<["nIter" := VInt 10]> ini)))
    /\ o' !! "spatial_params"
       = Some (<["n_pixels_per_process" := VInt pix]>
                 (<["n_processes" := VInt (NCPUS cpu)]> spa))
    /\ o' !! "temporal_params"
       = Some (<["n_pixels_per_process" := VInt pix]>
                 (<["n_processes" := VInt (NCPUS cpu)]> tem))
    /\ forall g, g <> "preprocess_params" -> g <> "init_params" ->
                 g <> "spatial_params" -> g <> "temporal_params" ->
                 o' !! g = o !! g.
Proof.
  intros E. unfold set_global_params in E. set_params E.
  simplify_map_eq.
  do 4 eexists. repeat split; try reflexivity.
  intros g ? ? ? ?. now simplify_map_eq.
Qed.

Lemma worker_settings_set n npp (d : pdict) :
  worker_settings n npp
    (<["n_pixels_per_process" := VInt npp]> (<["n_processes" := VInt n]> d)).
Proof. split; now simplify_map_eq. Qed.

Lemma init_settings_set (d : pdict) :
  init_settings (<["use_hals" := VBool true]> (<["maxIter" := VInt 10]>
                   (<["nIter" := VInt 10]> d))).
Proof. repeat split; now simplify_map_eq. Qed.

Lemma settings_quiet s l : stages l = [] -> settings s l = [].
Proof.
  unfold stages, settings. induction l as [|c l IH]; [reflexivity|].
  intros Hq. rewrite bind_cons.
  destruct c; simpl in Hq; try discriminate Hq;
    rewrite (IH Hq); now destruct s.
Qed.

Lemma merge_args_quiet l : stages l = [] -> merge_args l = [].
Proof.
  unfold stages, merge_args. induction l as [|c l IH]; [reflexivity|].
  intros Hq. destruct c; simpl in Hq; try discriminate Hq; simpl; exact (IH Hq).
Qed.

Lemma merge_args_app l1 l2 : merge_args (l1 ++ l2) = merge_args l1 ++ merge_args l2.
Proof. apply omap_app. Qed.

(** What the settings written by [set_worker_params] look like when read
    back. *)
Ltac read_settings :=
  repeat match goal with
         | E : py_div _ _ = Ok _ |- _ => apply py_div_Ok in E as [? ->]
         | E : set_worker_params _ _ _ = Ok _ |- _ =>
             apply set_worker_params_Ok in E
               as (? & ? & ? & ? & _ & _ & _ & _ & ? & ? & ? & ? & ?)
         | E : set_global_params _ _ _ _ = Ok _ |- _ =>
             apply set_global_params_Ok in E
               as (? & ? & ? & ? & _ & _ & _ & _ & ? & ? & ? & ? & ?)
         | E : get_group _ _ = Ok _ |- _ => apply get_group_Ok in E
         end.

Ltac settings_found :=
  cbv beta;
  repeat match goal with
         | E1 : ?o !! ?g = Some ?ps, E2 : ?o !! ?g = Some (insert _ _ _) |- _ =>
             is_var ps; rewrite E2 in E1; injection E1 as <-
         end;
  first [apply init_settings_set | split; [assumption|apply worker_settings_set]
        | apply worker_settings_set].


Ltac all_settings :=
  repeat (apply List.Forall_cons; [settings_found|]); apply List.Forall_nil.

Section Settings.
Context `{Collaborators}.
Variable cpu : Z.

Lemma whole_frame_stages_settings hd Y d1 d2 p n w res w1 :
  whole_frame_stages cpu hd Y d1 d2 p n w = (res, w1) ->
  exists l,
    calls w1 = calls w ++ l
    /\ Forall init_settings (settings Initialization l)
    /\ (forall s, s <> Initialization ->
          Forall (fun ps => NCPUS cpu <> 0
                    /\ worker_settings (NCPUS cpu)
                         (Z.of_nat d1 * Z.of_nat d2 / NCPUS cpu) ps)
                 (settings s l))
    /\ Forall (fun a => a = (VFloat thr_merge, VInt 100, Some true))
              (merge_args l).
Proof.
  intros Hrun. unfold whole_frame_stages in Hrun.
  repeat run_step_fs Hrun.
  all: unfold ret in Hrun.
  all: injection Hrun as <- <-; cbn [fs calls]; rewrite <- ?app_assoc;
    cbn [app].
  all: eexists; split; [reflexivity|].
  all: read_settings.
  all: split; [cbn; all_settings|].
  all: split; [|cbn; repeat (apply List.Forall_cons; [reflexivity|]);
                apply List.Forall_nil].
  all: intros s Hs; destruct s; try congruence; cbn; all_settings.
Qed.



End Settings.

Lemma settings_around s l0 l1 l2 :
  stages l0 = [] -> stages l2 = [] ->
  settings s (l0 ++ l1 ++ l2) = settings s l1.
Proof.
  intros H0 H2.
  now rewrite !settings_app, (settings_quiet s l0 H0), (settings_quiet s l2 H2),
    app_nil_r.
Qed.

Lemma merge_args_around l0 l1 l2 :
  stages l0 = [] -> stages l2 = [] ->
  merge_args (l0 ++ l1 ++ l2) = merge_args l1.
Proof.
  intros H0 H2.
  now rewrite !merge_args_app, (merge_args_quiet l0 H0),
    (merge_args_quiet l2 H2), app_nil_r.
Qed.

Section SettingsOfARun.
Context `{Collaborators}.
Variable cpu : Z.

(** The calls of a run: a quiet head, the numeric part if it was run, a
    quiet tail. *)
Lemma orchestrate_middle numeric
  (P : ndarray -> nat -> nat -> nat -> list call -> Prop) hd mask w res w' :
  (forall hd Y d1 d2 T w res w1,
     numeric hd Y d1 d2 T w = (res, w1) ->
     exists l, calls w1 = calls w ++ l /\ P Y d1 d2 T l) ->
  orchestrate numeric hd mask w = (res, w') ->
  exists l0 l1 l2 Y d1 d2 T,
    calls w' = calls w ++ l0 ++ l1 ++ l2
    /\ stages l0 = [] /\ stages l2 = []
    /\ (stages l1 = [] \/ P Y d1 d2 T l1)
    /\ forall rois C zproj S1 Y' YrA,
         res = Ok (rois, C, zproj, S1, Y', YrA) ->
         Y' = Y /\ shape3 Y = Ok (d1, d2, T).
Proof.
  intros HP Hrun.
  destruct (orchestrate_cases _ _ _ _ _ _ Hrun)
    as (l0 & w1 & Hl0 & (Hq0 & _) & _ & Hcase).
  destruct Hcase
    as [(e & -> & ->) | (Y & d1 & d2 & T & rb & w2 & Hsh & Hnum & Hcase)].
  - exists l0, [], [], nd_empty, 0%nat, 0%nat, 0%nat.
    rewrite !app_nil_r. repeat split; auto; discriminate.
  - assert (Hmid : exists l1,
              calls w2 = calls w1 ++ l1
              /\ (stages l1 = [] \/ P Y d1 d2 T l1)).
    { destruct (bool_decide _).
      - destruct (load_bundle_calls _ _ _ _ Hnum) as (_ & Hl1 & _).
        eexists. split; [exact Hl1 | now left].
      - destruct (HP _ _ _ _ _ _ _ _ Hnum) as (l1 & Hl1 & Hp1).
        exists l1. auto. }
    destruct Hmid as (l1 & Hl1 & Hm).
    destruct Hcase
      as [(e & -> & -> & ->) | (r & l2 & -> & Hl2 & (Hq2 & _) & Hout)].
    + exists l0, l1, [], Y, d1, d2, T. rewrite app_nil_r.
      split; [now rewrite Hl1, Hl0, app_assoc|].
      repeat split; auto; discriminate.
    + exists l0, l1, l2, Y, d1, d2, T.
      split; [now rewrite Hl2, Hl1, Hl0, <- !app_assoc|].
      split; [assumption|]. split; [assumption|]. split; [assumption|].
      intros rois C zproj S1 Y' YrA Hres.
      destruct (Hout _ Hres) as (polys & zproj' & _ & [=]). subst. auto.
Qed.

(** X20: the settings the whole-frame stages are called with.  In every
    run of [process_data], the initialization is handed [nIter = 10],
    [maxIter = 10], [use_hals = True]; every other stage (preprocessing,
    the updates, the merge) is handed dictionaries with
    [n_processes = NCPUS] and [n_pixels_per_process = d1*d2/NCPUS], an
    integer division, [(d1, d2, T)] being the shape of the cube that is
    returned; and the merge is called with [thr = 0.7], [mx = 100],
    [fast_merge = True]. *)
Theorem whole_frame_settings (hd : dataset) (mask : option (list bool))
  (p n : Z) (w : world) (res : result output) (w' : world) :
  process_data cpu hd mask p n w = (res, w') ->
  exists l d1 d2,
    calls w' = calls w ++ l
    /\ (forall rois C zproj S1 Y YrA,
          res = Ok (rois, C, zproj, S1, Y, YrA) ->
          exists T, shape3 Y = Ok (d1, d2, T))
    /\ Forall init_settings (settings Initialization l)
    /\ (forall s, s <> Initialization ->
          Forall (fun ps => NCPUS cpu <> 0
                    /\ worker_settings (NCPUS cpu)
                         (Z.of_nat d1 * Z.of_nat d2 / NCPUS cpu) ps)
                 (settings s l))
    /\ Forall (fun a => a = (VFloat thr_merge, VInt 100, Some true))
              (merge_args l).
Proof.
  intros Hrun. rewrite process_data_orchestrate in Hrun.
  destruct (orchestrate_middle _
              (fun Y d1 d2 T l =>
                 Forall init_settings (settings Initialization l)
                 /\ (forall s, s <> Initialization ->
                       Forall (fun ps => NCPUS cpu <> 0
                                 /\ worker_settings (NCPUS cpu)
                                      (Z.of_nat d1 * Z.of_nat d2 / NCPUS cpu) ps)
                              (settings s l))
                 /\ Forall (fun a => a = (VFloat thr_merge, VInt 100, Some true))
                           (merge_args l))
              _ _ _ _ _
              (fun hd Y d1 d2 T w res w1 =>
                 whole_frame_stages_settings cpu hd Y d1 d2 p n w res w1)
              Hrun)
    as (l0 & l1 & l2 & Y & d1 & d2 & T & Hl & Hq0 & Hq2 & Hmid & Hout).
  exists (l0 ++ l1 ++ l2), d1, d2. split; [assumption|]. split.
  { intros rois C zproj S1 Y' YrA Hres.
    destruct (Hout _ _ _ _ _ _ Hres) as [-> Hsh]. eauto. }
  rewrite (merge_args_around l0 l1 l2 Hq0 Hq2).
  rewrite (settings_around Initialization l0 l1 l2 Hq0 Hq2).
  destruct Hmid as [Hq1 | (Hi & Hw & Hm)].
  - rewrite (settings_quiet _ l1 Hq1), (merge_args_quiet l1 Hq1).
    split; [constructor|]. split; [|constructor].
    intros s _. rewrite (settings_around s l0 l1 l2 Hq0 Hq2).
    rewrite (settings_quiet _ l1 Hq1). constructor.
  - split; [assumption|]. split; [|assumption].
    intros s Hs. rewrite (settings_around s l0 l1 l2 Hq0 Hq2). now apply Hw.
Qed.


End SettingsOfARun.

(** *** The orchestrators on the small recording, again *)

Lemma toy_no_bundle :
  fs toy_world !! (dirname_comp toy_dataset +:+ "_cnmf.mat") = None.
Proof. vm_compute. reflexivity. Qed.

Lemma whole_frame_call_sequence_witness :
  kinds (calls (snd toy_run))
  = kinds (calls toy_world) ++ cache_kinds toy_dataset toy_world
    ++ whole_frame_kinds 4 (dirname_comp toy_dataset +:+ "_cnmf.mat") 400
    ++ projection_kinds toy_dataset toy_world ++ [KOrder; KStop].
Proof.
  destruct toy_run as [[out|e] w0] eqn:E; [|vm_compute in E; discriminate].
  exact (@whole_frame_call_sequence toy 4 toy_dataset None 2 400 toy_world
           out w0 toy_no_bundle E).
Defined.

Lemma patched_call_sequence_witness :
  exists K',
    kinds (calls (snd toy_patched_run))
    = kinds (calls toy_world) ++ cache_kinds toy_dataset toy_world
      ++ patched_kinds 4 (dirname_comp toy_dataset +:+ "_cnmf.mat") 100 K'
      ++ projection_kinds toy_dataset toy_world ++ [KOrder; KStop].
Proof.
  destruct toy_patched_run as [[out|e] w0] eqn:E;
    [|vm_compute in E; discriminate].
  destruct (@patched_call_sequence toy 4 toy_dataset None 2 400 toy_world
              out w0 toy_no_bundle E) as (K & K' & HK & Hk).
  vm_compute in HK. injection HK as <-.
  exists K'. exact Hk.
Defined.

Lemma replay_call_sequence_witness :
  let run := @process_data_patches toy 8 toy_dataset (Some [true]) 3 10
               toy_bundle_world in
  kinds (calls (snd run))
  = kinds (calls toy_bundle_world) ++ cache_kinds toy_dataset toy_bundle_world
    ++ [KLoadmat (dirname_comp toy_dataset +:+ "_cnmf.mat")]
    ++ projection_kinds toy_dataset toy_bundle_world ++ [KOrder; KStop].
Proof.
  intros run.
  assert (Hex : is_Some (fs toy_bundle_world
                         !! (dirname_comp toy_dataset +:+ "_cnmf.mat")))
    by (eexists; vm_compute; reflexivity).
  destruct run as [[out|e] w0] eqn:E; [|vm_compute in E; discriminate].
  exact (@replay_call_sequence toy 8 toy_dataset (Some [true]) 3 10
           toy_bundle_world out w0 Hex (or_intror E)).
Defined.

Lemma backend_lifecycle_witness :
  backend_after None (kinds (calls (snd toy_run))) = None
  /\ backend_after None (kinds (calls (snd toy_failed_run))) = Some 2.
Proof.
  split.
  - destruct toy_run as [[out|e] w0] eqn:E; [|vm_compute in E; discriminate].
    exact (proj1 (@backend_lifecycle toy 4 toy_dataset None 2 400 toy_world
                    (Ok out) w0 None (or_introl E)) out eq_refl).
  - destruct toy_failed_run as [[out|e] w0] eqn:E;
      [vm_compute in E; discriminate|].
    refine (proj2 (@backend_lifecycle toy_merge_fails 4 toy_dataset None 2 400
                     toy_world (Raise e) w0 None (or_introl E)) e eq_refl
              toy_no_bundle _ _).
    + apply (f_equal snd) in E. cbn [snd] in E. subst w0.
      vm_compute. reflexivity.
    + apply (f_equal snd) in E. cbn [snd] in E. subst w0.
      vm_compute. discriminate.
Defined.

Lemma single_cpu_cannot_compute_witness :
  @process_data toy 1 toy_dataset None 2 400 toy_cached_world
  = (Raise ZeroDivisionError,
     World (fs toy_cached_world) (calls toy_cached_world ++ [c_stop_server])).
Proof.
  assert (Hno : fs toy_cached_world
                !! (dirname_comp toy_dataset +:+ "_cnmf.mat") = None)
    by (vm_compute; reflexivity).
  assert (HY : exists Y, fs toy_cached_world
                         !! (dirname_comp toy_dataset +:+ "_Y.npy")
                         = Some (Npy Y)
                         /\ shape3 Y = Ok (2, 2, 3)%nat)
    by (eexists; split; vm_compute; reflexivity).
  assert (HYr : exists Yr, fs toy_cached_world
                           !! (dirname_comp toy_dataset +:+ "_Yr.npy")
                           = Some (Npy Yr))
    by (eexists; vm_compute; reflexivity).
  destruct HY as (Y & HY & Hsh). destruct HYr as (Yr & HYr).
  destruct (@single_cpu_cannot_compute toy 1 toy_dataset None 2 400
              toy_cached_world
              (fst (@process_data toy 1 toy_dataset None 2 400 toy_cached_world))
              (snd (@process_data toy 1 toy_dataset None 2 400 toy_cached_world))
              eq_refl Hno (or_introl (surjective_pairing _)))
    as (_ & _ & _ & Hz).
  destruct (Hz Y Yr _ _ _ HY Hsh HYr) as [Hres Hw].
  rewrite (surjective_pairing (process_data _ _ _ _ _ _)).
  now rewrite Hres, Hw.
Defined.

Lemma results_are_sticky_witness :
  exists out,
    fst toy_run = Ok out
    /\ fst (@process_data_patches toy 8 toy_dataset (Some [true]) 3 10
              (snd toy_run)) = Ok out.
Proof.
  destruct toy_run as [[out|e] w0] eqn:E; [|vm_compute in E; discriminate].
  exists out. split; [reflexivity|].
  destruct (@results_are_sticky toy 4 toy_dataset None 2 400 toy_world out w0
              (or_introl E) 8 (Some [true]) 3 10) as [_ Hp].
  cbn [snd]. now rewrite Hp.
Defined.

Lemma projection_is_cached_witness :
  let Y := NdArray [2; 2; 3]%nat
             (map float_of_int [2; 0; 1; 1; 0; 2; 1; 0; 3; 1; 0; 4]) in
  let run := @projection toy toy_dataset Y toy_world in
  exists z, fst run = Ok z
            /\ @projection toy toy_dataset nd_empty (snd run) = (Ok z, snd run).
Proof.
  intros Y run.
  destruct run as [[z|e] w0] eqn:E; [|vm_compute in E; discriminate].
  exists z. split; [reflexivity|].
  exact (proj2 (proj2 (@projection_is_cached toy toy_dataset Y nd_empty
                         toy_world z w0 E))).
Defined.

Lemma bundle_is_written_last_witness :
  stages (calls (snd toy_run)) = stages (calls toy_world) ++ whole_frame_order
  /\ fs (snd toy_failed_run) !! (dirname_comp toy_dataset +:+ "_cnmf.mat")
     = None.
Proof.
  split; [|vm_compute; reflexivity].
  assert (Hex : is_Some (fs (snd toy_run)
                         !! (dirname_comp toy_dataset +:+ "_cnmf.mat")))
    by (eexists; vm_compute; reflexivity).
  exact (proj1 (proj1 (@bundle_is_written_last toy 4 toy_dataset None 2 400
                         toy_world (fst toy_run) (snd toy_run) toy_no_bundle)
                  (surjective_pairing _)) Hex).
Defined.

Lemma whole_frame_settings_witness :
  exists l, calls (snd toy_run) = calls toy_world ++ l
            /\ Forall init_settings (settings Initialization l).
Proof.
  destruct (@whole_frame_settings toy 4 toy_dataset None 2 400 toy_world
              (fst toy_run) (snd toy_run) (surjective_pairing _))
    as (l & d1 & d2 & Hl & _ & Hi & _).
  exists l. split; assumption.
Defined.

